(* ===== verification/_CoqProject ===== *)
-Q . S2P
Prelude.v
Rect.v
Game.v
Motion.v
Collision.v
BulletPass.v
Spawner.v
Loop.v
Frame.v
Startup.v
Timing.v
Invariants.v
Shapes.v
Bounds.v
Render.v
