(* ===== verification/Prelude.v ===== *)
(** * A verification development of pythongame (src/game.py)

    The program is one pygame script.  A player rectangle moves along the
    bottom of a 1366x768 field and fires bullets upwards.  Enemies fall from
    the top and fire downwards on every spawn-timer tick.  Once the score
    reaches 500 a boss descends.  All state lives in module-level globals
    that the script's functions mutate.  Module-level code initialises
    pygame and loads the sounds; then the main loop runs one frame per
    iteration: render; then, when playing, [move_bullets], [move_enemies],
    [move_boss] and [check_collisions]; then every queued event (quit,
    space, R, spawn timer); then the held arrow keys.

    ** Files, and the code each one models

    - [Prelude] (this file): the execution model shared by all files.
      Python exceptions ([PyExc]) and a state-and-exception monad [St] with
      notation in [py_scope].  Python's [for x in xs] over a fixed list
      ([py_for]) and [list.remove(x)] ([py_remove]: the first equal element,
      or [ValueError]).  Guarantees [py_guar R E m] (a preorder [R] between
      the states before and after, a predicate [E] on the exceptions), their
      composition lemmas and the tactic [guar_auto] with hint base [guar].
    - [Rect]: pygame's [Rect] (library code, modelled from pygame 2): fields,
      setters, truthiness, [colliderect].  The fields are [Z]; pygame keeps
      them in C ints, so the model is exact while the values stay in
      [INT_MIN, INT_MAX] ([c_int]).
    - [Game]: the globals (lines 10-57) as the record [Game].  The Rect
      objects held by the three entity lists live in a heap
      ([gmap positive Rect]), and the lists hold object identities.  This
      models both in-place mutation through a list copy and [list.remove]'s
      search by value.  Also: the lists as [ListField] instances [PB], [EB]
      and [EN]; the value view [view] (the spec's state: every entry replaced
      by its value); the no-aliasing invariant [wf].
    - [Motion]: [move_bullets], [move_enemies], [move_boss], [reset_boss]
      (lines 92-121).
    - [Collision]: [check_collisions] (lines 123-158), split as the code is
      into [check_player_bullets] (126-142) and [check_player_hit] (144-158).
    - [BulletPass]: the bullet half of [check_collisions] against the spec's
      rule (a projectile meeting an enemy destroys both, +10), in the case
      where the code's removal by value and its unbroken inner loop agree
      with that rule.
    - [Spawner]: [spawn_enemy], [enemy_fire], [spawn_boss] and the timer
      handler [on_enemy_timer] (lines 160-174, 236-240).
    - [Loop]: [restart_game], [handle_event], [handle_keys], one [frame] of
      the main loop, and [run] over a list of frame inputs (lines 188-250).
      Also the spec's three modes as [mode], and the spec's machine
      labelled by events ([mode_after]) with its one unlabelled step,
      Playing -> GameOver on a hit ([hit_or_same]).
    - [Frame]: a whole frame (without events, or with one spawn-timer
      tick) against [frame_spec], the
      composition of the components' value-level specifications (motion,
      collision rule, player-hit rule, held keys), and runs of such frames
      against [run_spec].
    - [Startup]: the module-level code before the loop (lines 6-69):
      [pygame.init], the window, the spawn timer, the font and the four
      sound loads, over a platform record [Setup] (existing files, video
      and audio devices), with pygame's errors; [program] is the start-up
      followed by [run], and [script] adds the end of the script (lines
      252-253) as an [Outcome].  The start-up's reference is
      [startup_spec].
    - [Timing]: [clock.tick(FPS)] and the SDL timer behind
      [set_timer(enemy_event, 1000)], as a model of time that produces
      each frame's spawn events from the time of its [event.get].
    - [Invariants]: invariants of whole runs.
    - [Shapes]: the shape invariant [shapes] (every Rect has the size of
      its kind, every list entry is allocated), with the test [shapesb].
    - [Bounds]: the positions of the enemies and of the boss stay inside
      the field.
    - [Render]: the drawing functions (lines 71-90, 176-186) and the
      render half of the main loop (lines 200-213).  A screen is the list
      of draw calls issued ([Draw]: fill, rect, the float-width health bar
      with its width an exact rational [Q], a text blit whose text is built
      with stdpp's [pretty] as Python's [str]).  [iteration] is one pass of
      [while running] (render, then [frame]) and [run_screens] collects the
      screens of a run.

    ** What the theorems show

    - Refinement: on a state without aliasing, [move_enemies] and
      [move_bullets] compute [filter keep (map step xs)] on the values
      ([Motion.move_enemies_refines], [Motion.move_bullets_refines]).
      A timer tick outside the boss stage, and a space key press while
      playing, meet value-level specifications
      ([Spawner.on_enemy_timer_spawns_enemy], [Loop.space_fires]).
      The bullet half of the collision pass, in the case without equal
      values, double overlaps or boss overlaps, removes exactly the
      overlapping pairs and scores 10 each
      ([BulletPass.check_player_bullets_refines]).
      A frame moves the mode along the spec's machine labelled by its
      events: the systems can only take Playing to GameOver, then every
      event takes its labelled step in order ([Loop.frame_mode_machine]).
      Composed, a frame without events computes [frame_spec]
      ([Frame.frame_refines]), and a run of such frames simulates the
      specification's run while each frame is in the case the collision
      rule covers ([Frame.run_refines_spec]); in the frame in which the
      player is hit the held keys are ignored, since they are read after
      the collisions ([Frame.keys_ignored_on_hit]); and a frame with a
      spawn-timer tick adds the spawner's rule after the collisions
      ([Frame.frame_spawn_refines]).
    - Errors (two defects of the code):
      - a bullet that reaches the boss raises [NameError], because
        [boss_hit_sound] is never defined
        ([Collision.check_collisions_boss_hit_raises]);
      - a bullet over two enemies raises [ValueError]
        ([Collision.check_collisions_double_hit]).
    - Invariants:
      - no two list entries alias a Rect ([Loop.run_preserves_wf]);
      - the player stays 50x50, bullets 5x5, enemies 30x30 and the boss
        100x100 ([Shapes.run_preserves_shapes]);
      - in every run that goes on, the boss health stays 20 and the score
        stays a multiple of 10 ([Invariants.run_session_inv]).
    - Safety:
      - the boss stage excludes enemy spawning
        ([Spawner.on_enemy_timer_boss_exclusive]);
      - a restart during the boss stage leaves [boss_stage] set, and no
        enemy or boss ever appears again
        ([Loop.restart_in_boss_stage_softlock]);
      - once the score has reached 500, no regular enemy is spawned again
        in a run that does not go back to the menu
        ([Invariants.run_no_enemy_after_500]).
    - Functional behaviour:
      - the player-hit half of the collision pass
        ([Collision.check_player_hit_correct]);
      - the score accounting of the pass ([Collision.check_collisions_kills]);
      - the boss spawn ([Spawner.on_enemy_timer_spawns_boss]);
      - the inert game-over screen and start menu
        ([Loop.frame_game_over_frozen], [Loop.frame_start_frozen]);
      - the restart, idempotent, and canonical except for [boss_stage]
        ([Loop.restart_game_canonical]).
    - Liveness: an undamaged boss leaves the field and ends the boss stage
      after exactly HEIGHT - y + 1 moves ([Motion.move_boss_leaves]); every
      enemy that is not destroyed leaves the field ([Motion.enemies_leave]).
    - Bounds: the player is never clamped to the field, as far as its x
      stays a C int ([Loop.run_player_unclamped]), while every enemy stays in
      [0, WIDTH - ENEMY_SIZE] x [0, HEIGHT] ([Bounds.run_enemies_in_field])
      and the boss in [0, WIDTH - BOSS_SIZE] x [-100, HEIGHT]
      ([Bounds.run_boss_in_field]).
    - Start-up: it computes its reference [startup_spec]
      ([Startup.startup_refines]); a missing sound file under the
      hard-coded directory is fatal before the first frame
      ([Startup.program_missing_sound_fatal]); otherwise the program is
      the main loop from the initial globals ([Startup.program_starts]);
      a session with a quit event ends, by [sys.exit()] with status 0 or
      by a crash ([Startup.script_quit_ends]).
    - Timing: at 60 frames per second the first n frames get between
      16 (n - 1) / 1000 and 16 n / 1000 spawn events ([Timing.timer_rate]),
      since no timer post is lost or duplicated; a frame gets at most
      one spawn event ([Timing.timer_at_most_one]) and every 64
      consecutive frames get one ([Timing.timer_within_64_frames]).
    - Termination of the main loop: a QUIT event ends the loop after the
      frame that holds it ([Loop.run_quit]).
    - Rendering: in every run from a full-health state the boss's health
      bar is drawn at the boss's full width, since a hit raises first
      ([Render.run_screens_bar_full]).

    ** Bounds and fuel

    There is no fuel.  Every loop of the code runs over a list fixed when
    it starts, so [py_for] is structural.  The unbounded [while running]
    is modelled by [run], which is structural in the list of frame inputs:
    a run of n inputs is at most n frames.  Every statement about the loop
    quantifies over all input lists, so it covers runs of any length.
    [random.randint] is an oracle [rand : nat -> Z], a variable of every
    theorem: the k-th draw is [a + rand k mod (b - a + 1)], so the theorems
    hold for every sequence of draws.  Likewise the time each frame's work
    takes is an oracle [work : nat -> Z] in [Timing], and the files and
    devices of the machine are a variable [Setup] in [Startup].  Integers
    are Python's unbounded integers, hence [Z].  The Rect fields are C ints
    in pygame.  Enemies and the boss stay in the field ([Bounds]); the
    other Rects are removed once they leave it, except that a player
    bullet starts at the player's x.  The player's x is the one value the
    code lets grow without bound, and the theorems on it assume it stays
    in the C int range (holding an arrow key for about 4.3e8 frames would
    leave it).

    ** Not modelled

    - Pixels and fonts: a screen stops at the list of draw calls that
      [pygame.display.flip] shows; what pygame makes of them is library
      code.
    - Float rounding of the health bar's width: the width is the exact
      rational; at the only health a run keeps (20) the float is exact.
    - The audio output: the sounds played are recorded, most recent first,
      in the log [sounds].
    - Where SDL places the timer's events among the user's events of the
      same frame: [Timing] puts them last.
    - The time spent inside a frame after its [event.get]: [Timing] counts
      all of a frame's work before it.
    - A player x outside the C int range: pygame wraps it (64-bit C long)
      or raises [TypeError] (Windows); the model keeps the exact [Z]. *)

From stdpp Require Export base list gmap strings.
From Stdlib Require Export ZArith Lia.

Open Scope Z_scope.

(** ** Python exceptions and the state-and-exception monad *)

Inductive PyExc :=
| NameError (name : string)
| ValueError (msg : string)
| FileNotFoundError (path : string)     (** a missing file, at startup *)
| PygameError (msg : string).          (** [pygame.error] *)

#[export] Instance PyExc_eq_dec : EqDecision PyExc.
Proof. solve_decision. Defined.

(** A computation over the global state [S]: it returns a value and the new
    state, or raises.  An exception that escapes the main loop ends the
    program, so the state at the raise is not kept. *)
Definition St (S A : Type) : Type := S -> PyExc + (A * S).

Section Monad.
Context {S : Type}.

Definition py_ret {A} (a : A) : St S A := fun s => inr (a, s).

Definition py_bind {A B} (m : St S A) (k : A -> St S B) : St S B :=
  fun s => match m s with
           | inl e => inl e
           | inr (a, s') => k a s'
           end.

Definition py_raise {A} (e : PyExc) : St S A := fun _ => inl e.

Definition py_get : St S S := fun s => inr (s, s).

Definition py_gets {A} (f : S -> A) : St S A := fun s => inr (f s, s).

Definition py_modify (f : S -> S) : St S unit := fun s => inr (tt, f s).

Definition py_when (b : bool) (m : St S unit) : St S unit :=
  if b then m else py_ret tt.

(** [for x in xs: body(x)], over a list value fixed when the loop starts
    (a slice copy [xs[:]] in the source). *)
Fixpoint py_for {A} (xs : list A) (body : A -> St S unit) : St S unit :=
  match xs with
  | [] => py_ret tt
  | x :: xs' => py_bind (body x) (fun _ => py_for xs' body)
  end.

(** [m] run [n] times in sequence. *)
Fixpoint py_repeat (n : nat) (m : St S unit) : St S unit :=
  match n with
  | O => py_ret tt
  | Datatypes.S n' => py_bind m (fun _ => py_repeat n' m)
  end.
End Monad.

Declare Scope py_scope.
Delimit Scope py_scope with py.
Notation "x <- m ;; k" := (py_bind m (fun x => k))
  (at level 100, m at next level, right associativity) : py_scope.
Notation "m ;; k" := (py_bind m (fun _ => k))
  (at level 100, right associativity) : py_scope.
Open Scope py_scope.

Section MonadLaws.
Context {S : Type}.

Lemma py_bind_ret_l {A B} (a : A) (k : A -> St S B) s :
  py_bind (py_ret a) k s = k a s.
Proof. reflexivity. Qed.

Lemma py_bind_assoc {A B C} (m : St S A) (k : A -> St S B) (k' : B -> St S C) s :
  py_bind (py_bind m k) k' s = py_bind m (fun a => py_bind (k a) k') s.
Proof. unfold py_bind. destruct (m s) as [e|[a s']]; reflexivity. Qed.

Lemma py_bind_gets {A B} (f : S -> A) (k : A -> St S B) s :
  py_bind (py_gets f) k s = k (f s) s.
Proof. reflexivity. Qed.

Lemma py_bind_get {B} (k : S -> St S B) s : py_bind py_get k s = k s s.
Proof. reflexivity. Qed.

Lemma py_bind_modify {B} f (k : unit -> St S B) s :
  py_bind (py_modify f) k s = k tt (f s).
Proof. reflexivity. Qed.

Lemma py_bind_inr {A B} (m : St S A) (k : A -> St S B) s a s' :
  m s = inr (a, s') -> py_bind m k s = k a s'.
Proof. unfold py_bind. intros ->. reflexivity. Qed.

Lemma py_bind_inl {A B} (m : St S A) (k : A -> St S B) s e :
  m s = inl e -> py_bind m k s = inl e.
Proof. unfold py_bind. intros ->. reflexivity. Qed.

(** A sequence that returned: both parts returned. *)
Lemma py_bind_inr_inv {A B} (m : St S A) (k : A -> St S B) s b s' :
  py_bind m k s = inr (b, s') -> exists a s1, m s = inr (a, s1) /\ k a s1 = inr (b, s').
Proof. unfold py_bind. destruct (m s) as [e|[a s1]]; [done|]. eauto. Qed.

Lemma py_for_app {A} (xs ys : list A) (body : A -> St S unit) s :
  py_for (xs ++ ys) body s = py_bind (py_for xs body) (fun _ => py_for ys body) s.
Proof.
  revert s. induction xs as [|x xs IH]; intros s; [reflexivity|].
  cbn [app py_for]. unfold py_bind.
  destruct (body x s) as [e|[[] s']]; [reflexivity|].
  specialize (IH s'). unfold py_bind in IH. exact IH.
Qed.

Lemma py_repeat_add n k (m : St S unit) s :
  py_repeat (n + k) m s = py_bind (py_repeat n m) (fun _ => py_repeat k m) s.
Proof.
  revert s. induction n as [|n IH]; intros s; [reflexivity|].
  cbn [Nat.add py_repeat]. unfold py_bind.
  destruct (m s) as [e|[[] s']]; [reflexivity|].
  specialize (IH s'). unfold py_bind in IH. exact IH.
Qed.

(** A loop whose body keeps a predicate of the state and never raises
    keeps it and never raises. *)
Lemma py_for_preserves {A} (P : S -> Prop) (xs : list A) (body : A -> St S unit) :
  (forall x s, P s -> exists s', body x s = inr (tt, s') /\ P s') ->
  forall s, P s -> exists s', py_for xs body s = inr (tt, s') /\ P s'.
Proof.
  intros Hbody. induction xs as [|x xs IH]; intros s Hs; [eauto|].
  destruct (Hbody x s Hs) as (s1 & H1 & Hs1). cbn [py_for].
  rewrite (py_bind_inr _ _ _ _ _ H1). auto.
Qed.
End MonadLaws.

Create HintDb py.
Create Rewrite HintDb py_rw.
#[export] Hint Rewrite @py_bind_ret_l @py_bind_assoc @py_bind_gets @py_bind_get @py_bind_modify : py_rw.

(** Unfold the monad's primitives once the state is concrete enough. *)
Ltac py_simpl :=
  cbn [py_bind py_ret py_raise py_get py_gets py_modify py_when py_for] in *.

(** ** Guarantees: a relation [R] between the state before and after a
    computation that returns, and a predicate [E] on the exceptions it may
    raise.  With a preorder they compose along [py_bind], [py_when] and
    [py_for]. *)
Section Guarantee.
Context {S : Type} (R : S -> S -> Prop) `{!PreOrder R} (E : PyExc -> Prop).

Definition py_guar {A} (m : St S A) : Prop :=
  forall s, match m s with inl e => E e | inr (_, s') => R s s' end.

Lemma guar_ret {A} (a : A) : py_guar (py_ret a).
Proof. intros s. cbn. reflexivity. Qed.

Lemma guar_raise {A} e : E e -> py_guar (A := A) (py_raise e).
Proof. intros He s. exact He. Qed.

(** What follows a raise never runs. *)
Lemma guar_raise_bind {A B} e (k : A -> St S B) : E e -> py_guar (py_bind (py_raise e) k).
Proof. intros He s. exact He. Qed.

(** An update followed by a raise: the updated state is never kept. *)
Lemma guar_modify_raise {A B} f e (k : A -> St S B) :
  E e -> py_guar (py_bind (py_modify f) (fun _ => py_bind (py_raise e) k)).
Proof. intros He s. exact He. Qed.

Lemma guar_get : py_guar py_get.
Proof. intros s. cbn. reflexivity. Qed.

Lemma guar_gets {A} (f : S -> A) : py_guar (py_gets f).
Proof. intros s. cbn. reflexivity. Qed.

Lemma guar_modify f : (forall s, R s (f s)) -> py_guar (py_modify f).
Proof. intros Hf s. apply Hf. Qed.

Lemma guar_bind {A B} (m : St S A) (k : A -> St S B) :
  py_guar m -> (forall a, py_guar (k a)) -> py_guar (py_bind m k).
Proof.
  intros Hm Hk s. specialize (Hm s). unfold py_bind.
  destruct (m s) as [e|[a s']]; [exact Hm|]. specialize (Hk a s').
  destruct (k a s') as [e|[b s'']]; [exact Hk|]. by transitivity s'.
Qed.

Lemma guar_when b (m : St S unit) : py_guar m -> py_guar (py_when b m).
Proof. intros Hm. destruct b; [exact Hm|apply guar_ret]. Qed.

Lemma guar_for {A} (xs : list A) (body : A -> St S unit) :
  (forall x, py_guar (body x)) -> py_guar (py_for xs body).
Proof.
  intros Hb. induction xs as [|x xs IH]; cbn; [apply guar_ret|]. by apply guar_bind.
Qed.

(** A loop over a list each of whose elements the body handles. *)
Lemma guar_for_Forall {A} (xs : list A) (body : A -> St S unit) :
  Forall (fun x => py_guar (body x)) xs -> py_guar (py_for xs body).
Proof. induction 1 as [|x xs Hx _ IH]; cbn; [apply guar_ret|]. by apply guar_bind. Qed.

(** A continuation that reads the state is checked at the state it reads. *)
Lemma guar_get_bind {B} (k : S -> St S B) :
  (forall s, match k s s with inl e => E e | inr (_, s') => R s s' end) ->
  py_guar (py_bind py_get k).
Proof. intros Hk s. apply Hk. Qed.

(** What a guarantee gives at a run. *)
Lemma guar_run {A} (m : St S A) s a s' : py_guar m -> m s = inr (a, s') -> R s s'.
Proof. intros Hm Hs. specialize (Hm s). by rewrite Hs in Hm. Qed.

Lemma guar_exc {A} (m : St S A) s e : py_guar m -> m s = inl e -> E e.
Proof. intros Hm Hs. specialize (Hm s). by rewrite Hs in Hm. Qed.
End Guarantee.

(** A guarantee gives every weaker one. *)
Lemma guar_weaken {S A} (R R' : S -> S -> Prop) (E : PyExc -> Prop) (m : St S A) :
  (forall s s', R s s' -> R' s s') -> py_guar R E m -> py_guar R' E m.
Proof. intros HR Hm s. specialize (Hm s). destruct (m s) as [e|[a s']]; auto. Qed.

Create HintDb guar.
#[export] Hint Resolve guar_raise guar_modify guar_modify_raise : guar.

(** Decompose a composite computation into its primitives; those that are
    not monad combinators are left to the hints of [guar]. *)
Ltac guar_step :=
  match goal with
  | |- py_guar _ _ (py_bind (py_raise _) _) => apply guar_raise_bind
  | |- py_guar _ _ (py_bind _ _) =>
      apply guar_bind; try apply _; try match goal with |- forall _, _ => intros ? end
  | |- py_guar _ _ (py_when _ _) => apply guar_when
  | |- py_guar _ _ (py_for _ _) =>
      apply guar_for; try match goal with |- forall _, _ => intros ? end
  | |- py_guar _ _ (py_ret _) => apply guar_ret; apply _
  | |- py_guar _ _ (py_gets _) => apply guar_gets; apply _
  | |- py_guar _ _ py_get => apply guar_get; apply _
  | |- py_guar _ _ (if ?c then _ else _) => destruct c
  end.

(** [guar_bind] with its preorder instance discharged: two goals remain. *)
Ltac guar_bind_tac := apply guar_bind; [apply _| |].

Ltac guar_auto := repeat first [solve [eauto 10 with guar] | guar_step]; try apply _.

(** ** Python's [list.remove(x)]

    CPython scans the list from the front and deletes the first item that
    compares equal to [x]; if none does it raises
    [ValueError("list.remove(x): x not in list")].  The equality test is
    given as the predicate [eqx] ("this item == x"). *)
Fixpoint py_remove {A} (eqx : A -> bool) (l : list A) : option (list A) :=
  match l with
  | [] => None
  | y :: l' => if eqx y then Some l' else cons y <$> py_remove eqx l'
  end.

Definition remove_error : PyExc := ValueError "list.remove(x): x not in list".

Section Remove.
Context {A : Type} (eqx : A -> bool).

Lemma py_remove_app_first l1 x l2 :
  Forall (fun y => eqx y = false) l1 -> eqx x = true ->
  py_remove eqx (l1 ++ x :: l2) = Some (l1 ++ l2).
Proof.
  intros Hl1 Hx. induction Hl1 as [|y l1 Hy _ IH]; cbn.
  - now rewrite Hx.
  - now rewrite Hy, IH.
Qed.

Lemma py_remove_None l :
  Forall (fun y => eqx y = false) l -> py_remove eqx l = None.
Proof. induction 1 as [|y l Hy _ IH]; cbn; [done|]. now rewrite Hy, IH. Qed.

Lemma py_remove_Some_inv l l' :
  py_remove eqx l = Some l' ->
  exists l1 x l2, l = l1 ++ x :: l2 /\ l' = l1 ++ l2 /\ eqx x = true /\
                  Forall (fun y => eqx y = false) l1.
Proof.
  revert l'. induction l as [|y l IH]; intros l' H; cbn in H; [done|].
  destruct (eqx y) eqn:Hy.
  - injection H as <-. exists [], y, l. auto.
  - destruct (py_remove eqx l) as [l''|] eqn:E; cbn in H; [|done].
    injection H as <-. destruct (IH l'' eq_refl) as (l1 & x & l2 & -> & -> & Hx & Hl1).
    exists (y :: l1), x, l2. repeat split; auto.
Qed.

Lemma py_remove_length l l' :
  py_remove eqx l = Some l' -> length l = S (length l').
Proof.
  intros (l1 & x & l2 & -> & -> & _)%py_remove_Some_inv.
  rewrite !length_app. cbn. lia.
Qed.
End Remove.

(** Sublists: what a sequence of removals leaves of a list. *)
Lemma py_remove_sublist {A} (eqx : A -> bool) l l' :
  py_remove eqx l = Some l' -> sublist l' l.
Proof.
  intros (l1 & x & l2 & -> & -> & _)%py_remove_Some_inv.
  apply sublist_app; [done|]. by apply sublist_cons.
Qed.

(** ** Lists *)

Lemma elem_of_map_in {A B} (f : A -> B) x l : x ∈ l -> f x ∈ map f l.
Proof. intros H. apply list_elem_of_In, in_map, list_elem_of_In, H. Qed.

#[export] Hint Resolve elem_of_map_in : py.

Lemma NoDup_remove_mid {A} (l1 l2 : list A) x :
  NoDup (l1 ++ x :: l2) -> NoDup (l1 ++ l2).
Proof.
  rewrite !NoDup_app, NoDup_cons. intros (H1 & H2 & _ & H3).
  repeat split; [done| |done]. intros y Hy1 Hy2. apply (H2 y Hy1), elem_of_cons. by right.
Qed.

Lemma filter_sublist {A} (p : A -> bool) (l : list A) : List.filter p l `sublist_of` l.
Proof.
  induction l as [|x l IH]; cbn; [done|].
  destruct (p x); [by apply sublist_skip | by apply sublist_cons].
Qed.

Lemma map_sublist {A B} (f : A -> B) (l1 l2 : list A) :
  l1 `sublist_of` l2 -> map f l1 `sublist_of` map f l2.
Proof.
  induction 1; cbn; [done | by apply sublist_skip | by apply sublist_cons].
Qed.

Lemma Forall_sublist_of {A} (P : A -> Prop) (l1 l2 : list A) :
  l1 `sublist_of` l2 -> Forall P l2 -> Forall P l1.
Proof.
  induction 1 as [|x l1 l2 _ IH|x l1 l2 _ IH]; [done| |];
    intros Hl2; apply Forall_cons in Hl2 as [Hx Hl2]; auto.
Qed.

(** Two entries of a list without duplicates, one on each side of an [++],
    are different. *)
Lemma NoDup_app_ne {A} (l1 l2 : list A) x y :
  NoDup (l1 ++ l2) -> x ∈ l1 -> y ∈ l2 -> x <> y.
Proof. rewrite NoDup_app. intros (_ & H & _) Hx Hy ->. exact (H y Hx Hy). Qed.

#[export] Hint Resolve filter_sublist map_sublist : py.

(** ** Triples: from a state satisfying [P] the computation returns (it does
    not raise) with a value and state satisfying [Q]. *)
Section Triple.
Context {S : Type}.

Definition py_triple {A} (P : S -> Prop) (m : St S A) (Q : A -> S -> Prop) : Prop :=
  forall s, P s -> match m s with inl _ => False | inr (a, s') => Q a s' end.

Lemma triple_ret {A} (P : A -> S -> Prop) a : py_triple (P a) (py_ret a) P.
Proof. intros s Hs. exact Hs. Qed.

Lemma triple_bind {A B} P (m : St S A) Q (k : A -> St S B) R :
  py_triple P m Q -> (forall a, py_triple (Q a) (k a) R) -> py_triple P (py_bind m k) R.
Proof.
  intros Hm Hk s Hs. specialize (Hm s Hs). unfold py_bind.
  destruct (m s) as [e|[a s']]; [done|]. by apply Hk.
Qed.

Lemma triple_weaken {A} P P' (m : St S A) Q Q' :
  (forall s, P' s -> P s) -> (forall a s, Q a s -> Q' a s) ->
  py_triple P m Q -> py_triple P' m Q'.
Proof.
  intros HP HQ Hm s Hs. specialize (Hm s (HP s Hs)).
  destruct (m s) as [e|[a s']]; auto.
Qed.

Lemma triple_get (P : S -> Prop) : py_triple P py_get (fun s' s => P s /\ s' = s).
Proof. intros s Hs. cbn. done. Qed.

Lemma triple_gets {A} (P : S -> Prop) (f : S -> A) :
  py_triple P (py_gets f) (fun a s => P s /\ a = f s).
Proof. intros s Hs. cbn. done. Qed.

Lemma triple_modify (P : S -> Prop) f : py_triple P (py_modify f) (fun _ s' => exists s, P s /\ s' = f s).
Proof. intros s Hs. cbn. eauto. Qed.

Lemma triple_when (I : S -> Prop) b (m : St S unit) :
  py_triple I m (fun _ => I) -> py_triple I (py_when b m) (fun _ => I).
Proof. intros Hm. destruct b; [exact Hm|apply (triple_ret (fun _ : unit => I))]. Qed.

Lemma triple_for {A} (I : S -> Prop) (xs : list A) (body : A -> St S unit) :
  (forall x, x ∈ xs -> py_triple I (body x) (fun _ => I)) ->
  py_triple I (py_for xs body) (fun _ => I).
Proof.
  induction xs as [|x xs IH]; intros Hb; cbn; [apply (triple_ret (fun _ : unit => I))|].
  apply triple_bind with (Q := fun _ => I).
  - apply Hb, elem_of_cons. by left.
  - intros _. apply IH. intros y Hy. apply Hb, elem_of_cons. by right.
Qed.

(** A computation that returns from [s]: the value and state it gives. *)
Lemma triple_run {A} P (m : St S A) Q s :
  py_triple P m Q -> P s -> exists a s', m s = inr (a, s') /\ Q a s'.
Proof.
  intros Hm Hs. specialize (Hm s Hs). destruct (m s) as [e|[a s']]; [done|]. eauto.
Qed.
End Triple.

(** A loop whose body leaves the state as it is. *)
Lemma py_for_noop {S A} (xs : list A) (body : A -> St S unit) s :
  (forall x, x ∈ xs -> body x s = inr (tt, s)) -> py_for xs body s = inr (tt, s).
Proof.
  induction xs as [|x xs IH]; intros Hb; cbn; [done|].
  rewrite (py_bind_inr _ _ _ _ _ (Hb x ltac:(by apply elem_of_cons; left))).
  apply IH. intros y Hy. apply Hb, elem_of_cons. by right.
Qed.
