(* ===== verification/Rect.v ===== *)
(** pygame's [Rect] as game.py uses it: position and size as integers
    (exact within the range of a C int), the attribute setters [r.x = v] and [r.y = v], truthiness ([if boss:]) and
    [colliderect].  [colliderect] follows pygame 2's [_pg_do_rects_intersect]:
    a rectangle of zero width or height meets nothing, otherwise the open
    extents (normalised by min/max for negative sizes) must overlap on both
    axes.  The theorems: symmetry, and for positive sizes the strict overlap
    test of the spec (section 3 and 8). *)
From S2P Require Import Prelude.

Record Rect := mkRect { rx : Z; ry : Z; rw : Z; rh : Z }.

#[export] Instance Rect_eq_dec : EqDecision Rect.
Proof. solve_decision. Defined.

#[export] Instance Rect_inhabited : Inhabited Rect := populate (mkRect 0 0 0 0).

(** pygame keeps the four fields in C [int]s.  Assigning a value outside
    [INT_MIN, INT_MAX] wraps it where a C long has 64 bits and raises
    [TypeError] where it has 32 (Windows).  The fields here are unbounded
    [Z]: the model is exact as long as every value assigned is a C int
    ([c_int]).  In game.py only the player's x can grow without bound (a
    held arrow key adds 5 per frame); every other Rect is removed or reset
    when it leaves the field, or starts at the player's x.  The theorems on
    the player's x assume the range. *)
Definition INT_MIN : Z := - 2 ^ 31.
Definition INT_MAX : Z := 2 ^ 31 - 1.
Definition c_int (v : Z) : Prop := INT_MIN <= v <= INT_MAX.

(** [r.x = v], [r.y = v] for a C int [v]: only the position changes. *)
Definition set_x (r : Rect) (v : Z) : Rect := {| r with rx := v |}.
Definition set_y (r : Rect) (v : Z) : Rect := {| r with ry := v |}.

(** [bool(r)]: a Rect is false when its width or height is zero. *)
Definition rect_truthy (r : Rect) : bool := negb ((rw r =? 0) || (rh r =? 0)).

(** [a == b] on Rects compares the four fields. *)
Definition rect_eqb (a b : Rect) : bool := bool_decide (a = b).

Definition colliderect (a b : Rect) : bool :=
  if (rw a =? 0) || (rh a =? 0) || (rw b =? 0) || (rh b =? 0) then false
  else (Z.min (rx a) (rx a + rw a) <? Z.max (rx b) (rx b + rw b)) &&
       (Z.min (ry a) (ry a + rh a) <? Z.max (ry b) (ry b + rh b)) &&
       (Z.min (rx b) (rx b + rw b) <? Z.max (rx a) (rx a + rw a)) &&
       (Z.min (ry b) (ry b + rh b) <? Z.max (ry a) (ry a + rh a)).

(** The spec's intersection test on rectangles of positive size. *)
Definition overlaps (a b : Rect) : Prop :=
  rx a < rx b + rw b /\ rx b < rx a + rw a /\
  ry a < ry b + rh b /\ ry b < ry a + rh a.

Definition positive_size (r : Rect) : Prop := 0 < rw r /\ 0 < rh r.

(** ** Lemmas *)

Lemma rect_eqb_true a b : rect_eqb a b = true <-> a = b.
Proof. unfold rect_eqb. apply bool_decide_eq_true. Qed.

Lemma rect_eqb_refl a : rect_eqb a a = true.
Proof. by apply rect_eqb_true. Qed.

Lemma set_y_ry r v : ry (set_y r v) = v.
Proof. reflexivity. Qed.

#[export] Hint Rewrite rect_eqb_refl set_y_ry : py_rw.

(** [colliderect] is symmetric: [a.colliderect(b) == b.colliderect(a)]
    for all rectangles, of any size or sign. *)
Theorem colliderect_sym a b : colliderect a b = colliderect b a.
Proof.
  unfold colliderect.
  destruct (rw a =? 0), (rh a =? 0), (rw b =? 0), (rh b =? 0); cbn; try reflexivity.
  destruct (Z.min (rx a) _ <? _), (Z.min (ry a) _ <? _),
           (Z.min (rx b) _ <? _), (Z.min (ry b) _ <? _); reflexivity.
Qed.

Lemma colliderect_zero_l a b :
  rw a = 0 \/ rh a = 0 -> colliderect a b = false.
Proof.
  unfold colliderect. intros [->| ->]; rewrite Z.eqb_refl; cbn;
    [reflexivity|now destruct (rw a =? 0)].
Qed.

Section PositiveSize.
Context (a b : Rect).
Hypothesis (Ha : positive_size a) (Hb : positive_size b).

Lemma positive_size_nonzero r : positive_size r -> (rw r =? 0) = false /\ (rh r =? 0) = false.
Proof. intros [? ?]. split; apply Z.eqb_neq; lia. Qed.

(** On rectangles of positive size [colliderect] is exactly the strict
    overlap of the extents on both axes. *)
Theorem colliderect_overlaps : colliderect a b = true <-> overlaps a b.
Proof.
  unfold colliderect, overlaps.
  destruct (positive_size_nonzero a Ha) as [-> ->].
  destruct (positive_size_nonzero b Hb) as [-> ->]. cbn.
  destruct Ha, Hb.
  rewrite !Z.min_l, !Z.max_r by lia.
  rewrite !andb_true_iff, !Z.ltb_lt. lia.
Qed.

Lemma colliderect_false_iff : colliderect a b = false <-> ~ overlaps a b.
Proof.
  rewrite <- colliderect_overlaps. destruct (colliderect a b); intuition congruence.
Qed.
End PositiveSize.

(** The spec's scenario, a 5x5 bullet at (100,100) and a 30x30
    enemy at (98,98) intersect. *)
Lemma colliderect_overlaps_witness :
  positive_size (mkRect 100 100 5 5) /\ positive_size (mkRect 98 98 30 30) /\
  overlaps (mkRect 100 100 5 5) (mkRect 98 98 30 30).
Proof.
  assert (Ha : positive_size (mkRect 100 100 5 5)) by (split; cbn; lia).
  assert (Hb : positive_size (mkRect 98 98 30 30)) by (split; cbn; lia).
  split; [exact Ha|]. split; [exact Hb|].
  apply (colliderect_overlaps _ _ Ha Hb). vm_compute. reflexivity.
Defined.
