(* ===== verification/Game.v ===== *)
(** The global state of game.py and the primitives the functions use on it.

    Python objects: the Rect objects held by [player_bullets],
    [enemy_bullets] and [enemies] are mutated in place through a copy of the
    list ([for enemy in enemies[:]: enemy.y += 2]) and then removed by
    [list.remove], which searches by value.  To model both faithfully the
    lists hold object identities ([Obj]) and the Rects live in a heap
    [heap : gmap Obj Rect].  [player] and [boss] are single objects never
    shared with a list, so they are kept as values.

    [ListField] packages one of the three lists with the Python value of an
    item (what [==] compares) and the laws the loop lemmas need; its three
    instances are [PB], [EB] and [EN].  [wf] is the no-aliasing invariant:
    no two list entries share a Rect object, and every entry was allocated. *)
From S2P Require Import Prelude Rect.

(** ** Constants (game.py lines 10-15, 33, 47) *)
Definition WIDTH : Z := 1366.
Definition HEIGHT : Z := 768.
Definition PLAYER_SIZE : Z := 50.
Definition ENEMY_SIZE : Z := 30.
Definition BULLET_SIZE : Z := 5.
Definition BOSS_SIZE : Z := 100.
Definition player_speed : Z := 5.
Definition BOSS_MAX_HEALTH : Z := 20.

(** The sound objects of lines 66-69; [boss_hit_sound] is not one of them. *)
Inductive Sound := bullet_sound | game_over_sound | enemy_hit_sound | boss_intro_sound.

#[export] Instance Sound_eq_dec : EqDecision Sound.
Proof. solve_decision. Defined.

(** An object identity: the address of a Rect in the heap. *)
Abbreviation Obj := positive (only parsing).

(** A player bullet is the tuple [(rect, dir_x, dir_y)] of line 230. *)
Definition PlayerBullet : Type := Obj * Z * Z.
Definition pb_rect (b : PlayerBullet) : Obj := b.1.1.

(** ** The globals (lines 31-57) *)
Record Game := mkGame {
  heap : gmap Obj Rect;          (** the Rect objects of the three lists *)
  next_obj : Obj;                (** next fresh object identity *)
  player : Rect;
  player_bullets : list PlayerBullet;
  enemy_bullets : list Obj;
  enemies : list Obj;
  boss : option Rect;            (** [None] or a Rect *)
  boss_health : Z;
  boss_stage : bool;
  score : Z;
  is_game_over : bool;
  in_start_menu : bool;
  running : bool;                (** the main loop's flag, line 200 *)
  rng_n : nat;                   (** how many random draws were made *)
  sounds : list Sound            (** cues played, most recent first *)
}.

Abbreviation PyM := (St Game).

Definition start_player : Rect :=
  mkRect (WIDTH / 2) (HEIGHT - PLAYER_SIZE - 10) PLAYER_SIZE PLAYER_SIZE.

(** The state when the main loop is entered. *)
Definition init_game : Game := {|
  heap := ∅; next_obj := 1%positive;
  player := start_player;
  player_bullets := []; enemy_bullets := []; enemies := [];
  boss := None; boss_health := 20; boss_stage := false;
  score := 0; is_game_over := false; in_start_menu := true;
  running := true; rng_n := 0; sounds := [] |}.

(** [if boss:] *)
Definition boss_truthy (b : option Rect) : bool :=
  match b with Some r => rect_truthy r | None => false end.

Definition set_heap (h : gmap Obj Rect) (g : Game) : Game := {| g with heap := h |}.

(** ** Primitives on objects *)

(** Reading an object's current value. *)
Definition deref (o : Obj) : PyM Rect := py_gets (fun g => heap g !!! o).

(** An in-place update [o.attr = f(o)] of a Rect object. *)
Definition rect_update (o : Obj) (f : Rect -> Rect) : PyM unit :=
  py_modify (fun g => set_heap (<[o := f (heap g !!! o)]> (heap g)) g).

(** [pygame.Rect(...)]: a fresh object. *)
Definition new_rect (r : Rect) : PyM Obj :=
  fun g => inr (next_obj g,
                {| g with heap := <[next_obj g := r]> (heap g);
                          next_obj := Pos.succ (next_obj g) |}).

(** [sound.play()]: recorded in the log. *)
Definition play (s : Sound) : PyM unit :=
  py_modify (fun g => {| g with sounds := s :: sounds g |}).

(** ** The three entity lists *)

Record ListField (K V : Type) `{EqDecision V} := {
  lf_get : Game -> list K;
  lf_set : list K -> Game -> Game;
  lf_obj : K -> Obj;
  lf_val : gmap Obj Rect -> K -> V;
  lf_get_set l g : lf_get (lf_set l g) = l;
  lf_set_get g : lf_set (lf_get g) g = g;
  lf_set_set l l' g : lf_set l' (lf_set l g) = lf_set l' g;
  lf_heap_set l g : heap (lf_set l g) = heap g;
  lf_get_heap h g : lf_get (set_heap h g) = lf_get g;
  lf_set_heap l h g : lf_set l (set_heap h g) = set_heap h (lf_set l g);
  lf_val_local h o r k : o <> lf_obj k -> lf_val (<[o := r]> h) k = lf_val h k;
}.
Arguments lf_get {_ _ _} _ _.
Arguments lf_set {_ _ _} _ _ _.
Arguments lf_obj {_ _ _} _ _.
Arguments lf_val {_ _ _} _ _ _.

(** [lst.remove(item)]: the first entry whose Python value equals the
    value of [item] now. *)
Definition lf_remove {K V} `{EqDecision V} (L : ListField K V) (k : K) : PyM unit :=
  fun g =>
    match py_remove (fun k' => bool_decide (lf_val L (heap g) k' = lf_val L (heap g) k))
                    (lf_get L g) with
    | Some l => inr (tt, lf_set L l g)
    | None => inl remove_error
    end.

(** [lst.append(item)] *)
Definition lf_append {K V} `{EqDecision V} (L : ListField K V) (k : K) : PyM unit :=
  py_modify (fun g => lf_set L (lf_get L g ++ [k]) g).

Definition pb_val (h : gmap Obj Rect) (b : PlayerBullet) : Rect * Z * Z :=
  (h !!! pb_rect b, b.1.2, b.2).

Local Ltac lf_law := intros; match goal with g : Game |- _ => destruct g end; reflexivity.

Definition PB : ListField PlayerBullet (Rect * Z * Z).
Proof.
  refine {| lf_get := player_bullets;
            lf_set := fun l g => {| g with player_bullets := l |};
            lf_obj := pb_rect; lf_val := pb_val |}; try lf_law.
  intros h o r k Hne. unfold pb_val. by rewrite lookup_total_insert_ne.
Defined.

Definition EB : ListField Obj Rect.
Proof.
  refine {| lf_get := enemy_bullets;
            lf_set := fun l g => {| g with enemy_bullets := l |};
            lf_obj := id; lf_val := fun h o => h !!! o |}; try lf_law.
  intros h o r k Hne. by rewrite lookup_total_insert_ne.
Defined.

Definition EN : ListField Obj Rect.
Proof.
  refine {| lf_get := enemies;
            lf_set := fun l g => {| g with enemies := l |};
            lf_obj := id; lf_val := fun h o => h !!! o |}; try lf_law.
  intros h o r k Hne. by rewrite lookup_total_insert_ne.
Defined.

(** ** The value view and the no-aliasing invariant *)

Definition lf_vals {K V} `{EqDecision V} (L : ListField K V) (g : Game) : list V :=
  map (lf_val L (heap g)) (lf_get L g).

Definition all_objs (g : Game) : list Obj :=
  map pb_rect (player_bullets g) ++ enemy_bullets g ++ enemies g.

Definition wf (g : Game) : Prop :=
  NoDup (all_objs g) /\ Forall (fun o => (o < next_obj g)%positive) (all_objs g).

(** The spec's game state: the same globals with every list entry replaced by
    its Python value; object identities, the heap and the allocation counter
    are forgotten.  The abstract specifications of the components are
    functions on [View]. *)
Record View := mkView {
  v_player : Rect;
  v_player_bullets : list (Rect * Z * Z);
  v_enemy_bullets : list Rect;
  v_enemies : list Rect;
  v_boss : option Rect;
  v_boss_health : Z;
  v_boss_stage : bool;
  v_score : Z;
  v_is_game_over : bool;
  v_in_start_menu : bool;
  v_running : bool;
  v_rng_n : nat;
  v_sounds : list Sound
}.

Definition view (g : Game) : View := {|
  v_player := player g;
  v_player_bullets := lf_vals PB g;
  v_enemy_bullets := lf_vals EB g;
  v_enemies := lf_vals EN g;
  v_boss := boss g; v_boss_health := boss_health g; v_boss_stage := boss_stage g;
  v_score := score g; v_is_game_over := is_game_over g;
  v_in_start_menu := in_start_menu g; v_running := running g;
  v_rng_n := rng_n g; v_sounds := sounds g |}.

Lemma set_heap_set_heap h h' g : set_heap h' (set_heap h g) = set_heap h' g.
Proof. by destruct g. Qed.

Lemma set_heap_id g : set_heap (heap g) g = g.
Proof. by destruct g. Qed.

Lemma heap_set_heap h g : heap (set_heap h g) = h.
Proof. by destruct g. Qed.

#[export] Hint Rewrite set_heap_set_heap heap_set_heap set_heap_id : py_rw.

(** Shrinking the lists and allocating keep the invariant. *)
Lemma wf_sublist g g' :
  wf g -> all_objs g' `sublist_of` all_objs g -> (next_obj g <= next_obj g')%positive ->
  wf g'.
Proof.
  intros [Hnd Hlt] Hsub Hnext. split; [by eapply sublist_NoDup|].
  eapply Forall_impl; [by eapply Forall_sublist_of|]. cbn. lia.
Qed.

(** The three lists hold pairwise different objects. *)
Lemma wf_disjoint g : wf g ->
  (forall b o, b ∈ player_bullets g -> o ∈ enemy_bullets g -> pb_rect b <> o) /\
  (forall b o, b ∈ player_bullets g -> o ∈ enemies g -> pb_rect b <> o) /\
  (forall o o', o ∈ enemy_bullets g -> o' ∈ enemies g -> o <> o').
Proof.
  intros [Hnd _]. unfold all_objs in Hnd. pose proof Hnd as Hnd'.
  apply NoDup_app in Hnd' as (_ & _ & Hnd2).
  split; [|split]; intros x y Hx Hy.
  - eapply (NoDup_app_ne _ _ _ _ Hnd); [by apply elem_of_map_in|]. set_solver.
  - eapply (NoDup_app_ne _ _ _ _ Hnd); [by apply elem_of_map_in|]. set_solver.
  - exact (NoDup_app_ne _ _ _ _ Hnd2 Hx Hy).
Qed.

Lemma wf_NoDup_lists g : wf g ->
  NoDup (map pb_rect (player_bullets g)) /\ NoDup (enemy_bullets g) /\ NoDup (enemies g).
Proof.
  intros [Hnd _]. unfold all_objs in Hnd.
  apply NoDup_app in Hnd as (H1 & _ & H2). apply NoDup_app in H2 as (H2 & _ & H3). done.
Qed.

(** [wf] as a test, for concrete states. *)
Definition wfb (g : Game) : bool :=
  bool_decide (NoDup (all_objs g)) && forallb (fun o => Pos.ltb o (next_obj g)) (all_objs g).

Lemma wfb_wf g : wfb g = true -> wf g.
Proof.
  unfold wfb. rewrite andb_true_iff, bool_decide_eq_true, forallb_forall.
  intros [Hnd Hlt]. split; [done|]. apply Forall_forall. intros o Ho.
  apply Pos.ltb_lt, Hlt. by apply list_elem_of_In.
Qed.

(** Allocating a fresh object and putting it in a list keeps the invariant:
    the new entry is the old allocation counter, above every live entry. *)
Lemma wf_fresh g g' :
  wf g -> all_objs g' ≡ₚ next_obj g :: all_objs g ->
  (next_obj g < next_obj g')%positive -> wf g'.
Proof.
  intros [Hnd Hlt] Hp Hn. split; rewrite Hp.
  - constructor; [|done]. intros Hin. eapply Forall_forall in Hlt; [|exact Hin]. lia.
  - constructor; [done|]. eapply Forall_impl; [exact Hlt|]. cbn. lia.
Qed.

(** [remove] raises only [ValueError], and otherwise only sets its list,
    one entry shorter. *)
Lemma lf_remove_cases {K V} `{EqDecision V} (L : ListField K V) k g :
  lf_remove L k g = inl remove_error \/
  exists l, lf_remove L k g = inr (tt, lf_set L l g) /\ length (lf_get L g) = S (length l).
Proof.
  unfold lf_remove. destruct (py_remove _ _) eqn:E; [right|by left].
  eexists. split; [done|]. by eapply py_remove_length.
Qed.

(** Every entry of the three lists was allocated before [next_obj]. *)
Lemma wf_allocated g : wf g ->
  Forall (fun o => (o < next_obj g)%positive) (map pb_rect (player_bullets g)) /\
  Forall (fun o => (o < next_obj g)%positive) (enemy_bullets g) /\
  Forall (fun o => (o < next_obj g)%positive) (enemies g).
Proof. intros [_ Hlt]. unfold all_objs in Hlt. by rewrite !Forall_app in Hlt. Qed.

(** Storing a fresh object does not change the value of an older entry. *)
Lemma lf_vals_fresh {K V} `{EqDecision V} (L : ListField K V) h n r ks :
  Forall (fun o => (o < n)%positive) (map (lf_obj L) ks) ->
  map (lf_val L (<[n := r]> h)) ks = map (lf_val L h) ks.
Proof.
  intros Hks. apply map_ext_in. intros k Hk. apply lf_val_local.
  apply (Forall_forall _ _) with (x := lf_obj L k) in Hks; [lia|].
  apply list_elem_of_In, in_map, Hk.
Qed.
