(* ===== verification/Motion.v ===== *)
(** The motion system: [move_bullets], [move_enemies], [move_boss] and
    [reset_boss] (game.py lines 92-121).

    Each list loop has the shape
<<
    for item in lst[:]:
        <mutate item's Rect in place>
        if <item's Rect out of the field>:
            lst.remove(item)
>>
    The section [SnapshotLoop] proves once, for any of the three lists
    ([ListField]), that such a loop never raises and leaves exactly the
    entries whose moved value stays in the field, in their order, with every
    entry's Rect moved once: on values it is [filter keep (map step xs)].
    This needs the no-aliasing invariant: [list.remove] searches by value,
    and the entry it finds is the item itself because every entry before it
    was kept (so is in the field) while the item is not.

    [move_boss_leaves]: a boss that is not destroyed descends one pixel per
    frame and is removed, with the boss stage reset, after exactly
    [HEIGHT - y + 1] moves.  [enemies_leave]: iterating the refinement,
    every enemy passes the bottom edge after enough moves. *)
From S2P Require Import Prelude Rect Game.

Section SnapshotLoop.
Context {K V : Type} `{EqDecision V} (L : ListField K V).
(** The in-place update of an item's Rect and the removal test. *)
Context (rstep : K -> Rect -> Rect) (drop : Rect -> bool).
(** The same two on the Python value of an item. *)
Context (vstep : V -> V) (dropv : V -> bool).
Context (body : K -> PyM unit).

Definition step_heap (k : K) (h : gmap Obj Rect) : gmap Obj Rect :=
  <[lf_obj L k := rstep k (h !!! lf_obj L k)]> h.

Hypothesis H_body : forall k g,
  body k g = if drop (step_heap k (heap g) !!! lf_obj L k)
             then lf_remove L k (set_heap (step_heap k (heap g)) g)
             else inr (tt, set_heap (step_heap k (heap g)) g).
Hypothesis H_vstep : forall h k, lf_val L (step_heap k h) k = vstep (lf_val L h k).
Hypothesis H_drop : forall h k, drop (h !!! lf_obj L k) = dropv (lf_val L h k).

Fixpoint heap_steps (ks : list K) (h : gmap Obj Rect) : gmap Obj Rect :=
  match ks with
  | [] => h
  | k :: ks' => heap_steps ks' (step_heap k h)
  end.

(** The loop's updates leave every object outside the loop alone. *)
Lemma heap_steps_other {K' V'} `{EqDecision V'} (L' : ListField K' V') ks h k' :
  Forall (fun k => lf_obj L k <> lf_obj L' k') ks ->
  lf_val L' (heap_steps ks h) k' = lf_val L' h k'.
Proof using Type.
  intros Hks. revert h. induction Hks as [|k ks Hk _ IH]; intros h; [done|].
  cbn. rewrite IH. unfold step_heap. by rewrite lf_val_local.
Qed.

Lemma heap_steps_in ks h k :
  NoDup (map (lf_obj L) ks) -> k ∈ ks ->
  lf_val L (heap_steps ks h) k = vstep (lf_val L h k).
Proof using H_vstep.
  revert h. induction ks as [|k0 ks IH]; intros h Hnd Hin; [by apply elem_of_nil in Hin|].
  cbn in Hnd |- *. apply NoDup_cons in Hnd as [Hk0 Hnd].
  apply elem_of_cons in Hin as [->|Hin].
  - rewrite heap_steps_other; [apply H_vstep|].
    apply Forall_forall. intros k' Hk' Heq. apply Hk0. rewrite <- Heq.
    by apply elem_of_map_in.
  - rewrite IH by done. unfold step_heap. rewrite lf_val_local; [done|].
    intros Heq. apply Hk0. rewrite Heq. by apply elem_of_map_in.
Qed.

Definition keeps (h : gmap Obj Rect) (k : K) : bool := negb (dropv (vstep (lf_val L h k))).

Lemma keeps_step_other h k ks :
  Forall (fun k' => lf_obj L k <> lf_obj L k') ks ->
  List.filter (keeps (step_heap k h)) ks = List.filter (keeps h) ks.
Proof using Type.
  intros Hks. apply filter_ext_in. intros k' Hk'. unfold keeps, step_heap.
  rewrite lf_val_local; [done|]. eapply Forall_forall in Hks; [exact Hks|].
  by apply list_elem_of_In.
Qed.

(** The loop over [todo], when [done] (already visited, all kept) precedes
    it in the list. *)
Lemma snapshot_loop done todo g :
  lf_get L g = done ++ todo ->
  NoDup (map (lf_obj L) (done ++ todo)) ->
  Forall (fun k => dropv (lf_val L (heap g) k) = false) done ->
  py_for todo body g =
    inr (tt, lf_set L (done ++ List.filter (keeps (heap g)) todo)
               (set_heap (heap_steps todo (heap g)) g)).
Proof.
  revert done g. induction todo as [|k todo IH]; intros done g Hl Hnd Hdone.
  { cbn [py_for List.filter heap_steps py_ret]. rewrite app_nil_r in Hl |- *. by rewrite <- Hl, set_heap_id, lf_set_get. }
  assert (Hdis : Forall (fun k' => lf_obj L k <> lf_obj L k') (done ++ todo)).
  { rewrite map_app in Hnd. cbn in Hnd. apply NoDup_app in Hnd as (_ & Hd & Hnd').
    apply NoDup_cons in Hnd' as [Hk _]. apply Forall_forall. intros k' Hk' Heq.
    apply elem_of_app in Hk' as [Hk'|Hk'].
    - apply (Hd (lf_obj L k')); [by apply elem_of_map_in|].
      rewrite <- Heq. apply elem_of_cons. by left.
    - apply Hk. rewrite Heq. by apply elem_of_map_in. }
  apply Forall_app in Hdis as [Hdis_done Hdis_todo].
  assert (Hdone' : Forall (fun k' => dropv (lf_val L (step_heap k (heap g)) k') = false) done).
  { eapply Forall_impl; [apply Forall_and; exact (conj Hdone Hdis_done)|].
    intros k' [Hk' Hne]. unfold step_heap. by rewrite lf_val_local. }
  cbn [py_for]. unfold py_bind at 1. rewrite H_body, H_drop, H_vstep.
  cbn [List.filter heap_steps]. unfold keeps at 1. rewrite <- keeps_step_other with (k := k) by done.
  destruct (dropv (vstep (lf_val L (heap g) k))) eqn:Hdrop; cbn [negb].
  - (* out of the field: [remove] finds the item itself *)
    unfold lf_remove. rewrite lf_get_heap, heap_set_heap, Hl.
    rewrite py_remove_app_first; [| |by apply bool_decide_eq_true].
    2:{ eapply Forall_impl; [exact Hdone'|]. intros k' Hk'.
        cbv beta in Hk'. apply bool_decide_eq_false. intros Heq. rewrite Heq, H_vstep in Hk'. congruence. }
    rewrite IH with (done := done).
    + by rewrite lf_heap_set, heap_set_heap, <- lf_set_heap, set_heap_set_heap,
          lf_set_set.
    + by rewrite lf_get_set.
    + rewrite map_app in Hnd |- *. cbn in Hnd. by apply NoDup_remove_mid in Hnd.
    + by rewrite lf_heap_set, heap_set_heap.
  - (* in the field: the item stays *)
    rewrite IH with (done := done ++ [k]).
    + rewrite heap_set_heap, set_heap_set_heap, <- app_assoc. done.
    + by rewrite lf_get_heap, Hl, <- app_assoc.
    + by rewrite <- app_assoc.
    + rewrite heap_set_heap. apply Forall_app. split; [done|].
      constructor; [|done]. rewrite H_vstep. by destruct (dropv _).
Qed.
(** The values the loop leaves: [filter keep (map step xs)]. *)
Lemma snapshot_vals ks h :
  NoDup (map (lf_obj L) ks) ->
  map (lf_val L (heap_steps ks h)) (List.filter (keeps h) ks) =
    List.filter (fun v => negb (dropv v)) (map (fun k => vstep (lf_val L h k)) ks).
Proof using H_vstep.
  intros Hnd. rewrite filter_map_swap. apply map_ext_in. intros k Hk.
  apply heap_steps_in; [done|]. apply list_elem_of_In.
  by apply filter_In in Hk as [Hk _].
Qed.

Lemma heap_steps_other_map {K' V'} `{EqDecision V'} (L' : ListField K' V') ks h l :
  (forall k k', k ∈ ks -> k' ∈ l -> lf_obj L k <> lf_obj L' k') ->
  map (lf_val L' (heap_steps ks h)) l = map (lf_val L' h) l.
Proof using Type.
  intros Hdis. apply map_ext_in. intros k' Hk'. apply heap_steps_other.
  apply Forall_forall. intros k Hk. apply Hdis; [done|]. by apply list_elem_of_In.
Qed.
End SnapshotLoop.

(** ** The code (game.py lines 92-121) *)

(** One iteration of the first loop of [move_bullets] (lines 93-98). *)
Definition move_player_bullet (bullet : PlayerBullet) : PyM unit :=
  let '(rect, dir_x, dir_y) := bullet in
  rect_update rect (fun r => set_x r (rx r + dir_x)) ;;
  rect_update rect (fun r => set_y r (ry r + dir_y)) ;;
  r <- deref rect ;;
  py_when ((ry r <? 0) || (rx r <? 0) || (WIDTH <? rx r)) (lf_remove PB bullet).

(** One iteration of the second loop of [move_bullets] (lines 100-103). *)
Definition move_enemy_bullet (bullet : Obj) : PyM unit :=
  rect_update bullet (fun r => set_y r (ry r + 5)) ;;
  r <- deref bullet ;;
  py_when (HEIGHT <? ry r) (lf_remove EB bullet).

Definition move_bullets : PyM unit :=
  pbs <- py_gets player_bullets ;;
  py_for pbs move_player_bullet ;;
  ebs <- py_gets enemy_bullets ;;
  py_for ebs move_enemy_bullet.

(** One iteration of [move_enemies] (lines 106-109). *)
Definition move_enemy (enemy : Obj) : PyM unit :=
  rect_update enemy (fun r => set_y r (ry r + 2)) ;;
  r <- deref enemy ;;
  py_when (HEIGHT <? ry r) (lf_remove EN enemy).

Definition move_enemies : PyM unit :=
  es <- py_gets enemies ;;
  py_for es move_enemy.

Definition reset_boss : PyM unit :=
  py_modify (fun g => {| g with boss := None; boss_health := 20; boss_stage := false |}).

Definition boss_below (b : option Rect) : bool :=
  match b with Some r => HEIGHT <? ry r | None => false end.

Definition move_boss : PyM unit :=
  b <- py_gets boss ;;
  py_when (boss_truthy b) (
    py_modify (fun g => {| g with boss := option_map (fun r => set_y r (ry r + 1)) (boss g) |}) ;;
    b' <- py_gets boss ;;
    py_when (boss_below b') reset_boss).

(** ** The abstract specification, on values *)

(** A player bullet's move: [rect.x += dir_x; rect.y += dir_y]. *)
Definition bullet_step (v : Rect * Z * Z) : Rect * Z * Z :=
  let '(r, dx, dy) := v in (set_y (set_x r (rx r + dx)) (ry r + dy), dx, dy).

Definition off_field (r : Rect) : bool := (ry r <? 0) || (rx r <? 0) || (WIDTH <? rx r).
Definition below_field (r : Rect) : bool := HEIGHT <? ry r.
Definition fall (d : Z) (r : Rect) : Rect := set_y r (ry r + d).

Definition move_bullets_spec (v : View) : View :=
  {| v with
     v_player_bullets :=
       List.filter (fun b => negb (off_field b.1.1)) (map bullet_step (v_player_bullets v));
     v_enemy_bullets :=
       List.filter (fun r => negb (below_field r)) (map (fall 5) (v_enemy_bullets v)) |}.

Definition move_enemies_spec (v : View) : View :=
  {| v with v_enemies :=
       List.filter (fun r => negb (below_field r)) (map (fall 2) (v_enemies v)) |}.

(** ** Each loop body is an instance of [SnapshotLoop] *)


Definition pb_move (b : PlayerBullet) (r : Rect) : Rect := (bullet_step (r, b.1.2, b.2)).1.1.

Local Ltac body_eq :=
  unfold rect_update, deref, step_heap, py_when;
  cbn [py_bind py_modify py_gets lf_obj PB EB EN pb_rect fst snd id];
  rewrite ?heap_set_heap, ?set_heap_set_heap, !lookup_total_insert_eq, ?insert_insert_eq;
  unfold off_field, below_field, pb_move, bullet_step, fall; cbn;
  match goal with |- context [if ?c then _ else _] => destruct c end; reflexivity.

Lemma move_player_bullet_eq b g :
  move_player_bullet b g =
    if off_field (step_heap PB pb_move b (heap g) !!! lf_obj PB b)
    then lf_remove PB b (set_heap (step_heap PB pb_move b (heap g)) g)
    else inr (tt, set_heap (step_heap PB pb_move b (heap g)) g).
Proof.
  destruct b as [[o dx] dy]. unfold move_player_bullet. body_eq.
Qed.

Lemma move_enemy_bullet_eq o g :
  move_enemy_bullet o g =
    if below_field (step_heap EB (fun _ => fall 5) o (heap g) !!! lf_obj EB o)
    then lf_remove EB o (set_heap (step_heap EB (fun _ => fall 5) o (heap g)) g)
    else inr (tt, set_heap (step_heap EB (fun _ => fall 5) o (heap g)) g).
Proof. unfold move_enemy_bullet. body_eq. Qed.

Lemma move_enemy_eq o g :
  move_enemy o g =
    if below_field (step_heap EN (fun _ => fall 2) o (heap g) !!! lf_obj EN o)
    then lf_remove EN o (set_heap (step_heap EN (fun _ => fall 2) o (heap g)) g)
    else inr (tt, set_heap (step_heap EN (fun _ => fall 2) o (heap g)) g).
Proof. unfold move_enemy. body_eq. Qed.

Lemma pb_vstep h b : lf_val PB (step_heap PB pb_move b h) b = bullet_step (lf_val PB h b).
Proof.
  destruct b as [[o dx] dy]. cbn. unfold pb_val, step_heap. cbn.
  by rewrite lookup_total_insert_eq.
Qed.

Lemma eb_vstep h o : lf_val EB (step_heap EB (fun _ => fall 5) o h) o = fall 5 (lf_val EB h o).
Proof. unfold step_heap. cbn. by rewrite lookup_total_insert_eq. Qed.

Lemma en_vstep h o : lf_val EN (step_heap EN (fun _ => fall 2) o h) o = fall 2 (lf_val EN h o).
Proof. unfold step_heap. cbn. by rewrite lookup_total_insert_eq. Qed.

(** ** Refinement *)

(** The loop of [move_enemies] as an instance of [snapshot_loop]. *)
Lemma move_enemies_correct g :
  wf g ->
  exists g', move_enemies g = inr (tt, g') /\ wf g' /\
             view g' = move_enemies_spec (view g).
Proof.
  intros Hwf. destruct (wf_disjoint g Hwf) as (Hpe & Hpn & Hen).
  destruct (wf_NoDup_lists g Hwf) as (_ & _ & Hndn).
  unfold move_enemies. py_simpl.
  erewrite (snapshot_loop EN (fun _ => fall 2) below_field (fall 2) below_field move_enemy
              move_enemy_eq en_vstep (fun _ _ => eq_refl) [] (enemies g) g);
    [|done|by rewrite map_id|done].
  eexists. split; [reflexivity|]. split.
  - eapply wf_sublist; [exact Hwf| |done]. destruct g; cbn.
    unfold all_objs; cbn. apply sublist_app; [done|]. apply sublist_app; [done|].
    apply filter_sublist.
  - destruct g as [h ? ? pbs ebs ens]; unfold view, move_enemies_spec, lf_vals; cbn in *.
    f_equal.
    + apply (heap_steps_other_map EN (fun _ => fall 2) PB). intros k k' Hk Hk'.
      cbn. intros Heq. exact (Hpn k' k Hk' Hk (eq_sym Heq)).
    + apply (heap_steps_other_map EN (fun _ => fall 2) EB). intros k k' Hk Hk'.
      cbn. intros Heq. exact (Hen k' k Hk' Hk (eq_sym Heq)).
    + rewrite map_map. apply (snapshot_vals EN (fun _ => fall 2) (fall 2) below_field en_vstep).
      by rewrite map_id.
Qed.

(** C3: [move_enemies] never raises on a state without aliasing; it keeps the
    invariant, and on values it moves every enemy down by 2 and drops those
    below the bottom edge, keeping the others in order; everything else is
    unchanged. *)
Theorem move_enemies_refines g :
  wf g ->
  exists g', move_enemies g = inr (tt, g') /\ wf g' /\
             view g' = move_enemies_spec (view g).
Proof. exact (move_enemies_correct g). Qed.

Lemma elem_of_filter_in {A} (p : A -> bool) x l : x ∈ List.filter p l -> x ∈ l.
Proof. rewrite !list_elem_of_In, filter_In. tauto. Qed.

(** The two loops of [move_bullets] as instances of [snapshot_loop]. *)
Lemma move_bullets_correct g :
  wf g ->
  exists g', move_bullets g = inr (tt, g') /\ wf g' /\
             view g' = move_bullets_spec (view g).
Proof.
  intros Hwf. destruct (wf_disjoint g Hwf) as (Hpe & Hpn & Hen).
  destruct (wf_NoDup_lists g Hwf) as (Hndp & Hnde & _).
  unfold move_bullets. py_simpl.
  erewrite py_bind_inr;
    [|apply (snapshot_loop PB pb_move off_field bullet_step (fun b => off_field b.1.1)
               move_player_bullet move_player_bullet_eq pb_vstep (fun _ _ => eq_refl)
               [] (player_bullets g) g); done].
  py_simpl.
  erewrite (snapshot_loop EB (fun _ => fall 5) below_field (fall 5) below_field
              move_enemy_bullet move_enemy_bullet_eq eb_vstep (fun _ _ => eq_refl) []);
    [|by destruct g|by destruct g; rewrite map_id|done].
  eexists. split; [reflexivity|]. split.
  - eapply wf_sublist; [exact Hwf| |done]. destruct g; unfold all_objs; cbn.
    apply sublist_app; [by apply map_sublist, filter_sublist|].
    apply sublist_app; [apply filter_sublist|done].
  - destruct g as [h ? ? pbs ebs ens]; unfold view, move_bullets_spec, lf_vals; cbn in *.
    f_equal.
    + rewrite (heap_steps_other_map EB (fun _ => fall 5) PB).
      * rewrite map_map. apply (snapshot_vals PB pb_move bullet_step (fun b => off_field b.1.1)
                                  pb_vstep). done.
      * intros k k' Hk Hk'%elem_of_filter_in. cbn. intros Heq.
        exact (Hpe k' k Hk' Hk (eq_sym Heq)).
    + rewrite map_map.
      etransitivity;
        [apply (snapshot_vals EB (fun _ => fall 5) (fall 5) below_field eb_vstep); by rewrite map_id|].
      f_equal. apply map_ext_in. intros o Ho. f_equal.
      apply (heap_steps_other PB pb_move EB). apply Forall_forall. intros b Hb.
      cbn. apply Hpe; [done|]. by apply list_elem_of_In.
    + etransitivity; [apply (heap_steps_other_map EB (fun _ => fall 5) EN)|].
      * intros k k' Hk Hk'. cbn. by apply Hen.
      * apply (heap_steps_other_map PB pb_move EN). intros k k' Hk Hk'.
        cbn. by apply Hpn.
Qed.

(** C4: [move_bullets] never raises on a state without aliasing; it keeps
    the invariant, and on values it moves every player bullet by its
    direction and drops those above the top or beyond the left or right
    edge, then moves every enemy bullet down by 5 and drops those below the
    bottom edge; everything else is unchanged. *)
Theorem move_bullets_refines g :
  wf g ->
  exists g', move_bullets g = inr (tt, g') /\ wf g' /\
             view g' = move_bullets_spec (view g).
Proof. exact (move_bullets_correct g). Qed.

(** A state with two player bullets (one leaving the field through the
    top), two enemy bullets (one leaving through the bottom) and two enemies
    (one leaving through the bottom). *)
Definition motion_sample : Game := {|
  heap := <[1%positive := mkRect 100 3 5 5]> (<[2%positive := mkRect 200 300 5 5]>
          (<[3%positive := mkRect 50 766 5 5]> (<[4%positive := mkRect 60 100 5 5]>
          (<[5%positive := mkRect 10 767 30 30]> (<[6%positive := mkRect 400 20 30 30]> ∅)))));
  next_obj := 7%positive; player := start_player;
  player_bullets := [(1%positive, 0, -10); (2%positive, 0, -10)];
  enemy_bullets := [3%positive; 4%positive]; enemies := [5%positive; 6%positive];
  boss := None; boss_health := 20; boss_stage := false; score := 0;
  is_game_over := false; in_start_menu := false; running := true;
  rng_n := 0; sounds := [] |}.

Lemma move_enemies_refines_witness :
  wf motion_sample /\
  exists g', move_enemies motion_sample = inr (tt, g') /\ wf g' /\
             view g' = move_enemies_spec (view motion_sample).
Proof.
  assert (H : wf motion_sample) by (apply wfb_wf; vm_compute; reflexivity).
  split; [exact H|]. exact (move_enemies_refines motion_sample H).
Defined.

Lemma move_bullets_refines_witness :
  wf motion_sample /\
  exists g', move_bullets motion_sample = inr (tt, g') /\ wf g' /\
             view g' = move_bullets_spec (view motion_sample).
Proof.
  assert (H : wf motion_sample) by (apply wfb_wf; vm_compute; reflexivity).
  split; [exact H|]. exact (move_bullets_refines motion_sample H).
Defined.

(** On the sample, the specification keeps one bullet of each kind and one
    enemy, moved. *)
Example move_sample_values :
  v_player_bullets (move_bullets_spec (view motion_sample)) = [(mkRect 200 290 5 5, 0, -10)] /\
  v_enemy_bullets (move_bullets_spec (view motion_sample)) = [mkRect 60 105 5 5] /\
  v_enemies (move_enemies_spec (view motion_sample)) = [mkRect 400 22 30 30].
Proof. vm_compute. auto. Qed.

(** ** The boss's descent *)

Lemma move_boss_down g r :
  boss g = Some r -> rect_truthy r = true -> ry r + 1 <= HEIGHT ->
  move_boss g = inr (tt, {| g with boss := Some (set_y r (ry r + 1)) |}).
Proof.
  intros Hb Ht Hy. unfold move_boss. py_simpl. rewrite Hb. cbn. rewrite Ht. cbn.
  rewrite Hb. cbn. replace (HEIGHT <? ry r + 1) with false by lia. by destruct g.
Qed.

Lemma move_boss_out g r :
  boss g = Some r -> rect_truthy r = true -> HEIGHT < ry r + 1 ->
  move_boss g = inr (tt, {| g with boss := None; boss_health := 20; boss_stage := false |}).
Proof.
  intros Hb Ht Hy. unfold move_boss. py_simpl. rewrite Hb. cbn. rewrite Ht. cbn.
  rewrite Hb. cbn. replace (HEIGHT <? ry r + 1) with true by lia. by destruct g.
Qed.

Lemma move_boss_descends k g r :
  boss g = Some r -> rect_truthy r = true -> ry r + Z.of_nat k <= HEIGHT ->
  py_repeat k move_boss g = inr (tt, {| g with boss := Some (set_y r (ry r + Z.of_nat k)) |}).
Proof.
  revert g r. induction k as [|k IH]; intros g r Hb Ht Hy; cbn [py_repeat].
  { replace (ry r + Z.of_nat 0) with (ry r) by lia. destruct g, r; cbn in *; by subst. }
  rewrite (py_bind_inr _ _ _ _ _ (move_boss_down g r Hb Ht ltac:(lia))).
  rewrite (IH _ (set_y r (ry r + 1))); [|done|done|cbn; lia].
  assert (Hr : set_y (set_y r (ry r + 1)) (ry (set_y r (ry r + 1)) + Z.of_nat k) =
                set_y r (ry r + Z.of_nat (Datatypes.S k))) by (destruct r; unfold set_y; cbn; f_equal; lia).
  rewrite <- Hr. by destruct g.
Qed.

(** C24: a truthy boss at height [y <= HEIGHT] descends by one pixel per
    call of [move_boss]: after [k <= HEIGHT - y] calls it is at [y + k],
    and the next call removes it and resets the boss stage (health 20,
    [boss_stage] off), so the boss stage always ends after
    [HEIGHT - y + 1] frames unless the boss is destroyed. *)
Theorem move_boss_leaves g r :
  boss g = Some r -> rect_truthy r = true -> ry r <= HEIGHT ->
  (forall k, Z.of_nat k <= HEIGHT - ry r ->
     py_repeat k move_boss g = inr (tt, {| g with boss := Some (set_y r (ry r + Z.of_nat k)) |})) /\
  py_repeat (Z.to_nat (HEIGHT - ry r + 1)) move_boss g =
    inr (tt, {| g with boss := None; boss_health := 20; boss_stage := false |}).
Proof.
  intros Hb Ht Hy. split; [intros k Hk; apply move_boss_descends; auto; lia|].
  replace (Z.to_nat (HEIGHT - ry r + 1)) with (Z.to_nat (HEIGHT - ry r) + 1)%nat by lia.
  rewrite py_repeat_add, (py_bind_inr _ _ _ _ _ (move_boss_descends (Z.to_nat (HEIGHT - ry r)) g r Hb Ht ltac:(lia))).
  cbn [py_repeat]. rewrite (py_bind_inr _ _ _ _ _ (move_boss_out {| g with boss := Some (set_y r (ry r + Z.of_nat (Z.to_nat (HEIGHT - ry r)))) |} (set_y r (ry r + Z.of_nat (Z.to_nat (HEIGHT - ry r)))) eq_refl Ht ltac:(unfold set_y; cbn; lia))).
  by destruct g.
Qed.

(** A boss just spawned: 869 frames to leave the field. *)
Lemma move_boss_leaves_witness :
  let g := {| motion_sample with boss := Some (mkRect 500 (-100) BOSS_SIZE BOSS_SIZE);
                                 boss_stage := true |} in
  boss g = Some (mkRect 500 (-100) BOSS_SIZE BOSS_SIZE) /\
  py_repeat 868 move_boss g =
    inr (tt, {| g with boss := Some (mkRect 500 768 BOSS_SIZE BOSS_SIZE) |}) /\
  py_repeat 869 move_boss g =
    inr (tt, {| g with boss := None; boss_health := 20; boss_stage := false |}).
Proof.
  intros g. split; [reflexivity|].
  destruct (move_boss_leaves g (mkRect 500 (-100) BOSS_SIZE BOSS_SIZE)) as [H1 H2];
    [reflexivity|reflexivity|unfold HEIGHT; cbn; lia|].
  split; [exact (H1 868%nat ltac:(unfold HEIGHT; cbn; lia))|exact H2].
Defined.

(** ** Every enemy leaves the field *)

Lemma move_enemies_iter k g :
  wf g ->
  exists g', py_repeat k move_enemies g = inr (tt, g') /\ wf g' /\
             view g' = Nat.iter k move_enemies_spec (view g).
Proof.
  revert g. induction k as [|k IH]; intros g Hwf; cbn [py_repeat].
  { exists g. done. }
  destruct (move_enemies_correct g Hwf) as (g1 & E1 & Hwf1 & Hv1).
  destruct (IH g1 Hwf1) as (g' & E' & Hwf' & Hv').
  exists g'. split; [by rewrite (py_bind_inr _ _ _ _ _ E1)|]. split; [done|].
  rewrite Hv', Hv1. symmetry. apply Nat.iter_succ_r.
Qed.

Lemma enemies_spec_step v r' :
  r' ∈ v_enemies (move_enemies_spec v) ->
  exists r, r ∈ v_enemies v /\ r' = fall 2 r /\ ry r' <= HEIGHT.
Proof.
  cbn. rewrite list_elem_of_In, filter_In, in_map_iff.
  intros [(r & <- & Hr) Hb]. exists r. split; [by apply list_elem_of_In|]. split; [done|].
  unfold below_field in Hb. apply negb_true_iff, Z.ltb_ge in Hb. exact Hb.
Qed.

Lemma fall_fall a b r : fall a (fall b r) = fall (b + a) r.
Proof. destruct r. unfold fall, set_y. cbn. f_equal. lia. Qed.

(** After [k >= 1] moves, every enemy left is an enemy of the start moved
    down by [2 k], and above the bottom edge. *)
Lemma enemies_spec_iter k v r' :
  r' ∈ v_enemies (Nat.iter (S k) move_enemies_spec v) ->
  exists r, r ∈ v_enemies v /\ r' = fall (2 * Z.of_nat (S k)) r /\ ry r' <= HEIGHT.
Proof.
  revert r'. induction k as [|k IH]; intros r' Hr'.
  - destruct (enemies_spec_step _ _ Hr') as (r & Hr & -> & Hy). by exists r.
  - rewrite Nat.iter_succ in Hr'.
    destruct (enemies_spec_step _ _ Hr') as (r1 & Hr1 & -> & Hy).
    destruct (IH r1 Hr1) as (r & Hr & -> & _). exists r. split; [done|]. split; [|done].
    rewrite fall_fall. f_equal. lia.
Qed.

(** C25: an enemy that is not destroyed leaves the field: if every enemy
    of a state without aliasing is within [2 k] pixels of passing the
    bottom edge, [k >= 1] calls of [move_enemies] never raise and leave no
    enemy.  In particular every enemy is gone [HEIGHT / 2 + 1] frames
    after it was spawned at y = 0, unless a bullet destroyed it earlier. *)
Theorem enemies_leave k g :
  wf g -> (1 <= k)%nat ->
  Forall (fun r => HEIGHT < ry r + 2 * Z.of_nat k) (v_enemies (view g)) ->
  exists g', py_repeat k move_enemies g = inr (tt, g') /\ enemies g' = [].
Proof.
  intros Hwf Hk Hall. destruct (move_enemies_iter k g Hwf) as (g' & E & _ & Hv).
  exists g'. split; [done|]. destruct (enemies g') as [|o os] eqn:Hen; [done|exfalso].
  destruct k as [|k]; [lia|].
  assert (Hin : heap g' !!! o ∈ v_enemies (view g'))
    by (cbn; unfold lf_vals; cbn; rewrite Hen; left).
  rewrite Hv in Hin. destruct (enemies_spec_iter k _ _ Hin) as (r & Hr & Heq & Hy).
  eapply Forall_forall in Hall; [|exact Hr]. rewrite Heq in Hy. unfold fall, set_y in Hy. cbn in Hy.
  lia.
Qed.

Lemma enemies_leave_witness :
  wf motion_sample /\ (1 <= 385)%nat /\
  Forall (fun r => HEIGHT < ry r + 2 * Z.of_nat 385) (v_enemies (view motion_sample)) /\
  exists g', py_repeat 385 move_enemies motion_sample = inr (tt, g') /\ enemies g' = [].
Proof.
  assert (H : wf motion_sample) by (apply wfb_wf; vm_compute; reflexivity).
  assert (Hall : Forall (fun r => HEIGHT < ry r + 2 * Z.of_nat 385) (v_enemies (view motion_sample)))
    by (vm_compute; repeat constructor).
  split; [exact H|]. split; [lia|]. split; [exact Hall|].
  exact (enemies_leave 385 motion_sample H ltac:(lia) Hall).
Defined.
