(* ===== verification/Collision.v ===== *)
(** The collision system: [check_collisions] (game.py lines 123-158).

    The pass has four parts: every player bullet (over a copy of the list)
    against every enemy (over a fresh copy for each bullet) and then against
    the boss; every enemy bullet, every enemy and the boss against the
    player.  Nothing is moved here, so the heap of Rect objects is constant
    during the pass; the lists shrink, the score grows, the flag
    [is_game_over] is set.

    Two behaviours of the code are not what the spec describes:
    - the name [boss_hit_sound] (line 139) is never defined, so a bullet that
      reaches the boss raises [NameError] after the bullet was removed and
      the health decremented: the boss can never be damaged without ending
      the program ([check_collisions_boss_hit_raises]);
    - the inner loop does not stop after a hit: a bullet that overlaps a
      second enemy is removed again, which raises [ValueError] when no
      other bullet of equal value is left ([check_collisions_double_hit]).

    Also proved: the player-hit half sets [is_game_over] exactly on an
    overlap with the player ([check_player_hit_correct]); and whenever the
    pass returns, it removed as many bullets as enemies and added 10 points
    per enemy ([check_collisions_kills]). *)
From S2P Require Import Prelude Rect Game Motion.

(** ** The code *)

(** Lines 130-134: one bullet against one enemy of the copy. *)
Definition bullet_hits_enemy (bullet : PlayerBullet) (enemy : Obj) : PyM unit :=
  rect <- deref (pb_rect bullet) ;;
  e <- deref enemy ;;
  py_when (colliderect rect e) (
    lf_remove PB bullet ;;
    lf_remove EN enemy ;;
    py_modify (fun g => {| g with score := score g + 10 |}) ;;
    play enemy_hit_sound).

(** [boss and r.colliderect(boss)], with Python's short-circuit [and]. *)
Definition boss_collides (b : option Rect) (r : Rect) : bool :=
  match b with Some br => rect_truthy br && colliderect r br | None => false end.

(** Lines 136-142.  Evaluating [boss_hit_sound] raises [NameError]; the
    lines after it are kept as written and never run. *)
Definition bullet_hits_boss (bullet : PlayerBullet) : PyM unit :=
  rect <- deref (pb_rect bullet) ;;
  b <- py_gets boss ;;
  py_when (boss_collides b rect) (
    lf_remove PB bullet ;;
    py_modify (fun g => {| g with boss_health := boss_health g - 1 |}) ;;
    (py_raise (NameError "boss_hit_sound") : PyM unit) ;;
    bh <- py_gets boss_health ;;
    py_when (bh <=? 0) (
      reset_boss ;;
      py_modify (fun g => {| g with score := score g + 100 |}))).

(** Lines 127-142: the body of the outer loop. *)
Definition check_bullet (bullet : PlayerBullet) : PyM unit :=
  es <- py_gets enemies ;;
  py_for es (bullet_hits_enemy bullet) ;;
  bullet_hits_boss bullet.

(** [is_game_over = True; game_over_sound.play()] *)
Definition game_over : PyM unit :=
  py_modify (fun g => {| g with is_game_over := true |}) ;;
  play game_over_sound.

(** Lines 126-142: the player bullets against the enemies and the boss. *)
Definition check_player_bullets : PyM unit :=
  pbs <- py_gets player_bullets ;;
  py_for pbs check_bullet.

(** Lines 144-158: the enemy bullets, the enemies and the boss against the
    player. *)
Definition check_player_hit : PyM unit :=
  ebs <- py_gets enemy_bullets ;;
  py_for ebs (fun bullet =>
    b <- deref bullet ;;
    p <- py_gets player ;;
    py_when (colliderect b p) game_over) ;;
  es <- py_gets enemies ;;
  py_for es (fun enemy =>
    p <- py_gets player ;;
    e <- deref enemy ;;
    py_when (colliderect p e) game_over) ;;
  b <- py_gets boss ;;
  p <- py_gets player ;;
  py_when (boss_collides b p) game_over.

Definition check_collisions : PyM unit :=
  check_player_bullets ;;
  check_player_hit.

(** ** What the bullet pass leaves alone *)

(** The heap, the boss and the player are not changed by the bullet pass. *)
Definition frozen (g g' : Game) : Prop :=
  heap g' = heap g /\ boss g' = boss g /\ player g' = player g.

#[export] Instance frozen_preorder : PreOrder frozen.
Proof.
  split; [by intros g | intros g1 g2 g3 (? & ? & ?) (? & ? & ?); split_and!; congruence].
Qed.

(** The only exceptions the pass can raise. *)
Definition collision_exc (e : PyExc) : Prop :=
  e = remove_error \/ e = NameError "boss_hit_sound".

Lemma guar_lf_remove_PB b : py_guar frozen collision_exc (lf_remove PB b).
Proof. intros g. unfold lf_remove. destruct (py_remove _ _); [by destruct g|by left]. Qed.

Lemma guar_lf_remove_EN o : py_guar frozen collision_exc (lf_remove EN o).
Proof. intros g. unfold lf_remove. destruct (py_remove _ _); [by destruct g|by left]. Qed.

Lemma guar_deref {E} o : py_guar frozen E (deref o).
Proof. apply guar_gets; apply _. Qed.

Lemma guar_play {E} s : py_guar frozen E (play s).
Proof. apply guar_modify. by intros []. Qed.

#[local] Hint Resolve guar_lf_remove_PB guar_lf_remove_EN guar_deref guar_play : guar.
#[local] Hint Extern 1 (py_guar frozen _ (py_modify _)) =>
  apply guar_modify; intros []; repeat split : guar.
#[local] Hint Extern 0 (collision_exc _) => right; reflexivity : guar.

Lemma check_bullet_frozen b : py_guar frozen collision_exc (check_bullet b).
Proof. unfold check_bullet, bullet_hits_enemy, bullet_hits_boss. guar_auto. Qed.

Lemma enemy_loop_frozen b es :
  py_guar frozen collision_exc (py_for es (bullet_hits_enemy b)).
Proof. unfold bullet_hits_enemy. guar_auto. Qed.

Lemma bullet_loop_frozen pbs : py_guar frozen collision_exc (py_for pbs check_bullet).
Proof. apply guar_for; [apply _|exact check_bullet_frozen]. Qed.

(** A bullet that overlaps the boss when its turn comes ends the pass. *)
Lemma bullet_hits_boss_raises b g :
  boss_collides (boss g) (heap g !!! pb_rect b) = true ->
  exists e, collision_exc e /\ bullet_hits_boss b g = inl e.
Proof.
  intros Hhit. unfold bullet_hits_boss, deref. py_simpl. rewrite Hhit. cbn.
  unfold py_bind at 1. unfold lf_remove. destruct (py_remove _ _).
  - eexists. split; [right|]; reflexivity.
  - eexists. split; [left|]; reflexivity.
Qed.

(** C1: whenever a player bullet overlaps a (truthy) boss at the start of
    [check_collisions], the pass raises: [NameError] for the undefined
    [boss_hit_sound], or [ValueError] when the bullet was already removed
    by an enemy hit.  So the boss can never lose health in a run that goes
    on, and the boss-kill bonus of the spec is unreachable. *)
Theorem check_collisions_boss_hit_raises g b :
  b ∈ player_bullets g ->
  boss_collides (boss g) (heap g !!! pb_rect b) = true ->
  check_collisions g = inl remove_error \/
  check_collisions g = inl (NameError "boss_hit_sound").
Proof.
  intros Hb Hhit. apply list_elem_of_split in Hb as (l1 & l2 & Hl).
  enough (exists e, collision_exc e /\ py_for (player_bullets g) check_bullet g = inl e)
    as (e & [-> | ->] & He).
  { left. unfold check_collisions, check_player_bullets.
    rewrite py_bind_assoc, py_bind_gets. by rewrite (py_bind_inl _ _ _ _ He). }
  { right. unfold check_collisions, check_player_bullets.
    rewrite py_bind_assoc, py_bind_gets. by rewrite (py_bind_inl _ _ _ _ He). }
  rewrite Hl, py_for_app. unfold py_bind at 1.
  destruct (py_for l1 check_bullet g) as [e|[[] g1]] eqn:E1.
  { exists e. split; [|done]. eapply (guar_exc frozen); [apply bullet_loop_frozen|exact E1]. }
  pose proof (guar_run _ _ _ _ _ _ (bullet_loop_frozen l1) E1) as (Hh1 & Hb1 & _).
  cbn [py_for]. unfold py_bind at 1, check_bullet. py_simpl. unfold py_bind at 1.
  destruct (py_for (enemies g1) (bullet_hits_enemy b) g1) as [e|[[] g2]] eqn:E2.
  { exists e. split; [|done]. eapply (guar_exc frozen); [apply enemy_loop_frozen|exact E2]. }
  destruct (guar_run _ _ _ _ _ _ (enemy_loop_frozen b _) E2) as (Hh2 & Hb2 & _).
  destruct (bullet_hits_boss_raises b g2) as (e & He & E3); [congruence|].
  exists e. split; [done|]. by rewrite E3.
Qed.

(** A bullet inside the boss. *)
Definition boss_hit_sample : Game := {|
  heap := <[1%positive := mkRect 100 100 5 5]> ∅; next_obj := 2%positive;
  player := start_player; player_bullets := [(1%positive, 0, -10)];
  enemy_bullets := []; enemies := [];
  boss := Some (mkRect 90 60 100 100); boss_health := 20; boss_stage := true; score := 500;
  is_game_over := false; in_start_menu := false; running := true;
  rng_n := 0; sounds := [] |}.

Lemma check_collisions_boss_hit_raises_witness :
  (1%positive, 0, -10) ∈ player_bullets boss_hit_sample /\
  boss_collides (boss boss_hit_sample) (heap boss_hit_sample !!! pb_rect (1%positive, 0, -10)) = true /\
  (check_collisions boss_hit_sample = inl remove_error \/
   check_collisions boss_hit_sample = inl (NameError "boss_hit_sound")).
Proof.
  assert (Hin : (1%positive, 0, -10) ∈ player_bullets boss_hit_sample)
    by (apply list_elem_of_singleton; reflexivity).
  assert (Hhit : boss_collides (boss boss_hit_sample)
                   (heap boss_hit_sample !!! pb_rect (1%positive, 0, -10)) = true)
    by (vm_compute; reflexivity).
  split; [exact Hin|]. split; [exact Hhit|].
  exact (check_collisions_boss_hit_raises boss_hit_sample _ Hin Hhit).
Defined.

(** On the sample it is the [NameError]. *)
Example check_collisions_boss_hit_sample :
  check_collisions boss_hit_sample = inl (NameError "boss_hit_sound").
Proof. vm_compute. reflexivity. Qed.

(** ** The player-hit half of the pass *)

(** What the spec asks of the second half, on values: the game is over when
    an enemy bullet, an enemy or the boss overlaps the player, and the cue
    is played once per overlap. *)
Definition player_hits (v : View) : nat :=
  length (List.filter (fun r => colliderect r (v_player v)) (v_enemy_bullets v)) +
  length (List.filter (colliderect (v_player v)) (v_enemies v)) +
  (if boss_collides (v_boss v) (v_player v) then 1 else 0).

Definition player_hit (v : View) : bool :=
  existsb (fun r => colliderect r (v_player v)) (v_enemy_bullets v) ||
  existsb (colliderect (v_player v)) (v_enemies v) ||
  boss_collides (v_boss v) (v_player v).

Lemma repeat_app_cons {A} (x : A) n l : repeat x n ++ x :: l = x :: repeat x n ++ l.
Proof. induction n as [|n IH]; cbn; [done|by rewrite IH]. Qed.

Section GameOverLoop.
Context {A : Type} (body : A -> PyM unit) (hit : Game -> A -> bool).
Hypothesis H_body : forall x g, body x g = py_when (hit g x) game_over g.
Hypothesis H_hit : forall g b s, hit {| g with is_game_over := b; sounds := s |} = hit g.

(** A loop whose body only tests and calls [game_over]. *)
Lemma game_over_loop xs g :
  py_for xs body g =
    inr (tt, {| g with is_game_over := is_game_over g || existsb (hit g) xs;
                       sounds := repeat game_over_sound (length (List.filter (hit g) xs))
                                 ++ sounds g |}).
Proof using H_body H_hit.
  revert g. induction xs as [|x xs IH]; intros g; cbn.
  { rewrite orb_false_r. by destruct g. }
  unfold py_bind at 1. rewrite H_body.
  destruct (hit g x) eqn:Hx; cbn.
  - rewrite IH, H_hit. cbn. rewrite orb_true_r, repeat_app_cons. by destruct g.
  - rewrite IH. cbn. by destruct g.
Qed.
End GameOverLoop.

Lemma existsb_map_comp {A B} (f : B -> bool) (h : A -> B) l :
  existsb f (map h l) = existsb (fun x => f (h x)) l.
Proof. induction l as [|x l IH]; cbn; [done|by rewrite IH]. Qed.

Lemma length_filter_map {A B} (f : B -> bool) (h : A -> B) l :
  length (List.filter f (map h l)) = length (List.filter (fun x => f (h x)) l).
Proof. induction l as [|x l IH]; cbn; [done|]. destruct (f (h x)); cbn; by rewrite IH. Qed.

(** The result of the pass, as the lemmas of later files use it. *)
Lemma check_player_hit_eq g :
  check_player_hit g = inr (tt, {| g with
    is_game_over := is_game_over g || player_hit (view g);
    sounds := repeat game_over_sound (player_hits (view g)) ++ sounds g |}).
Proof.
  unfold check_player_hit. rewrite py_bind_gets. unfold py_bind at 1.
  rewrite (game_over_loop _ (fun g o => colliderect (heap g !!! o) (player g)));
    [|intros; reflexivity|intros; by destruct g0].
  cbn. unfold py_bind at 1.
  rewrite (game_over_loop _ (fun g o => colliderect (player g) (heap g !!! o)));
    [|intros; reflexivity|intros; by destruct g0].
  unfold player_hit, player_hits, view, lf_vals. cbn.
  rewrite !existsb_map_comp, !length_filter_map, app_assoc, <- repeat_app.
  destruct (boss_collides (boss g) (player g)); cbn;
    rewrite ?orb_true_r, ?orb_false_r, ?orb_assoc, ?Nat.add_0_r;
    destruct g; cbn; rewrite ?(Nat.add_comm _ 1), (Nat.add_comm (length _)); reflexivity.
Qed.

(** C8: the second half of the pass never raises; it sets [is_game_over]
    exactly when an enemy bullet, an enemy or a truthy boss overlaps the
    player, plays the game-over cue once per overlap, and changes nothing
    else. *)
Theorem check_player_hit_correct g :
  check_player_hit g = inr (tt, {| g with
    is_game_over := is_game_over g || player_hit (view g);
    sounds := repeat game_over_sound (player_hits (view g)) ++ sounds g |}).
Proof. exact (check_player_hit_eq g). Qed.

(** ** A bullet over two enemies *)

Section DoubleHit.
Variable b : PlayerBullet.

(** [rect.colliderect(enemy)] for the bullet [b]. *)
Local Definition hits (g : Game) (o : Obj) : bool :=
  colliderect (heap g !!! pb_rect b) (heap g !!! o).

Lemma bullet_hits_enemy_miss o g : hits g o = false -> bullet_hits_enemy b o g = inr (tt, g).
Proof. unfold hits, bullet_hits_enemy, deref. py_simpl. by intros ->. Qed.

(** Once no entry of [player_bullets] equals [b], a hit raises. *)
Lemma bullet_hits_enemy_gone o g :
  Forall (fun b' => pb_val (heap g) b' <> pb_val (heap g) b) (player_bullets g) ->
  hits g o = true -> bullet_hits_enemy b o g = inl remove_error.
Proof.
  intros Hpb Ho. unfold hits in Ho. unfold bullet_hits_enemy, deref. py_simpl. rewrite Ho. cbn [py_when].
  unfold py_bind at 1, lf_remove. rewrite py_remove_None; [done|].
  eapply Forall_impl; [exact Hpb|]. intros b' Hne. cbn. by apply bool_decide_eq_false.
Qed.

Lemma enemy_loop_gone es g :
  Forall (fun b' => pb_val (heap g) b' <> pb_val (heap g) b) (player_bullets g) ->
  Exists (fun o => hits g o = true) es ->
  py_for es (bullet_hits_enemy b) g = inl remove_error.
Proof.
  intros Hpb Hex. induction es as [|o es IH]; [by inversion Hex|]. cbn [py_for].
  destruct (hits g o) eqn:Ho.
  - by rewrite (py_bind_inl _ _ _ _ (bullet_hits_enemy_gone o g Hpb Ho)).
  - rewrite (py_bind_inr _ _ _ _ _ (bullet_hits_enemy_miss o g Ho)). apply IH.
    inversion Hex as [? ? Ho'|]; [congruence|done].
Qed.

(** A hit of [b] at the head of [player_bullets] removes it (or raises
    when the enemy is gone); the heap is untouched. *)
Lemma bullet_hits_enemy_first o g pbs :
  player_bullets g = b :: pbs -> hits g o = true ->
  bullet_hits_enemy b o g = inl remove_error \/
  exists g2, bullet_hits_enemy b o g = inr (tt, g2) /\ heap g2 = heap g /\ player_bullets g2 = pbs.
Proof.
  intros Hg Ho. unfold hits in Ho.
  assert (E1 : lf_remove PB b g = inr (tt, {| g with player_bullets := pbs |})).
  { unfold lf_remove. change (lf_get PB g) with (player_bullets g). rewrite Hg.
    cbn [py_remove]. rewrite bool_decide_eq_true_2 by done. reflexivity. }
  unfold bullet_hits_enemy, deref. rewrite !py_bind_gets, Ho. cbn [py_when].
  rewrite (py_bind_inr _ _ _ _ _ E1).
  destruct (lf_remove_cases EN o {| g with player_bullets := pbs |}) as [E2 | (l & E2 & _)].
  - left. by rewrite (py_bind_inl _ _ _ _ E2).
  - right. rewrite (py_bind_inr _ _ _ _ _ E2). eexists. split; [reflexivity|]. by destruct g.
Qed.

(** The first hit removes [b], the only entry of its value; the second one
    finds it gone. *)
Lemma enemy_loop_double es g pbs :
  player_bullets g = b :: pbs ->
  Forall (fun b' => pb_val (heap g) b' <> pb_val (heap g) b) pbs ->
  (2 <= length (List.filter (hits g) es))%nat ->
  py_for es (bullet_hits_enemy b) g = inl remove_error.
Proof.
  intros Hg Hpbs Hlen. induction es as [|o es IH]; [cbn in Hlen; lia|]. cbn [py_for].
  cbn in Hlen. destruct (hits g o) eqn:Ho.
  - destruct (bullet_hits_enemy_first o g pbs Hg Ho) as [E | (g2 & E & Hh & Hp)].
    { by rewrite (py_bind_inl _ _ _ _ E). }
    rewrite (py_bind_inr _ _ _ _ _ E). apply enemy_loop_gone; [by rewrite Hp, Hh|].
    unfold hits. rewrite Hh. fold (hits g). cbn in Hlen.
    apply Exists_exists. destruct (List.filter (hits g) es) as [|o' l] eqn:Ef; [cbn in Hlen; lia|].
    exists o'. assert (Hin : In o' (List.filter (hits g) es)) by (rewrite Ef; left; done).
    apply filter_In in Hin as [Hin Ho']. split; [by apply list_elem_of_In|exact Ho'].
  - rewrite (py_bind_inr _ _ _ _ _ (bullet_hits_enemy_miss o g Ho)). by apply IH.
Qed.
End DoubleHit.

(** C5: if the first player bullet overlaps two or more enemies and no
    other player bullet has the same value, [check_collisions] raises
    [ValueError]: the inner loop does not stop after the first hit and
    removes the bullet a second time. *)
Theorem check_collisions_double_hit g b pbs :
  player_bullets g = b :: pbs ->
  Forall (fun b' => pb_val (heap g) b' <> pb_val (heap g) b) pbs ->
  (2 <= length (List.filter (fun o => colliderect (heap g !!! pb_rect b) (heap g !!! o))
                            (enemies g)))%nat ->
  check_collisions g = inl remove_error.
Proof.
  intros Hg Hpbs Hlen. unfold check_collisions, check_player_bullets.
  rewrite py_bind_assoc, py_bind_gets, Hg. cbn [py_for]. unfold check_bullet.
  rewrite !py_bind_assoc, py_bind_gets.
  rewrite py_bind_assoc.
  by rewrite (py_bind_inl _ _ _ _ (enemy_loop_double b (enemies g) g pbs Hg Hpbs Hlen)).
Qed.

(** One bullet over two overlapping enemies. *)
Definition double_hit_sample : Game := {|
  heap := <[1%positive := mkRect 100 100 5 5]>
          (<[2%positive := mkRect 90 90 30 30]> (<[3%positive := mkRect 95 95 30 30]> ∅));
  next_obj := 4%positive;
  player := start_player; player_bullets := [(1%positive, 0, -10)];
  enemy_bullets := []; enemies := [2%positive; 3%positive];
  boss := None; boss_health := 20; boss_stage := false; score := 40;
  is_game_over := false; in_start_menu := false; running := true;
  rng_n := 0; sounds := [] |}.

Lemma check_collisions_double_hit_witness :
  player_bullets double_hit_sample = [(1%positive, 0, -10)] /\
  (2 <= length (List.filter (fun o => colliderect (heap double_hit_sample !!! 1%positive)
                                                  (heap double_hit_sample !!! o))
                            (enemies double_hit_sample)))%nat /\
  check_collisions double_hit_sample = inl remove_error.
Proof.
  split; [reflexivity|]. split; [vm_compute; lia|].
  apply (check_collisions_double_hit double_hit_sample (1%positive, 0, -10) []);
    [reflexivity|constructor|vm_compute; lia].
Defined.

(** ** Every point of the score is a destroyed enemy *)

(** A boss hit either raises or changes nothing, whatever the relation. *)
Lemma guar_bullet_hits_boss (R : Game -> Game -> Prop) `{!PreOrder R} b :
  py_guar R collision_exc (bullet_hits_boss b).
Proof.
  intros g. destruct (boss_collides (boss g) (heap g !!! pb_rect b)) eqn:Hhit.
  - by destruct (bullet_hits_boss_raises b g Hhit) as (e & He & ->).
  - unfold bullet_hits_boss, deref. rewrite !py_bind_gets, Hhit. cbn. reflexivity.
Qed.

(** Enemies destroyed, bullets spent and points earned from [g] to [g']. *)
Definition kills (g g' : Game) : Prop :=
  Z.of_nat (length (player_bullets g)) - Z.of_nat (length (player_bullets g')) =
    Z.of_nat (length (enemies g)) - Z.of_nat (length (enemies g')) /\
  score g' - score g = 10 * (Z.of_nat (length (enemies g)) - Z.of_nat (length (enemies g'))).

#[export] Instance kills_preorder : PreOrder kills.
Proof. split; [intros g; unfold kills; lia | intros g1 g2 g3; unfold kills; lia]. Qed.

Lemma kills_bullet_hits_enemy b o : py_guar kills collision_exc (bullet_hits_enemy b o).
Proof.
  intros g. unfold bullet_hits_enemy, deref. rewrite !py_bind_gets.
  destruct (colliderect _ _); cbn [py_when]; [|cbn; reflexivity].
  unfold py_bind at 1. destruct (lf_remove_cases PB b g) as [-> | (l1 & -> & Hl1)]; [by left|].
  unfold py_bind at 1.
  destruct (lf_remove_cases EN o (lf_set PB l1 g)) as [-> | (l2 & -> & Hl2)]; [by left|].
  cbn in Hl1, Hl2 |- *. unfold kills. destruct g; cbn in *. rewrite Hl1, Hl2. lia.
Qed.

#[local] Hint Resolve kills_bullet_hits_enemy : guar.
#[local] Hint Extern 1 (py_guar kills _ (bullet_hits_boss _)) => apply guar_bullet_hits_boss; apply _ : guar.
#[local] Hint Extern 1 (py_guar kills _ (deref _)) => apply guar_gets; apply _ : guar.
#[local] Hint Extern 1 (py_guar kills _ game_over) =>
  apply guar_bind; [apply _| |intros _]; apply guar_modify; intros []; unfold kills; cbn; lia : guar.

(** C13: whenever [check_collisions] returns, it has destroyed as many
    enemies as it spent player bullets, and the score grew by exactly 10
    per destroyed enemy. *)
Theorem check_collisions_kills g g' :
  check_collisions g = inr (tt, g') ->
  Z.of_nat (length (player_bullets g)) - Z.of_nat (length (player_bullets g')) =
    Z.of_nat (length (enemies g)) - Z.of_nat (length (enemies g')) /\
  score g' = score g + 10 * (Z.of_nat (length (enemies g)) - Z.of_nat (length (enemies g'))).
Proof.
  intros E.
  assert (H : py_guar kills collision_exc check_collisions).
  { unfold check_collisions, check_player_bullets, check_player_hit, check_bullet. guar_auto. }
  destruct (guar_run _ _ _ _ _ _ H E) as [H1 H2]. split; [exact H1|lia].
Qed.

(** One bullet over one enemy, a second bullet elsewhere. *)
Definition kill_sample : Game := {|
  heap := <[1%positive := mkRect 100 100 5 5]>
          (<[2%positive := mkRect 90 90 30 30]> (<[3%positive := mkRect 500 500 5 5]> ∅));
  next_obj := 4%positive;
  player := start_player; player_bullets := [(1%positive, 0, -10); (3%positive, 0, -10)];
  enemy_bullets := []; enemies := [2%positive];
  boss := None; boss_health := 20; boss_stage := false; score := 40;
  is_game_over := false; in_start_menu := false; running := true;
  rng_n := 0; sounds := [] |}.

Lemma check_collisions_kills_witness :
  exists g', check_collisions kill_sample = inr (tt, g') /\
    (Z.of_nat (length (player_bullets kill_sample)) - Z.of_nat (length (player_bullets g')) =
       Z.of_nat (length (enemies kill_sample)) - Z.of_nat (length (enemies g')) /\
     score g' = score kill_sample +
       10 * (Z.of_nat (length (enemies kill_sample)) - Z.of_nat (length (enemies g')))) /\
    score g' = 50.
Proof.
  destruct (check_collisions kill_sample) as [e|[[] g']] eqn:E;
    [vm_compute in E; discriminate|].
  exists g'. split; [reflexivity|]. split; [exact (check_collisions_kills _ _ E)|].
  vm_compute in E. injection E as <-. reflexivity.
Defined.
