(* ===== verification/BulletPass.v ===== *)
(** The first half of [check_collisions] (game.py lines 126-142) against
    the spec's rule: a projectile that meets an enemy destroys it, both are
    removed, and the score grows by 10.

    The code removes by value ([list.remove]) and runs the inner loop over
    a fresh copy of [enemies] for every bullet, so its result depends on the
    order and on equal values.  The theorem [check_player_bullets_refines]
    states the case in which this is the spec's rule.  In that case the
    values in each list are pairwise different, a bullet overlaps at most
    one enemy, an enemy is overlapped by at most one bullet, and no bullet
    overlaps the boss.  Then the pass returns, and on values it keeps
    exactly the bullets and enemies that overlap nothing.  It adds 10
    points and plays the hit cue once per destroyed enemy.  The heap is
    unchanged.  Outside this case the pass raises: see
    [Collision.check_collisions_boss_hit_raises] and
    [Collision.check_collisions_double_hit]. *)
From S2P Require Import Prelude Rect Game Motion Collision.

(** ** The spec, on values *)

(** The bullet [b] overlaps one of [ens]. *)
Definition hits_any (ens : list Rect) (b : Rect * Z * Z) : bool :=
  existsb (colliderect b.1.1) ens.

(** The enemy [e] is overlapped by one of [pbs]. *)
Definition hit_by_any (pbs : list (Rect * Z * Z)) (e : Rect) : bool :=
  existsb (fun b => colliderect b.1.1 e) pbs.

Definition bullet_pass_spec (v : View) : View :=
  let n := length (List.filter (hits_any (v_enemies v)) (v_player_bullets v)) in
  {| v with
     v_player_bullets := List.filter (fun b => negb (hits_any (v_enemies v) b)) (v_player_bullets v);
     v_enemies := List.filter (fun e => negb (hit_by_any (v_player_bullets v) e)) (v_enemies v);
     v_score := v_score v + 10 * Z.of_nat n;
     v_sounds := repeat enemy_hit_sound n ++ v_sounds v |}.

(** ** Lists *)

Lemma NoDup_map_eq {A B} (f : A -> B) l x y :
  NoDup (map f l) -> x ∈ l -> y ∈ l -> f x = f y -> x = y.
Proof.
  induction l as [|z l IH]; cbn; [set_solver|]. rewrite NoDup_cons.
  intros [Hz Hnd] Hx%elem_of_cons Hy%elem_of_cons Hxy.
  destruct Hx as [->|Hx], Hy as [->|Hy]; [done| | |by apply IH].
  - destruct Hz. rewrite Hxy. by apply elem_of_map_in.
  - destruct Hz. rewrite <- Hxy. by apply elem_of_map_in.
Qed.

Lemma NoDup_map_NoDup {A B} (f : A -> B) l : NoDup (map f l) -> NoDup l.
Proof.
  induction l as [|z l IH]; cbn; [constructor|]. rewrite !NoDup_cons.
  intros [Hz Hnd]. split; [|by apply IH]. intros Hin. by apply Hz, elem_of_map_in.
Qed.

Lemma map_filter_comp {A B} (f : A -> B) (p : B -> bool) l :
  map f (List.filter (fun x => p (f x)) l) = List.filter p (map f l).
Proof. induction l as [|x l IH]; cbn; [done|]. destruct (p (f x)); cbn; by rewrite IH. Qed.

Lemma filter_filter_and {A} (p q : A -> bool) l :
  List.filter (fun x => p x && q x) l = List.filter q (List.filter p l).
Proof. induction l as [|x l IH]; cbn; [done|]. destruct (p x), (q x) eqn:Hq; cbn; rewrite ?Hq; by rewrite IH. Qed.

Lemma filter_all {A} (p : A -> bool) l :
  Forall (fun x => p x = true) l -> List.filter p l = l.
Proof. induction 1 as [|x l Hx _ IH]; cbn; [done|]. by rewrite Hx, IH. Qed.

Lemma length_filter_le1_unique {A} (p : A -> bool) l x y :
  (length (List.filter p l) <= 1)%nat -> NoDup l -> x ∈ l -> y ∈ l ->
  p x = true -> p y = true -> x = y.
Proof.
  induction l as [|z l IH]; cbn; [set_solver|]. rewrite NoDup_cons.
  intros Hlen [Hz Hnd] Hx%elem_of_cons Hy%elem_of_cons Hpx Hpy.
  assert (Hnone : forall w, w ∈ l -> p z = true -> p w = true -> False).
  { intros w Hw Hpz Hpw. rewrite Hpz in Hlen. cbn in Hlen.
    assert (Hin : In w (List.filter p l)) by (apply filter_In; split; [by apply list_elem_of_In|done]).
    destruct (List.filter p l); [done|cbn in Hlen; lia]. }
  destruct Hx as [->|Hx], Hy as [->|Hy]; [done| | |].
  - by destruct (Hnone y Hy Hpx Hpy).
  - by destruct (Hnone x Hx Hpy Hpx).
  - apply IH; try done. destruct (p z); cbn in Hlen; lia.
Qed.

(** ** The pass on the objects of one state *)

Lemma bullet_hits_boss_miss b g :
  boss_collides (boss g) (heap g !!! pb_rect b) = false -> bullet_hits_boss b g = inr (tt, g).
Proof. intros H. unfold bullet_hits_boss, deref. by rewrite !py_bind_gets, H. Qed.

Section BulletPass.
Variable g0 : Game.

(** [rect.colliderect(enemy)] on the (constant) heap of the pass. *)
Definition coll (b : PlayerBullet) (o : Obj) : bool :=
  colliderect (heap g0 !!! pb_rect b) (heap g0 !!! o).

Definition hitsB (b : PlayerBullet) : bool := existsb (coll b) (enemies g0).

Definition hitE (done : list PlayerBullet) (o : Obj) : bool := existsb (fun b => coll b o) done.

(** The state once the bullets [done] of the copy were handled and [rest]
    remain. *)
Definition after (done rest : list PlayerBullet) : Game := {| g0 with
  player_bullets := List.filter (fun b => negb (hitsB b)) done ++ rest;
  enemies := List.filter (fun o => negb (hitE done o)) (enemies g0);
  score := score g0 + 10 * Z.of_nat (length (List.filter hitsB done));
  sounds := repeat enemy_hit_sound (length (List.filter hitsB done)) ++ sounds g0 |}.

Lemma inner_miss b E g :
  heap g = heap g0 -> Forall (fun o => coll b o = false) E ->
  py_for E (bullet_hits_enemy b) g = inr (tt, g).
Proof.
  intros Hh. induction 1 as [|o E Ho _ IH]; [done|]. cbn [py_for].
  unfold coll in Ho. unfold bullet_hits_enemy at 1, deref at 1 2.
  rewrite py_bind_assoc, py_bind_gets. cbv beta. rewrite py_bind_assoc, py_bind_gets. cbv beta.
  rewrite Hh, Ho. exact IH.
Qed.

Lemma hit_one b e E1 E2 P1 P2 g :
  heap g = heap g0 -> player_bullets g = P1 ++ b :: P2 -> enemies g = E1 ++ e :: E2 ->
  Forall (fun b' => pb_val (heap g0) b' <> pb_val (heap g0) b) P1 ->
  Forall (fun o => heap g0 !!! o <> heap g0 !!! e) E1 -> coll b e = true ->
  bullet_hits_enemy b e g =
    inr (tt, {| g with player_bullets := P1 ++ P2; enemies := E1 ++ E2;
                       score := score g + 10; sounds := enemy_hit_sound :: sounds g |}).
Proof.
  intros Hh Hp Hn HP1 HE1v He. unfold coll in He. unfold bullet_hits_enemy, deref.
  rewrite !py_bind_gets. cbv beta. rewrite Hh, He. cbn [py_when].
  unfold py_bind at 1, lf_remove at 1. change (lf_get PB g) with (player_bullets g).
  rewrite Hh, Hp, py_remove_app_first;
    [|eapply Forall_impl; [exact HP1|]; intros b' Hb'; by apply bool_decide_eq_false
     |by apply bool_decide_eq_true].
  unfold py_bind at 1, lf_remove at 1. cbn [lf_get EN lf_set PB heap enemies].
  rewrite ?Hh, Hn, py_remove_app_first;
    [|eapply Forall_impl; [exact HE1v|]; intros o Ho; by apply bool_decide_eq_false
     |by apply bool_decide_eq_true].
  by destruct g.
Qed.

Lemma inner_hit b e E1 E2 P1 P2 g :
  heap g = heap g0 -> player_bullets g = P1 ++ b :: P2 -> enemies g = E1 ++ e :: E2 ->
  Forall (fun b' => pb_val (heap g0) b' <> pb_val (heap g0) b) P1 ->
  Forall (fun o => heap g0 !!! o <> heap g0 !!! e) E1 ->
  Forall (fun o => coll b o = false) E1 -> coll b e = true ->
  Forall (fun o => coll b o = false) E2 ->
  py_for (E1 ++ e :: E2) (bullet_hits_enemy b) g =
    inr (tt, {| g with player_bullets := P1 ++ P2; enemies := E1 ++ E2;
                       score := score g + 10; sounds := enemy_hit_sound :: sounds g |}).
Proof.
  intros Hh Hp Hn HP1 HE1v HE1 He HE2.
  rewrite py_for_app, (py_bind_inr _ _ _ _ _ (inner_miss b E1 g Hh HE1)). cbn [py_for].
  rewrite (py_bind_inr _ _ _ _ _ (hit_one b e E1 E2 P1 P2 g Hh Hp Hn HP1 HE1v He)).
  apply inner_miss; [by destruct g|done].
Qed.

Hypothesis HndP : NoDup (map (pb_val (heap g0)) (player_bullets g0)).
Hypothesis HndN : NoDup (map (heap g0 !!!.) (enemies g0)).
Hypothesis H1e : forall b, b ∈ player_bullets g0 -> (length (List.filter (coll b) (enemies g0)) <= 1)%nat.
Hypothesis H1b : forall o, o ∈ enemies g0 ->
  (length (List.filter (fun b => coll b o) (player_bullets g0)) <= 1)%nat.
Hypothesis Hboss : forall b, b ∈ player_bullets g0 ->
  boss_collides (boss g0) (heap g0 !!! pb_rect b) = false.

Lemma existsb_false_forall {A} (f : A -> bool) l x : existsb f l = false -> x ∈ l -> f x = false.
Proof.
  intros Hl Hx. destruct (f x) eqn:Hf; [|done].
  assert (existsb f l = true) by (apply existsb_exists; exists x; by rewrite <- list_elem_of_In).
  congruence.
Qed.

(** A bullet that overlaps no enemy: nothing changes. *)
Lemma step_miss done b rest :
  done ++ b :: rest = player_bullets g0 -> hitsB b = false ->
  check_bullet b (after done (b :: rest)) = inr (tt, after (done ++ [b]) rest).
Proof.
  intros Hsplit Hb. assert (HbP : b ∈ player_bullets g0) by (rewrite <- Hsplit; set_solver).
  unfold check_bullet. rewrite py_bind_gets. cbv beta.
  assert (HE : Forall (fun o => coll b o = false) (enemies (after done (b :: rest)))).
  { apply Forall_forall. intros o Ho. apply (existsb_false_forall _ (enemies g0)); [done|].
    cbn in Ho. apply list_elem_of_In in Ho. apply filter_In in Ho as [Ho _].
    by apply list_elem_of_In. }
  rewrite (py_bind_inr _ _ _ _ _ (inner_miss b _ (after done (b :: rest)) eq_refl HE)).
  rewrite bullet_hits_boss_miss by (apply Hboss, HbP).
  unfold after. rewrite !List.filter_app. cbn [List.filter]. rewrite Hb. cbn.
  rewrite app_nil_r, <- app_assoc. do 3 f_equal.
  apply filter_ext_in. intros o Ho. unfold hitE. rewrite existsb_app. cbn.
  rewrite (existsb_false_forall _ (enemies g0) o Hb) by (by apply list_elem_of_In). cbn.
  by rewrite orb_false_r.
Qed.

(** A bullet that overlaps an enemy: by the hypotheses it is exactly one
    enemy [e], still in [enemies] because no earlier bullet overlaps it, and
    both are removed. *)
Lemma step_hit done b rest :
  done ++ b :: rest = player_bullets g0 -> hitsB b = true ->
  check_bullet b (after done (b :: rest)) = inr (tt, after (done ++ [b]) rest).
Proof.
  intros Hsplit Hb.
  assert (HbP : b ∈ player_bullets g0) by (rewrite <- Hsplit; set_solver).
  assert (HndP0 : NoDup (player_bullets g0)) by (eapply NoDup_map_NoDup; exact HndP).
  assert (HndN0 : NoDup (enemies g0)) by (eapply NoDup_map_NoDup; exact HndN).
  assert (Hbd : b ∉ done).
  { rewrite <- Hsplit in HndP0. intros Hin.
    exact (NoDup_app_ne _ _ b b HndP0 Hin ltac:(set_solver) eq_refl). }
  pose proof Hb as Hb'. unfold hitsB in Hb'.
  apply existsb_exists in Hb' as (e & HeN & He). apply list_elem_of_In in HeN.
  assert (Huniq : forall o, o ∈ enemies g0 -> coll b o = true -> o = e)
    by (intros o Ho Hc; exact (length_filter_le1_unique (coll b) _ o e (H1e b HbP) HndN0 Ho HeN Hc He)).
  assert (Hfree : hitE done e = false).
  { destruct (hitE done e) eqn:Hd; [|done]. unfold hitE in Hd.
    apply existsb_exists in Hd as (b' & Hb'd & Hb'e). apply list_elem_of_In in Hb'd.
    assert (b' = b) as -> ; [|contradiction].
    apply (length_filter_le1_unique (fun b => coll b e) (player_bullets g0)); try done;
      [exact (H1b e HeN)|rewrite <- Hsplit; set_solver]. }
  set (E := enemies (after done (b :: rest))).
  assert (HE : E = List.filter (fun o => negb (hitE done o)) (enemies g0)) by reflexivity.
  assert (HEsub : forall o, o ∈ E -> o ∈ enemies g0).
  { intros o Ho. rewrite HE in Ho. apply list_elem_of_In, filter_In in Ho as [Ho _].
    by apply list_elem_of_In. }
  assert (HeE : e ∈ E).
  { rewrite HE. apply list_elem_of_In, filter_In. split; [by apply list_elem_of_In|by rewrite Hfree]. }
  assert (HndE : NoDup E) by (rewrite HE; eapply sublist_NoDup; [exact HndN0|apply filter_sublist]).
  apply list_elem_of_split in HeE as (E1 & E2 & HEs). rewrite HEs in HndE, HEsub.
  assert (Hmiss : forall o, o ∈ E1 ++ E2 -> coll b o = false).
  { intros o Ho. destruct (coll b o) eqn:Hc; [|done]. exfalso.
    assert (o = e) as -> by (apply Huniq; [apply HEsub; set_solver|done]).
    apply NoDup_app in HndE as (_ & Hd & Hnd2). apply NoDup_cons in Hnd2 as [He2 _].
    apply elem_of_app in Ho as [Ho|Ho]; [exact (Hd e Ho ltac:(set_solver))|exact (He2 Ho)]. }
  assert (HE1v : Forall (fun o => heap g0 !!! o <> heap g0 !!! e) E1).
  { apply Forall_forall. intros o Ho Hv.
    assert (o = e) as -> by (apply (NoDup_map_eq (heap g0 !!!.) (enemies g0)); try done;
                             apply HEsub; set_solver).
    apply NoDup_app in HndE as (_ & Hd & _). exact (Hd e Ho ltac:(set_solver)). }
  assert (HP1 : Forall (fun b' => pb_val (heap g0) b' <> pb_val (heap g0) b)
                       (List.filter (fun b => negb (hitsB b)) done)).
  { apply Forall_forall. intros b' Hb'd Hv.
    apply list_elem_of_In, filter_In in Hb'd as [Hb'd _]. apply list_elem_of_In in Hb'd.
    assert (b' = b) as -> ; [|contradiction].
    apply (NoDup_map_eq (pb_val (heap g0)) (player_bullets g0)); try done;
      rewrite <- Hsplit; set_solver. }
  assert (HE1 : Forall (fun o => coll b o = false) E1)
    by (apply Forall_forall; intros o Ho; apply Hmiss; set_solver).
  assert (HE2 : Forall (fun o => coll b o = false) E2)
    by (apply Forall_forall; intros o Ho; apply Hmiss; set_solver).
  unfold check_bullet. rewrite py_bind_gets. cbv beta. fold E. rewrite HEs.
  rewrite (py_bind_inr _ _ _ _ _
             (inner_hit b e E1 E2 _ rest (after done (b :: rest)) eq_refl eq_refl HEs HP1 HE1v HE1 He HE2)).
  rewrite bullet_hits_boss_miss by (apply Hboss, HbP).
  assert (Hen : List.filter (fun o => negb (hitE (done ++ [b]) o)) (enemies g0) = E1 ++ E2).
  { transitivity (List.filter (fun o => negb (coll b o)) E).
    - rewrite HE, <- filter_filter_and. apply filter_ext. intros o. unfold hitE.
      rewrite existsb_app. cbn. by rewrite orb_false_r, negb_orb.
    - rewrite HEs, List.filter_app. cbn. rewrite He. cbn.
      rewrite !filter_all; [done| |]; eapply Forall_impl; try eassumption; intros o Ho; by rewrite Ho. }
  unfold after. cbn [heap next_obj player player_bullets enemy_bullets enemies boss boss_health
                     boss_stage score is_game_over in_start_menu running rng_n sounds].
  rewrite Hen, !List.filter_app. cbn [List.filter]. rewrite Hb. cbn [negb].
  rewrite app_nil_r, length_app. cbn [length]. do 2 f_equal. f_equal.
  - rewrite Nat2Z.inj_add. lia.
  - rewrite repeat_app, <- app_assoc. cbn. by rewrite repeat_app_cons.
Qed.

(** The outer loop, from any point of the copy to its end. *)
Lemma outer_loop rest done :
  done ++ rest = player_bullets g0 ->
  py_for rest check_bullet (after done rest) = inr (tt, after (player_bullets g0) []).
Proof.
  revert done. induction rest as [|b rest IH]; intros done Hsplit; cbn [py_for].
  { rewrite app_nil_r in Hsplit. by subst. }
  assert (Hstep : check_bullet b (after done (b :: rest)) = inr (tt, after (done ++ [b]) rest))
    by (destruct (hitsB b) eqn:Hb; [apply step_hit|apply step_miss]; done).
  rewrite (py_bind_inr _ _ _ _ _ Hstep). apply IH. by rewrite <- app_assoc.
Qed.

Lemma after_start : after [] (player_bullets g0) = g0.
Proof.
  unfold after. cbn. rewrite filter_all by (apply Forall_forall; done).
  clear HndP HndN H1e H1b Hboss. rewrite Z.add_0_r. by destruct g0.
Qed.

Lemma hitsB_view b : hits_any (map (heap g0 !!!.) (enemies g0)) (pb_val (heap g0) b) = hitsB b.
Proof. unfold hits_any, hitsB. by rewrite existsb_map_comp. Qed.

Lemma hitE_view o :
  hit_by_any (map (pb_val (heap g0)) (player_bullets g0)) (heap g0 !!! o) =
  hitE (player_bullets g0) o.
Proof. unfold hit_by_any, hitE. by rewrite existsb_map_comp. Qed.
End BulletPass.

(** ** The refinement *)

(** The result of the pass, as the lemmas of later files use it. *)
Lemma check_player_bullets_correct g :
  NoDup (v_player_bullets (view g)) -> NoDup (v_enemies (view g)) ->
  (forall bv, bv ∈ v_player_bullets (view g) ->
     (length (List.filter (colliderect bv.1.1) (v_enemies (view g))) <= 1)%nat) ->
  (forall ev, ev ∈ v_enemies (view g) ->
     (length (List.filter (fun bv => colliderect bv.1.1 ev) (v_player_bullets (view g))) <= 1)%nat) ->
  (forall bv, bv ∈ v_player_bullets (view g) -> boss_collides (boss g) bv.1.1 = false) ->
  exists g', check_player_bullets g = inr (tt, g') /\ heap g' = heap g /\
             view g' = bullet_pass_spec (view g).
Proof.
  intros HndP HndN H1e H1b Hboss.
  assert (Hloop := outer_loop g HndP HndN
    (fun b Hb => eq_ind _ (fun n => (n <= 1)%nat)
       (H1e (pb_val (heap g) b) (elem_of_map_in _ _ _ Hb)) _ (length_filter_map _ _ _))
    (fun o Ho => eq_ind _ (fun n => (n <= 1)%nat)
       (H1b (heap g !!! o) (elem_of_map_in (heap g !!!.) _ _ Ho)) _ (length_filter_map _ _ _))
    (fun b Hb => Hboss (pb_val (heap g) b) (elem_of_map_in _ _ _ Hb))
    (player_bullets g) [] eq_refl).
  rewrite after_start in Hloop.
  exists (after g (player_bullets g) []). split; [|split; [reflexivity|]].
  { unfold check_player_bullets. by rewrite py_bind_gets. }
  unfold view, bullet_pass_spec, lf_vals, after.
  cbn -[hits_any hit_by_any hitsB hitE List.filter map repeat length existsb pb_val lookup_total].
  rewrite app_nil_r, <- !map_filter_comp, !length_map.
  rewrite (List.filter_ext (fun x => hits_any _ (pb_val _ x)) (hitsB g)) by apply hitsB_view.
  rewrite (List.filter_ext (fun x => negb (hits_any _ (pb_val _ x))) (fun b => negb (hitsB g b)))
    by (intros b; by rewrite hitsB_view).
  rewrite (List.filter_ext (fun x => negb (hit_by_any _ (heap g !!! x)))
                           (fun o => negb (hitE g (player_bullets g) o)))
    by (intros o; by rewrite hitE_view).
  reflexivity.
Qed.

(** C6: if the player bullets have pairwise different values, and so do
    the enemies, no bullet overlaps two enemies, no enemy is overlapped by
    two bullets, and no bullet overlaps the boss, then the bullet half of
    [check_collisions] returns.  On values, it removes every bullet that
    overlaps an enemy and every enemy that a bullet overlaps.  It adds 10
    points and one hit cue per destroyed enemy, and it moves nothing. *)
Theorem check_player_bullets_refines g :
  NoDup (v_player_bullets (view g)) -> NoDup (v_enemies (view g)) ->
  (forall bv, bv ∈ v_player_bullets (view g) ->
     (length (List.filter (colliderect bv.1.1) (v_enemies (view g))) <= 1)%nat) ->
  (forall ev, ev ∈ v_enemies (view g) ->
     (length (List.filter (fun bv => colliderect bv.1.1 ev) (v_player_bullets (view g))) <= 1)%nat) ->
  (forall bv, bv ∈ v_player_bullets (view g) -> boss_collides (boss g) bv.1.1 = false) ->
  exists g', check_player_bullets g = inr (tt, g') /\ heap g' = heap g /\
             view g' = bullet_pass_spec (view g).
Proof. exact (check_player_bullets_correct g). Qed.

Lemma check_player_bullets_refines_witness :
  let v := view kill_sample in
  NoDup (v_player_bullets v) /\ NoDup (v_enemies v) /\
  (forall bv, bv ∈ v_player_bullets v ->
     (length (List.filter (colliderect bv.1.1) (v_enemies v)) <= 1)%nat) /\
  (forall ev, ev ∈ v_enemies v ->
     (length (List.filter (fun bv => colliderect bv.1.1 ev) (v_player_bullets v)) <= 1)%nat) /\
  (forall bv, bv ∈ v_player_bullets v -> boss_collides (boss kill_sample) bv.1.1 = false) /\
  exists g', check_player_bullets kill_sample = inr (tt, g') /\ heap g' = heap kill_sample /\
             view g' = bullet_pass_spec v.
Proof.
  intros v.
  assert (H1 : NoDup (v_player_bullets v)) by (apply (bool_decide_unpack _); vm_compute; reflexivity).
  assert (H2 : NoDup (v_enemies v)) by (apply (bool_decide_unpack _); vm_compute; reflexivity).
  assert (H3 : forall bv, bv ∈ v_player_bullets v ->
             (length (List.filter (colliderect bv.1.1) (v_enemies v)) <= 1)%nat)
    by (apply Forall_forall; vm_compute; repeat constructor).
  assert (H4 : forall ev, ev ∈ v_enemies v ->
             (length (List.filter (fun bv => colliderect bv.1.1 ev) (v_player_bullets v)) <= 1)%nat)
    by (apply Forall_forall; vm_compute; repeat constructor).
  assert (H5 : forall bv, bv ∈ v_player_bullets v -> boss_collides (boss kill_sample) bv.1.1 = false)
    by (apply Forall_forall; vm_compute; repeat constructor).
  split_and!; try assumption.
  exact (check_player_bullets_refines kill_sample H1 H2 H3 H4 H5).
Defined.

(** On the sample: the first bullet and the enemy are gone, 10 points. *)
Example bullet_pass_sample :
  v_player_bullets (bullet_pass_spec (view kill_sample)) = [(mkRect 500 500 5 5, 0, -10)] /\
  v_enemies (bullet_pass_spec (view kill_sample)) = [] /\
  v_score (bullet_pass_spec (view kill_sample)) = 50.
Proof. vm_compute. auto. Qed.
