(* ===== verification/Spawner.v ===== *)
(** The spawner: [spawn_enemy], [enemy_fire], [spawn_boss] (game.py lines
    160-174) and the body of the spawn-timer event (lines 236-240; the guard
    of line 235 on the mode is in [Loop]).

    Randomness: [random.randint(a, b)] is modelled by an oracle [rand] (a
    section variable, an argument of every definition here): the k-th call
    returns [a + rand k mod (b - a + 1)], so every value of [a..b] can be
    drawn and no other; the state counts the calls in [rng_n].

    Theorems: while [boss_stage] is set, or once the score reached 500, the
    timer spawns no enemy and fires no bullet (the boss exclusivity of the
    spec); with the score at 500 or more and no boss, it spawns the boss at
    y = -100 and a horizontal position inside the field; otherwise it adds
    one enemy at the top and makes every enemy fire once. *)
From S2P Require Import Prelude Rect Game Motion.

Section Spawner.
Variable rand : nat -> Z.

(** [random.randint(a, b)] *)
Definition randint (a b : Z) : PyM Z :=
  fun g => inr (a + rand (rng_n g) mod (b - a + 1), {| g with rng_n := S (rng_n g) |}).

(** Lines 160-162. *)
Definition spawn_enemy : PyM unit :=
  x_pos <- randint 0 (WIDTH - ENEMY_SIZE) ;;
  enemy <- new_rect (mkRect x_pos 0 ENEMY_SIZE ENEMY_SIZE) ;;
  lf_append EN enemy.

(** The bullet of line 166, fired from an enemy's current position. *)
Definition enemy_bullet_at (e : Rect) : Rect :=
  mkRect (rx e + ENEMY_SIZE / 2) (ry e + ENEMY_SIZE) BULLET_SIZE BULLET_SIZE.

(** Lines 166-167: the body of the loop of [enemy_fire]. *)
Definition enemy_fire_one (enemy : Obj) : PyM unit :=
  e <- deref enemy ;;
  bullet <- new_rect (enemy_bullet_at e) ;;
  lf_append EB bullet.

(** Lines 164-167.  The loop runs over the live list; its body appends to
    another list, so the list it runs over does not change. *)
Definition enemy_fire : PyM unit :=
  es <- py_gets enemies ;;
  py_for es enemy_fire_one.

(** Lines 169-174. *)
Definition spawn_boss : PyM unit :=
  x_pos <- randint 0 (WIDTH - BOSS_SIZE) ;;
  py_modify (fun g => {| g with boss := Some (mkRect x_pos (-100) BOSS_SIZE BOSS_SIZE);
                                boss_stage := true |}) ;;
  play boss_intro_sound.

(** Lines 236-240. *)
Definition on_enemy_timer : PyM unit :=
  g <- py_get ;;
  py_when (negb (boss_stage g) && (score g <? 500)) (spawn_enemy ;; enemy_fire) ;;
  g' <- py_get ;;
  py_when ((500 <=? score g') && negb (boss_truthy (boss g'))) spawn_boss.
End Spawner.

(** The spec of a timer tick outside the boss stage, on values: one enemy
    at the top at [x], then every enemy (the new one included) fires one
    bullet from its current position. *)
Definition spawn_spec (x : Z) (v : View) : View :=
  let ens := v_enemies v ++ [mkRect x 0 ENEMY_SIZE ENEMY_SIZE] in
  {| v with v_enemies := ens;
            v_enemy_bullets := v_enemy_bullets v ++ map enemy_bullet_at ens;
            v_rng_n := S (v_rng_n v) |}.

Lemma randint_range rand a b g x g' :
  a <= b -> randint rand a b g = inr (x, g') -> a <= x <= b.
Proof.
  intros Hab H. injection H as <- _.
  pose proof (Z.mod_pos_bound (rand (rng_n g)) (b - a + 1)). lia.
Qed.

(** The loop of [enemy_fire] over enemies allocated before it starts: it
    appends one fresh bullet per enemy, at the enemy's position, and leaves
    every older object and every other global alone. *)
Lemma enemy_fire_loop es g :
  Forall (fun o => (o < next_obj g)%positive) es ->
  exists g', py_for es enemy_fire_one g = inr (tt, g') /\
    (next_obj g <= next_obj g')%positive /\
    (forall o, (o < next_obj g)%positive -> heap g' !!! o = heap g !!! o) /\
    (exists new, enemy_bullets g' = enemy_bullets g ++ new /\
       map (heap g' !!!.) new = map (fun o => enemy_bullet_at (heap g !!! o)) es) /\
    g' = {| g with heap := heap g'; next_obj := next_obj g'; enemy_bullets := enemy_bullets g' |}.
Proof.
  revert g. induction es as [|e es IH]; intros g Hes.
  { exists g. split; [reflexivity|]. split; [lia|]. split; [done|].
    split; [exists []; by rewrite app_nil_r|]. by destruct g. }
  apply Forall_cons in Hes as [He Hes].
  set (n := next_obj g).
  set (g1 := {| g with heap := <[n := enemy_bullet_at (heap g !!! e)]> (heap g);
                       next_obj := Pos.succ n; enemy_bullets := enemy_bullets g ++ [n] |}).
  destruct (IH g1) as (g' & E & Hn & Hh & (new & Hebs & Hnew) & Hrec).
  { eapply Forall_impl; [exact Hes|]. cbn. lia. }
  assert (Hh1 : forall o, (o < n)%positive -> heap g1 !!! o = heap g !!! o).
  { intros o Ho. cbn. rewrite lookup_total_insert_ne; [done|lia]. }
  exists g'. split.
  { cbn [py_for]. rewrite <- E. by destruct g. }
  split; [cbn in Hn; lia|]. split; [intros o Ho; rewrite Hh by (cbn; lia); by apply Hh1|].
  split.
  - exists (n :: new). split; [rewrite Hebs; cbn; by rewrite <- app_assoc|].
    cbn [map]. rewrite Hnew, Hh by (cbn; lia). cbn. rewrite lookup_total_insert_eq.
    f_equal. apply map_ext_in. intros o Ho%list_elem_of_In. f_equal.
    apply Hh1. by eapply Forall_forall in Hes.
  - rewrite Hrec at 1. by destruct g.
Qed.

(** C21: while the boss stage is on, or once the score reached 500, a timer
    tick spawns no enemy and makes no enemy fire: the lists of enemies and
    of enemy bullets are the same objects with the same values. *)
Theorem on_enemy_timer_boss_exclusive rand g :
  boss_stage g = true \/ 500 <= score g ->
  exists g', on_enemy_timer rand g = inr (tt, g') /\
             enemies g' = enemies g /\ enemy_bullets g' = enemy_bullets g /\
             heap g' = heap g.
Proof.
  intros Hex. unfold on_enemy_timer. py_simpl.
  replace (negb (boss_stage g) && (score g <? 500)) with false
    by (destruct Hex as [-> | H]; [done|]; destruct (boss_stage g); cbn; lia).
  cbn. destruct ((500 <=? score g) && negb (boss_truthy (boss g))); cbn; eauto.
Qed.

Lemma on_enemy_timer_boss_exclusive_witness :
  (boss_stage {| heap := ∅; next_obj := 1; player := start_player;
                 player_bullets := []; enemy_bullets := []; enemies := [];
                 boss := None; boss_health := 20; boss_stage := true; score := 0;
                 is_game_over := false; in_start_menu := false; running := true;
                 rng_n := 0; sounds := [] |} = true \/ 500 <= 0) /\
  exists g', on_enemy_timer (fun _ => 0)
    {| heap := ∅; next_obj := 1; player := start_player;
       player_bullets := []; enemy_bullets := []; enemies := [];
       boss := None; boss_health := 20; boss_stage := true; score := 0;
       is_game_over := false; in_start_menu := false; running := true;
       rng_n := 0; sounds := [] |} = inr (tt, g') /\ enemies g' = [] /\
       enemy_bullets g' = [] /\ heap g' = ∅.
Proof.
  split; [left; reflexivity|].
  apply (on_enemy_timer_boss_exclusive (fun _ => 0)). left. reflexivity.
Defined.

(** C23: with the score at 500 or more and no boss, a timer tick creates the
    boss at y = -100, of size 100, at a horizontal position in
    [0, WIDTH - BOSS_SIZE], sets the boss stage and plays the intro cue. *)
Theorem on_enemy_timer_spawns_boss rand g :
  500 <= score g -> boss g = None ->
  exists g' x, on_enemy_timer rand g = inr (tt, g') /\
    boss g' = Some (mkRect x (-100) BOSS_SIZE BOSS_SIZE) /\ 0 <= x <= WIDTH - BOSS_SIZE /\
    boss_stage g' = true /\ sounds g' = boss_intro_sound :: sounds g /\
    enemies g' = enemies g /\ score g' = score g.
Proof.
  intros Hs Hb. unfold on_enemy_timer. py_simpl.
  replace (negb (boss_stage g) && (score g <? 500)) with false
    by (destruct (boss_stage g); cbn; lia).
  cbn. rewrite Hb. replace (500 <=? score g) with true by lia. cbn.
  eexists _, (0 + rand (rng_n g) mod (WIDTH - BOSS_SIZE - 0 + 1)).
  split; [reflexivity|]. cbn.
  pose proof (Z.mod_pos_bound (rand (rng_n g)) (WIDTH - BOSS_SIZE - 0 + 1)
                ltac:(unfold WIDTH, BOSS_SIZE; lia)).
  repeat split; try reflexivity; unfold WIDTH, BOSS_SIZE in *; lia.
Qed.

Lemma on_enemy_timer_spawns_boss_witness :
  exists g' x, on_enemy_timer (fun _ => 7)
    {| heap := ∅; next_obj := 1; player := start_player;
       player_bullets := []; enemy_bullets := []; enemies := [];
       boss := None; boss_health := 20; boss_stage := false; score := 500;
       is_game_over := false; in_start_menu := false; running := true;
       rng_n := 0; sounds := [] |} = inr (tt, g') /\
    boss g' = Some (mkRect x (-100) BOSS_SIZE BOSS_SIZE) /\ 0 <= x <= WIDTH - BOSS_SIZE /\
    boss_stage g' = true /\ sounds g' = [boss_intro_sound] /\ enemies g' = [] /\ score g' = 500.
Proof.
  apply (on_enemy_timer_spawns_boss (fun _ => 7)); [cbn; lia | reflexivity].
Defined.

(** A tick outside the boss stage, on values. *)
Lemma on_enemy_timer_spawn_correct rand g :
  wf g -> boss_stage g = false -> score g < 500 ->
  exists g' x, on_enemy_timer rand g = inr (tt, g') /\ 0 <= x <= WIDTH - ENEMY_SIZE /\
    view g' = spawn_spec x (view g).
Proof.
  intros [_ Hlt] Hst Hs. unfold all_objs in Hlt. rewrite !Forall_app in Hlt.
  destruct Hlt as (Hpb & Heb & Hen).
  set (n := next_obj g). set (x := 0 + rand (rng_n g) mod (WIDTH - ENEMY_SIZE - 0 + 1)).
  set (g0 := {| g with heap := <[n := mkRect x 0 ENEMY_SIZE ENEMY_SIZE]> (heap g);
                       next_obj := Pos.succ n; rng_n := S (rng_n g);
                       enemies := enemies g ++ [n] |}).
  assert (Hh0 : forall o, (o < n)%positive -> heap g0 !!! o = heap g !!! o).
  { intros o Ho. cbn. rewrite lookup_total_insert_ne; [done|lia]. }
  destruct (enemy_fire_loop (enemies g ++ [n]) g0) as (g' & E & Hn & Hh & (new & Hebs & Hnew) & Hrec).
  { apply Forall_app. split; [eapply Forall_impl; [exact Hen|]; cbn; lia|]. constructor; [cbn; lia|done]. }
  assert (Hagree : forall o, (o < n)%positive -> heap g' !!! o = heap g !!! o).
  { intros o Ho. rewrite Hh by (cbn; lia). by apply Hh0. }
  exists g', x. split; [|split].
  - unfold on_enemy_timer. py_simpl. rewrite Hst. replace (score g <? 500) with true by lia.
    cbn [negb andb]. unfold py_when at 1.
    assert (Es : spawn_enemy rand g = inr (tt, g0)) by (by destruct g).
    rewrite py_bind_assoc, (py_bind_inr _ _ _ _ _ Es). unfold enemy_fire. rewrite py_bind_assoc, py_bind_gets.
    cbn [enemies g0]. rewrite (py_bind_inr _ _ _ _ _ E), py_bind_get.
    rewrite Hrec. cbn. replace (500 <=? score g) with false by lia. reflexivity.
  - pose proof (Z.mod_pos_bound (rand (rng_n g)) (WIDTH - ENEMY_SIZE - 0 + 1)
                  ltac:(unfold WIDTH, ENEMY_SIZE; lia)).
    subst x. unfold WIDTH, ENEMY_SIZE in *. lia.
  - rewrite Hrec. unfold view, spawn_spec, lf_vals. cbn. rewrite Hebs.
    assert (Hen' : map (heap g' !!!.) (enemies g) = map (heap g !!!.) (enemies g)).
    { apply map_ext_in. intros o Ho%list_elem_of_In. apply Hagree.
      by eapply Forall_forall in Hen. }
    f_equal.
    + apply map_ext_in. intros b Hb%list_elem_of_In. unfold pb_val. f_equal. f_equal.
      apply Hagree. apply (Forall_forall _ _) with (x := pb_rect b) in Hpb; [done|].
      by apply elem_of_map_in.
    + rewrite !map_app, Hnew. f_equal.
      * apply map_ext_in. intros o Ho%list_elem_of_In. apply Hagree.
        by eapply Forall_forall in Heb.
      * rewrite map_map, map_app. cbn. f_equal.
        -- apply map_ext_in. intros o Ho%list_elem_of_In. f_equal. apply Hh0.
           by eapply Forall_forall in Hen.
        -- cbn. by rewrite lookup_total_insert_eq.
    + rewrite map_app, Hen'. cbn. f_equal. rewrite Hh by (cbn; lia). cbn.
      by rewrite lookup_total_insert_eq.
Qed.

(** C16: outside the boss stage and below 500 points, a timer tick on a
    state without aliasing never raises; on values it adds one enemy at
    the top at a horizontal position in [0, WIDTH - ENEMY_SIZE], and then
    every enemy, the new one included, fires one bullet from where it is;
    no other global but the random draws changes. *)
Theorem on_enemy_timer_spawns_enemy rand g :
  wf g -> boss_stage g = false -> score g < 500 ->
  exists g' x, on_enemy_timer rand g = inr (tt, g') /\ 0 <= x <= WIDTH - ENEMY_SIZE /\
    view g' = spawn_spec x (view g).
Proof. exact (on_enemy_timer_spawn_correct rand g). Qed.

Lemma on_enemy_timer_spawns_enemy_witness :
  wf motion_sample /\ boss_stage motion_sample = false /\ score motion_sample < 500 /\
  exists g' x, on_enemy_timer (fun _ => 1000) motion_sample = inr (tt, g') /\
    0 <= x <= WIDTH - ENEMY_SIZE /\ view g' = spawn_spec x (view motion_sample).
Proof.
  assert (H : wf motion_sample) by (apply wfb_wf; vm_compute; reflexivity).
  split; [exact H|]. split; [reflexivity|]. split; [cbn; lia|].
  apply (on_enemy_timer_spawns_enemy (fun _ => 1000)); [exact H|reflexivity|cbn; lia].
Defined.

(** On the sample, the two enemies and the new one at x = 1000 fire. *)
Example on_enemy_timer_sample :
  v_enemy_bullets (spawn_spec 1000 (view motion_sample)) =
    [mkRect 50 766 5 5; mkRect 60 100 5 5;
     mkRect 25 797 5 5; mkRect 415 50 5 5; mkRect 1015 30 5 5].
Proof. vm_compute. reflexivity. Qed.
