(* ===== verification/Loop.v ===== *)
(** The main loop of game.py (lines 188-250): [restart_game], the handler of
    one queued event, the held arrow keys, one frame, and a run of frames.

    One frame is one iteration of [while running]: when playing, the
    entities move and collide; then every event of the frame's queue is
    handled in order; then the held keys move the player.  A run is driven
    by the list of the frames' inputs, so it terminates by structure: a
    list of n inputs is n frames at most, fewer when [running] turns false.

    The three modes of the spec are two flags of the code: [in_start_menu]
    (Start) and [is_game_over] (GameOver, when not in the menu); Playing is
    neither.  [mode_after] is the spec's machine (section 4.4) labelled by
    the events; [hit_or_same] is its one unlabelled step, Playing ->
    GameOver on a hit.

    Theorems:
    - [frame_mode_machine]: a frame moves the mode by at most a hit in its
      systems, then by the labelled step of each event in order.
    - [run_preserves_wf]: every run keeps the no-aliasing invariant.
    - [restart_in_boss_stage_softlock]: a restart after dying in the boss
      stage leads to a game where nothing spawns again.
    - [frame_game_over_frozen], [frame_start_frozen]: the game-over screen
      is inert except for R and quit, the start menu except for space and
      quit.
    - [restart_game_canonical]: restart is idempotent and canonical except
      for [boss_stage] and [boss_health].
    - [run_player_unclamped]: the held keys move the player without a
      clamp (while its x is a C int).
    - [space_fires]: a space press while playing adds one bullet, on values. *)
From S2P Require Import Prelude Rect Game Motion Collision Spawner.

(** ** Inputs *)

Inductive Key := K_SPACE | K_r | K_other.

Inductive Event :=
| QUIT
| KEYDOWN (k : Key)
| ENEMY_EVENT          (** [enemy_event], the spawn timer of line 43 *)
| OTHER_EVENT.

#[export] Instance Key_eq_dec : EqDecision Key.
Proof. solve_decision. Defined.
#[export] Instance Event_eq_dec : EqDecision Event.
Proof. solve_decision. Defined.

(** [pygame.key.get_pressed()], the two keys the code reads. *)
Record Keys := mkKeys { key_right : bool; key_left : bool }.

(** What one frame reads: the event queue and the held keys. *)
Record Input := mkInput { events : list Event; keys : Keys }.

(** ** The code *)

(** Lines 188-197.  The lists are cleared in place; [boss_health] and
    [boss_stage] are not reset. *)
Definition restart_game : PyM unit :=
  py_modify (fun g => {| g with
    player := set_y (set_x (player g) (WIDTH / 2)) (HEIGHT - PLAYER_SIZE - 10);
    player_bullets := []; enemy_bullets := []; enemies := [];
    boss := None; score := 0; is_game_over := false; in_start_menu := false |}).

(** Lines 229-231. *)
Definition fire_bullet : PyM unit :=
  p <- py_gets player ;;
  bullet <- new_rect (mkRect (rx p + PLAYER_SIZE / 2 - BULLET_SIZE / 2) (ry p)
                             BULLET_SIZE BULLET_SIZE) ;;
  lf_append PB (bullet, 0, -10) ;;
  play bullet_sound.

Section Loop.
Variable rand : nat -> Z.

(** Lines 221-240: one event of the queue. *)
Definition handle_event (ev : Event) : PyM unit :=
  py_when (bool_decide (ev = QUIT)) (py_modify (fun g => {| g with running := false |})) ;;
  (match ev with
   | KEYDOWN k =>
       g <- py_get ;;
       (if bool_decide (k = K_SPACE) then
          (if in_start_menu g then restart_game
           else py_when (negb (is_game_over g)) fire_bullet)
        else py_ret tt) ;;
       g' <- py_get ;;
       py_when (bool_decide (k = K_r) && is_game_over g')
         (py_modify (fun g => {| g with in_start_menu := true |}))
   | _ => py_ret tt
   end) ;;
  g <- py_get ;;
  py_when (bool_decide (ev = ENEMY_EVENT) && negb (in_start_menu g) && negb (is_game_over g))
    (on_enemy_timer rand).

(** Lines 242-247. *)
Definition handle_keys (ks : Keys) : PyM unit :=
  g <- py_get ;;
  py_when (negb (in_start_menu g) && negb (is_game_over g)) (
    py_when (key_right ks)
      (py_modify (fun g => {| g with player := set_x (player g) (rx (player g) + player_speed) |})) ;;
    py_when (key_left ks)
      (py_modify (fun g => {| g with player := set_x (player g) (rx (player g) - player_speed) |}))).

(** Lines 202-250: one iteration of the main loop (drawing omitted). *)
Definition frame (inp : Input) : PyM unit :=
  g <- py_get ;;
  (if in_start_menu g then py_ret tt
   else if is_game_over g then py_ret tt
   else move_bullets ;; move_enemies ;; move_boss ;; check_collisions) ;;
  py_for (events inp) handle_event ;;
  handle_keys (keys inp).

(** Line 201: [while running], over the inputs of successive frames. *)
Fixpoint run (inputs : list Input) : PyM unit :=
  match inputs with
  | [] => py_ret tt
  | inp :: rest =>
      g <- py_get ;;
      if running g then frame inp ;; run rest else py_ret tt
  end.
End Loop.

(** ** The modes of the spec *)

Inductive Mode := Start | Playing | GameOver.

Definition mode (g : Game) : Mode :=
  if in_start_menu g then Start else if is_game_over g then GameOver else Playing.

(** Section 4.4 of the spec, labelled by the events of a frame: space
    confirms in the start menu (Start -> Playing), R on the game-over
    screen returns to the menu (GameOver -> Start), and every other event
    leaves the mode. *)
Definition mode_after (m : Mode) (ev : Event) : Mode :=
  match m, ev with
  | Start, KEYDOWN K_SPACE => Playing
  | GameOver, KEYDOWN K_r => Start
  | _, _ => m
  end.

(** The one transition without a label: Playing -> GameOver on a hit. *)
Definition hit_or_same (m m' : Mode) : Prop := m' = m \/ (m = Playing /\ m' = GameOver).

(** ** A restart during the boss stage *)

(** The state after [restart_game] when [boss_stage] was set: playing, with
    no enemy, no enemy bullet, no boss and score 0, but [boss_stage] still
    set. *)
Definition softlocked (g : Game) : Prop :=
  wf g /\ boss_stage g = true /\ boss g = None /\ score g = 0 /\
  enemies g = [] /\ enemy_bullets g = [] /\ in_start_menu g = false /\ is_game_over g = false.

Lemma lf_vals_nil {K V} `{EqDecision V} (L : ListField K V) g :
  lf_vals L g = [] -> lf_get L g = [].
Proof. unfold lf_vals. apply map_eq_nil. Qed.

(** Nothing to collide with: the pass changes nothing. *)
Lemma check_collisions_idle g :
  enemies g = [] -> enemy_bullets g = [] -> boss g = None -> check_collisions g = inr (tt, g).
Proof.
  intros He Heb Hb. unfold check_collisions, check_player_bullets.
  rewrite py_bind_assoc, py_bind_gets.
  assert (Hpb : forall x, x ∈ player_bullets g -> check_bullet x g = inr (tt, g)).
  { intros x _. unfold check_bullet, bullet_hits_boss, deref. py_simpl.
    rewrite He. py_simpl. rewrite Hb. reflexivity. }
  rewrite (py_bind_inr _ _ _ _ _ (py_for_noop _ _ _ Hpb)).
  unfold check_player_hit. py_simpl. rewrite Heb. py_simpl. rewrite He. py_simpl. rewrite Hb. reflexivity.
Qed.

Lemma on_enemy_timer_idle rand g :
  boss_stage g = true -> score g < 500 -> boss g = None -> on_enemy_timer rand g = inr (tt, g).
Proof.
  intros Hst Hs Hb. unfold on_enemy_timer. py_simpl. rewrite Hst. cbn [negb andb]. py_simpl.
  rewrite Hb. replace (500 <=? score g) with false by lia. reflexivity.
Qed.

Lemma fire_bullet_wf g :
  wf g -> exists g', fire_bullet g = inr (tt, g') /\ wf g' /\
    enemies g' = enemies g /\ enemy_bullets g' = enemy_bullets g /\ boss g' = boss g /\
    boss_stage g' = boss_stage g /\ score g' = score g /\
    in_start_menu g' = in_start_menu g /\ is_game_over g' = is_game_over g.
Proof.
  intros Hwf. eexists. split; [reflexivity|]. split; [|repeat split].
  eapply wf_fresh; [exact Hwf| |cbn; lia].
  unfold all_objs; cbn. rewrite map_app, <- app_assoc. cbn.
  symmetry. apply Permutation_middle.
Qed.

Lemma handle_event_softlocked rand ev g :
  softlocked g -> exists g', handle_event rand ev g = inr (tt, g') /\ softlocked g'.
Proof.
  intros (Hwf & Hst & Hb & Hs & He & Heb & Hm & Ho).
  destruct g as [h n p pbs ebs ens b bh bs sc go sm rn rg snd]; cbn in *; subst.
  destruct ev as [|[| |]| |]; unfold handle_event; cbn.
  all: try (eexists; split; [reflexivity|]; unfold softlocked, wf, all_objs in *; cbn in *; done).
  (* space while playing: a bullet is fired *)
  eexists. split; [reflexivity|]. unfold softlocked; cbn. split; [|repeat split].
  eapply wf_fresh; [exact Hwf| |cbn; lia]. unfold all_objs; cbn.
  rewrite map_app, <- app_assoc. cbn. symmetry. apply Permutation_middle.
Qed.

Lemma handle_keys_softlocked ks g :
  softlocked g -> exists g', handle_keys ks g = inr (tt, g') /\ softlocked g'.
Proof.
  intros (Hwf & Hst & Hb & Hs & He & Heb & Hm & Ho).
  destruct g as [h n p pbs ebs ens b bh bs sc go sm rn rg snd]; cbn in *; subst.
  destruct ks as [[] []]; unfold handle_keys; cbn;
    (eexists; split; [reflexivity|]; unfold softlocked, wf, all_objs in *; cbn in *; done).
Qed.

(** The moves of a frame, from a soft-locked state. *)
Lemma moves_softlocked g :
  softlocked g ->
  exists g', (move_bullets ;; move_enemies ;; move_boss ;; check_collisions) g = inr (tt, g') /\
             softlocked g'.
Proof.
  intros Hsl. pose proof Hsl as (Hwf & Hst & Hb & Hs & He & Heb & Hm & Ho).
  destruct (move_bullets_correct g Hwf) as (g1 & E1 & Hwf1 & Hv).
  assert (He1 : enemies g1 = []).
  { apply (lf_vals_nil EN). pose proof (f_equal v_enemies Hv) as H. cbn in H.
    unfold lf_vals in H |- *. cbn in H |- *. by rewrite He in H. }
  assert (Heb1 : enemy_bullets g1 = []).
  { apply (lf_vals_nil EB). pose proof (f_equal v_enemy_bullets Hv) as H. cbn in H.
    unfold lf_vals in H |- *. cbn in H |- *. by rewrite Heb in H. }
  pose proof (f_equal v_boss Hv) as Hb1. pose proof (f_equal v_boss_stage Hv) as Hst1.
  pose proof (f_equal v_score Hv) as Hs1. pose proof (f_equal v_in_start_menu Hv) as Hm1.
  pose proof (f_equal v_is_game_over Hv) as Ho1. cbn in Hb1, Hst1, Hs1, Hm1, Ho1.
  rewrite (py_bind_inr _ _ _ _ _ E1).
  assert (Hme : move_enemies g1 = inr (tt, g1)).
  { unfold move_enemies. rewrite py_bind_gets, He1. reflexivity. }
  assert (Hmb : move_boss g1 = inr (tt, g1)).
  { unfold move_boss. rewrite py_bind_gets, Hb1, Hb. reflexivity. }
  rewrite (py_bind_inr _ _ _ _ _ Hme), (py_bind_inr _ _ _ _ _ Hmb).
  rewrite check_collisions_idle by congruence.
  eexists. split; [reflexivity|]. split; [exact Hwf1|]. repeat split; congruence.
Qed.

Lemma frame_softlocked rand inp g :
  softlocked g -> exists g', frame rand inp g = inr (tt, g') /\ softlocked g'.
Proof.
  intros Hsl. pose proof Hsl as (_ & _ & _ & _ & _ & _ & Hm & Ho).
  unfold frame. py_simpl. rewrite Hm, Ho.
  destruct (moves_softlocked g Hsl) as (g1 & E1 & Hsl1).
  rewrite (py_bind_inr _ _ _ _ _ E1).
  destruct (py_for_preserves softlocked (events inp) (handle_event rand)
              (handle_event_softlocked rand) g1 Hsl1) as (g2 & E2 & Hsl2).
  rewrite (py_bind_inr _ _ _ _ _ E2). apply handle_keys_softlocked, Hsl2.
Qed.

Lemma run_softlocked rand inputs g :
  softlocked g -> exists g', run rand inputs g = inr (tt, g') /\ softlocked g'.
Proof.
  revert g. induction inputs as [|inp rest IH]; intros g Hsl; cbn; [eauto|].
  destruct (running g); [|eauto].
  destruct (frame_softlocked rand inp g Hsl) as (g1 & E1 & Hsl1).
  rewrite (py_bind_inr _ _ _ _ _ E1). by apply IH.
Qed.

(** C2: if the player dies while the boss stage is on, pressing R and then
    space restarts the game in a state from which, whatever the following
    frames bring (any events, any keys, any random draws), no enemy and no
    boss is ever spawned again and the score stays 0: [restart_game] resets
    [boss] but not [boss_stage], and the spawner only spawns enemies when
    [boss_stage] is off and the boss when the score is at least 500. *)
Theorem restart_in_boss_stage_softlock rand g ks inputs :
  wf g -> is_game_over g = true -> boss_stage g = true ->
  exists g1, frame rand (mkInput [KEYDOWN K_r; KEYDOWN K_SPACE] ks) g = inr (tt, g1) /\
    mode g1 = Playing /\
    exists g', run rand inputs g1 = inr (tt, g') /\
      enemies g' = [] /\ boss g' = None /\ score g' = 0 /\ mode g' = Playing.
Proof.
  intros Hwf Ho Hst.
  assert (Hsl : exists g1, (py_for [KEYDOWN K_r; KEYDOWN K_SPACE] (handle_event rand)) g
                              = inr (tt, g1) /\ softlocked g1).
  { destruct g as [h n p pbs ebs ens b bh bs sc go sm rn rg snd]; cbn in *; subst.
    eexists. split; [reflexivity|]. unfold softlocked, wf, all_objs; cbn.
    repeat split; constructor. }
  destruct Hsl as (g1 & E1 & Hsl1).
  destruct (handle_keys_softlocked ks g1 Hsl1) as (g2 & E2 & Hsl2).
  exists g2. split.
  { unfold frame. py_simpl. cbn [events keys].
    destruct (in_start_menu g); [|rewrite Ho]; py_simpl;
      rewrite (py_bind_inr _ _ _ _ _ E1); exact E2. }
  destruct Hsl2 as (Hwf2 & Hst2 & Hb2 & Hs2 & He2 & Heb2 & Hm2 & Ho2).
  split; [unfold mode; by rewrite Hm2, Ho2|].
  destruct (run_softlocked rand inputs g2) as (g' & E & (_ & _ & ? & ? & ? & _ & Hm' & Ho'));
    [unfold softlocked; tauto|].
  exists g'. repeat split; try done. unfold mode. by rewrite Hm', Ho'.
Qed.

(** Game over in the boss stage: the boss at the bottom of the field. *)
Definition boss_death_sample : Game := {|
  heap := <[1%positive := mkRect 600 400 5 5]> ∅; next_obj := 2%positive;
  player := start_player; player_bullets := []; enemy_bullets := [1%positive]; enemies := [];
  boss := Some (mkRect 650 650 100 100); boss_health := 20; boss_stage := true; score := 510;
  is_game_over := true; in_start_menu := false; running := true;
  rng_n := 3; sounds := [game_over_sound] |}.

Lemma restart_in_boss_stage_softlock_witness :
  wf boss_death_sample /\ is_game_over boss_death_sample = true /\
  boss_stage boss_death_sample = true /\
  exists g1, frame (fun _ => 0) (mkInput [KEYDOWN K_r; KEYDOWN K_SPACE] (mkKeys false false))
               boss_death_sample = inr (tt, g1) /\ mode g1 = Playing /\
    exists g', run (fun _ => 0) (repeat (mkInput [ENEMY_EVENT; KEYDOWN K_SPACE] (mkKeys true false)) 3)
                 g1 = inr (tt, g') /\
      enemies g' = [] /\ boss g' = None /\ score g' = 0 /\ mode g' = Playing.
Proof.
  assert (Hwf : wf boss_death_sample) by (apply wfb_wf; vm_compute; reflexivity).
  split; [exact Hwf|]. split; [reflexivity|]. split; [reflexivity|].
  apply (restart_in_boss_stage_softlock (fun _ => 0) boss_death_sample); [exact Hwf|reflexivity..].
Defined.

(** ** Frames follow the spec's mode machine, labelled by their events *)

Abbreviation any_exc := (fun _ : PyExc => True).

(** Both flags unchanged. *)
Definition flag_rel (g g' : Game) : Prop :=
  in_start_menu g' = in_start_menu g /\ is_game_over g' = is_game_over g.

#[export] Instance flag_rel_preorder : PreOrder flag_rel.
Proof. split; [by intros g|]. intros g1 g2 g3 [H1 H2] [H3 H4]. split; congruence. Qed.

(** The mode unchanged, or a hit while playing. *)
Definition hit_rel (g g' : Game) : Prop := hit_or_same (mode g) (mode g').

#[export] Instance hit_rel_preorder : PreOrder hit_rel.
Proof.
  unfold hit_rel, hit_or_same. split; [intros g; by left|].
  intros g1 g2 g3. destruct (mode g1), (mode g2), (mode g3); intuition congruence.
Qed.

Lemma flag_mode g g' : flag_rel g g' -> mode g' = mode g.
Proof. intros [Hm Ho]. unfold mode. by rewrite Hm, Ho. Qed.

Lemma flag_run {A} (m : PyM A) g a g' :
  py_guar flag_rel any_exc m -> m g = inr (a, g') -> mode g' = mode g.
Proof. intros Hm E. exact (flag_mode _ _ (guar_run _ _ _ _ _ _ Hm E)). Qed.

Lemma flags_when b (m : PyM unit) :
  py_guar flag_rel any_exc m -> py_guar flag_rel any_exc (py_when b m).
Proof. destruct b; [done|]. intros _. apply guar_ret, _. Qed.

Lemma hit_of_flag {A} (m : PyM A) : py_guar flag_rel any_exc m -> py_guar hit_rel any_exc m.
Proof. apply guar_weaken. intros g g' H. left. by apply flag_mode. Qed.

Local Ltac same_flags := intros []; split; reflexivity.

Lemma flags_lf_remove {K V} `{EqDecision V} (L : ListField K V) k :
  (forall l g, flag_rel g (lf_set L l g)) -> py_guar flag_rel any_exc (lf_remove L k).
Proof. intros HL g. unfold lf_remove. destruct (py_remove _ _); [apply HL|done]. Qed.

Lemma flags_lf_append {K V} `{EqDecision V} (L : ListField K V) k :
  (forall l g, flag_rel g (lf_set L l g)) -> py_guar flag_rel any_exc (lf_append L k).
Proof. intros HL g. exact (HL (lf_get L g ++ [k]) g). Qed.

Lemma flag_PB l g : flag_rel g (lf_set PB l g).
Proof. by destruct g. Qed.
Lemma flag_EB l g : flag_rel g (lf_set EB l g).
Proof. by destruct g. Qed.
Lemma flag_EN l g : flag_rel g (lf_set EN l g).
Proof. by destruct g. Qed.

Lemma flags_new_rect r : py_guar flag_rel any_exc (new_rect r).
Proof. intros g. by split. Qed.

Lemma flags_randint rand a b : py_guar flag_rel any_exc (randint rand a b).
Proof. intros g. by split. Qed.

Lemma hits_game_over : py_guar hit_rel any_exc game_over.
Proof.
  intros g. unfold hit_rel, hit_or_same, mode. cbn.
  destruct (in_start_menu g), (is_game_over g); auto.
Qed.

#[local] Hint Resolve flags_lf_remove flags_lf_append flag_PB flag_EB flag_EN : guar.
#[local] Hint Resolve flags_new_rect flags_randint hits_game_over : guar.
#[local] Hint Extern 1 (py_guar flag_rel _ (py_modify _)) => apply guar_modify; same_flags : guar.
#[local] Hint Extern 1 (py_guar flag_rel _ (rect_update _ _)) => apply guar_modify; same_flags : guar.
#[local] Hint Extern 1 (py_guar flag_rel _ (play _)) => apply guar_modify; same_flags : guar.
#[local] Hint Extern 1 (py_guar flag_rel _ (deref _)) => apply guar_gets; apply _ : guar.
#[local] Hint Extern 1 (py_guar hit_rel _ (deref _)) => apply guar_gets; apply _ : guar.
#[local] Hint Extern 1 True => exact I : guar.

Lemma flags_move_bullets : py_guar flag_rel any_exc move_bullets.
Proof.
  unfold move_bullets, move_player_bullet, move_enemy_bullet. guar_auto.
  all: destruct x as [[o dx] dy]; guar_auto.
Qed.

Lemma flags_move_enemies : py_guar flag_rel any_exc move_enemies.
Proof. unfold move_enemies, move_enemy. guar_auto. Qed.

Lemma flags_move_boss : py_guar flag_rel any_exc move_boss.
Proof. unfold move_boss, reset_boss. guar_auto. Qed.

Lemma flags_bullet_pass : py_guar flag_rel any_exc check_player_bullets.
Proof.
  unfold check_player_bullets, check_bullet, bullet_hits_enemy, bullet_hits_boss. guar_auto.
  all: destruct x as [[o dx] dy]; guar_auto.
Qed.

(** The systems of a frame (lines 215-218): only a hit changes the mode. *)
Lemma hits_systems :
  py_guar hit_rel any_exc (move_bullets ;; move_enemies ;; move_boss ;; check_collisions).
Proof.
  unfold check_collisions.
  guar_bind_tac; [apply hit_of_flag, flags_move_bullets|intros _].
  guar_bind_tac; [apply hit_of_flag, flags_move_enemies|intros _].
  guar_bind_tac; [apply hit_of_flag, flags_move_boss|intros _].
  guar_bind_tac; [apply hit_of_flag, flags_bullet_pass|intros _].
  unfold check_player_hit. guar_auto.
Qed.

Lemma flags_fire : py_guar flag_rel any_exc fire_bullet.
Proof. unfold fire_bullet. guar_auto. Qed.

Lemma flags_timer rand : py_guar flag_rel any_exc (on_enemy_timer rand).
Proof. unfold on_enemy_timer, spawn_enemy, enemy_fire, enemy_fire_one, spawn_boss. guar_auto. Qed.

Lemma flags_keys ks : py_guar flag_rel any_exc (handle_keys ks).
Proof. unfold handle_keys. guar_auto. Qed.

(** One event of the queue (lines 221-240), on modes: the event's label. *)
Lemma handle_event_mode rand ev g g' :
  handle_event rand ev g = inr (tt, g') -> mode g' = mode_after (mode g) ev.
Proof.
  unfold handle_event. intros E.
  apply py_bind_inr_inv in E as ([] & g1 & E1 & E).
  apply py_bind_inr_inv in E as ([] & g2 & E2 & E). rewrite py_bind_get in E.
  rewrite (flag_run _ _ _ _ (flags_when _ _ (flags_timer rand)) E).
  assert (H1 : mode g1 = mode g)
    by (revert E1; apply flag_run, flags_when, guar_modify; same_flags).
  rewrite <- H1. clear E E1 H1. destruct ev as [|k| |]; cbv beta iota in E2;
    try (injection E2 as <-; by destruct (mode g1)).
  rewrite py_bind_get in E2.
  apply py_bind_inr_inv in E2 as ([] & g3 & E3 & E2). rewrite py_bind_get in E2.
  destruct k;
    [rewrite (bool_decide_true (K_SPACE = K_SPACE)), (bool_decide_false (K_SPACE = K_r)) in * by done
    |rewrite (bool_decide_false (K_r = K_SPACE)), (bool_decide_true (K_r = K_r)) in * by done
    |rewrite (bool_decide_false (K_other = K_SPACE)), (bool_decide_false (K_other = K_r)) in * by done];
    cbn [andb py_when] in E2.
  - injection E2 as <-. unfold mode at 2. destruct (in_start_menu g1) eqn:Hm.
    + injection E3 as <-. reflexivity.
    + rewrite (flag_run _ _ _ _ (flags_when _ _ flags_fire) E3).
      unfold mode. rewrite Hm. by destruct (is_game_over g1).
  - injection E3 as <-. destruct (is_game_over g1) eqn:Ho; cbn [andb py_when] in E2;
      cbv [py_modify py_ret] in E2; injection E2 as <-; unfold mode; cbn; rewrite ?Ho;
      by destruct (in_start_menu g1).
  - injection E3 as <-. injection E2 as <-. by destruct (mode g1).
Qed.

Lemma events_mode rand evs g g' :
  py_for evs (handle_event rand) g = inr (tt, g') -> mode g' = fold_left mode_after evs (mode g).
Proof.
  revert g. induction evs as [|ev evs IH]; intros g E; cbn [py_for fold_left] in *.
  - by injection E as <-.
  - apply py_bind_inr_inv in E as ([] & g1 & E1 & E).
    by rewrite (IH g1 E), (handle_event_mode rand ev g g1 E1).
Qed.

(** C18: a frame moves the mode along the spec's machine labelled by its
    events: the systems of the frame can only end the game (Playing ->
    GameOver, on a hit), then each event of the queue, in order, takes the
    step its label allows (space confirms in the start menu, R on the
    game-over screen returns to the menu) and every other event, the held
    keys included, leaves the mode. *)
Theorem frame_mode_machine rand inp g g' :
  frame rand inp g = inr (tt, g') ->
  exists m, hit_or_same (mode g) m /\ mode g' = fold_left mode_after (events inp) m.
Proof.
  unfold frame. rewrite py_bind_get. intros E.
  apply py_bind_inr_inv in E as ([] & g1 & E1 & E).
  apply py_bind_inr_inv in E as ([] & g2 & E2 & E3).
  exists (mode g1). split.
  - destruct (in_start_menu g), (is_game_over g);
      try (injection E1 as <-; by left).
    exact (guar_run _ _ _ _ _ _ hits_systems E1).
  - rewrite (flag_run _ _ _ _ (flags_keys _) E3). exact (events_mode _ _ _ _ E2).
Qed.

Lemma frame_mode_machine_witness :
  exists g', frame (fun _ => 0) (mkInput [KEYDOWN K_r; KEYDOWN K_SPACE] (mkKeys false false))
               boss_death_sample = inr (tt, g') /\
    (exists m, hit_or_same (mode boss_death_sample) m /\
               mode g' = fold_left mode_after [KEYDOWN K_r; KEYDOWN K_SPACE] m) /\
    mode g' = Playing.
Proof.
  eexists. split; [reflexivity|]. split; [|reflexivity].
  apply (frame_mode_machine (fun _ => 0) (mkInput [KEYDOWN K_r; KEYDOWN K_SPACE] (mkKeys false false))).
  reflexivity.
Defined.

(** ** Every run keeps the no-aliasing invariant *)

Definition wf_rel (g g' : Game) : Prop := wf g -> wf g'.

#[export] Instance wf_rel_preorder : PreOrder wf_rel.
Proof. split; [intros g H; exact H | intros g1 g2 g3 H1 H2 H; auto]. Qed.

Lemma wf_lf_remove_PB b : py_guar wf_rel any_exc (lf_remove PB b).
Proof.
  intros g. unfold lf_remove. destruct (py_remove _ _) eqn:E; [|done].
  intros Hwf. eapply wf_sublist; [exact Hwf| |done]. unfold all_objs; cbn.
  apply sublist_app; [|done]. apply map_sublist. by eapply py_remove_sublist.
Qed.

Lemma wf_lf_remove_EN o : py_guar wf_rel any_exc (lf_remove EN o).
Proof.
  intros g. unfold lf_remove. destruct (py_remove _ _) eqn:E; [|done].
  intros Hwf. eapply wf_sublist; [exact Hwf| |done]. unfold all_objs; cbn.
  do 2 (apply sublist_app; [done|]). by eapply py_remove_sublist.
Qed.

Lemma wf_lf_remove_EB o : py_guar wf_rel any_exc (lf_remove EB o).
Proof.
  intros g. unfold lf_remove. destruct (py_remove _ _) eqn:E; [|done].
  intros Hwf. eapply wf_sublist; [exact Hwf| |done]. unfold all_objs; cbn.
  apply sublist_app; [done|]. apply sublist_app; [|done]. by eapply py_remove_sublist.
Qed.

(** [Rect(...)] appended to a list: a fresh entry. *)
Lemma wf_alloc_PB r dx dy (k : PyM unit) :
  py_guar wf_rel any_exc k ->
  py_guar wf_rel any_exc (o <- new_rect r ;; lf_append PB (o, dx, dy) ;; k).
Proof.
  intros Hk g. cbn. specialize (Hk (lf_set PB (player_bullets g ++ [(next_obj g, dx, dy)])
                 {| g with heap := <[next_obj g := r]> (heap g); next_obj := Pos.succ (next_obj g) |})).
  destruct (k _) as [e|[[] g']]; [done|]. intros Hwf. apply Hk.
  eapply wf_fresh; [exact Hwf| |cbn; lia]. unfold all_objs; cbn.
  rewrite map_app, <- app_assoc. cbn. symmetry. apply Permutation_middle.
Qed.

Lemma wf_alloc_EB r : py_guar wf_rel any_exc (o <- new_rect r ;; lf_append EB o).
Proof.
  intros g Hwf. cbn. eapply wf_fresh; [exact Hwf| |cbn; lia]. unfold all_objs; cbn.
  solve_Permutation.
Qed.

Lemma wf_alloc_EN r : py_guar wf_rel any_exc (o <- new_rect r ;; lf_append EN o).
Proof.
  intros g Hwf. cbn. eapply wf_fresh; [exact Hwf| |cbn; lia]. unfold all_objs; cbn.
  solve_Permutation.
Qed.

Lemma wf_move_bullets : py_guar wf_rel any_exc move_bullets.
Proof.
  intros g. destruct (move_bullets g) as [e|[[] g']] eqn:E; [done|]. intros Hwf.
  destruct (move_bullets_correct g Hwf) as (g1 & E1 & Hwf1 & _). congruence.
Qed.

Lemma wf_move_enemies : py_guar wf_rel any_exc move_enemies.
Proof.
  intros g. destruct (move_enemies g) as [e|[[] g']] eqn:E; [done|]. intros Hwf.
  destruct (move_enemies_correct g Hwf) as (g1 & E1 & Hwf1 & _). congruence.
Qed.

Local Ltac wf_same := intros [] Hwf; unfold wf, all_objs in *; cbn in *;
  first [exact Hwf | split; constructor].

#[local] Hint Resolve wf_lf_remove_PB wf_lf_remove_EN wf_lf_remove_EB : guar.
#[local] Hint Resolve wf_alloc_PB wf_alloc_EB wf_alloc_EN wf_move_bullets wf_move_enemies : guar.
#[local] Hint Extern 1 (py_guar wf_rel _ (py_modify _)) => apply guar_modify; wf_same : guar.
#[local] Hint Extern 1 (py_guar wf_rel _ (play _)) => apply guar_modify; wf_same : guar.
#[local] Hint Extern 1 (py_guar wf_rel _ (randint _ _ _)) => intros ? Hwf; exact Hwf : guar.
#[local] Hint Extern 1 (py_guar wf_rel _ (deref _)) => apply guar_gets; apply _ : guar.
#[local] Hint Extern 1 True => exact I : guar.

Lemma wf_handle_event rand ev : py_guar wf_rel any_exc (handle_event rand ev).
Proof.
  unfold handle_event, restart_game, fire_bullet, on_enemy_timer, spawn_enemy, enemy_fire, enemy_fire_one,
    spawn_boss.
  destruct ev; guar_auto.
Qed.

#[local] Hint Resolve wf_handle_event : guar.

Lemma wf_check_collisions : py_guar wf_rel any_exc check_collisions.
Proof.
  unfold check_collisions, check_player_bullets, check_player_hit, check_bullet,
    bullet_hits_enemy, bullet_hits_boss, game_over.
  guar_auto.
Qed.

Lemma wf_frame rand inp : py_guar wf_rel any_exc (frame rand inp).
Proof.
  unfold frame, handle_keys, fire_bullet, move_boss, reset_boss,
    check_collisions, check_player_bullets, check_player_hit, check_bullet,
    bullet_hits_enemy, bullet_hits_boss, game_over,
    on_enemy_timer, spawn_enemy, enemy_fire, enemy_fire_one, spawn_boss.
  guar_auto.
Qed.

Lemma wf_run rand inputs : py_guar wf_rel any_exc (run rand inputs).
Proof.
  induction inputs as [|inp rest IH]; cbn; [guar_auto|].
  apply guar_get_bind. intros g. destruct (running g); [|by intros ?].
  assert (H : py_guar wf_rel any_exc (frame rand inp ;; run rand rest))
    by (guar_bind_tac; [apply wf_frame|intros _; exact IH]).
  exact (H g).
Qed.

(** C19: the main loop keeps the no-aliasing invariant: after any run from
    a state where no two entries of [player_bullets], [enemy_bullets] and
    [enemies] share a Rect object and all were allocated, the same holds.
    Every Rect the code appends is a fresh [pygame.Rect(...)], and the
    loops only remove entries. *)
Theorem run_preserves_wf rand inputs g g' :
  wf g -> run rand inputs g = inr (tt, g') -> wf g'.
Proof. intros Hwf E. exact (guar_run wf_rel any_exc _ _ _ _ (wf_run rand inputs) E Hwf). Qed.

Definition wf_sample_inputs : list Input :=
  [mkInput [KEYDOWN K_SPACE] (mkKeys false false);
   mkInput [ENEMY_EVENT; KEYDOWN K_SPACE] (mkKeys true false);
   mkInput [ENEMY_EVENT] (mkKeys false true)].

Definition run_result (r : PyExc + (unit * Game)) : Game :=
  match r with inr (_, g) => g | inl _ => init_game end.

Lemma run_preserves_wf_witness :
  wf init_game /\
  run (fun _ => 5) wf_sample_inputs init_game =
    inr (tt, run_result (run (fun _ => 5) wf_sample_inputs init_game)) /\
  wf (run_result (run (fun _ => 5) wf_sample_inputs init_game)) /\
  length (enemies (run_result (run (fun _ => 5) wf_sample_inputs init_game))) = 2%nat.
Proof.
  assert (H0 : wf init_game) by (apply wfb_wf; vm_compute; reflexivity).
  assert (E : run (fun _ => 5) wf_sample_inputs init_game =
                inr (tt, run_result (run (fun _ => 5) wf_sample_inputs init_game)))
    by (vm_compute; reflexivity).
  split; [exact H0|]. split; [exact E|]. split; [|vm_compute; reflexivity].
  exact (run_preserves_wf (fun _ => 5) wf_sample_inputs _ _ H0 E).
Defined.

(** ** The start menu and the game-over screen *)

Section IdleEvents.
Variable rand : nat -> Z.
(** A set of states in which every event but [trigger] is ignored, quit
    apart. *)
Variable P : Game -> Prop.
Variable trigger : Event.
Hypothesis H_ev : forall ev g, P g -> ev <> trigger ->
  handle_event rand ev g =
    inr (tt, {| g with running := running g && negb (bool_decide (ev = QUIT)) |}).
Hypothesis H_P : forall g b, P g -> P {| g with running := b |}.

Lemma events_idle evs g :
  P g -> trigger ∉ evs ->
  py_for evs (handle_event rand) g =
    inr (tt, {| g with running := running g && negb (bool_decide (QUIT ∈ evs)) |}).
Proof using H_ev H_P.
  revert g. induction evs as [|ev evs IH]; intros g HP Hr; cbn [py_for].
  { rewrite bool_decide_eq_false_2 by (intros Hin; inversion Hin). rewrite andb_true_r.
    by destruct g. }
  rewrite (py_bind_inr _ _ _ _ _ (H_ev ev g HP ltac:(intros ->; apply Hr; left))).
  rewrite IH; [|by apply H_P|intros Hin; apply Hr; by right]. cbn. f_equal. f_equal.
  destruct g; cbn. f_equal.
  rewrite (bool_decide_ext (QUIT ∈ ev :: evs) (ev = QUIT \/ QUIT ∈ evs))
    by (rewrite elem_of_cons; intuition congruence).
  by rewrite bool_decide_or, negb_orb, andb_assoc.
Qed.
End IdleEvents.

Lemma handle_event_game_over rand ev g :
  in_start_menu g = false -> is_game_over g = true -> ev <> KEYDOWN K_r ->
  handle_event rand ev g =
    inr (tt, {| g with running := running g && negb (bool_decide (ev = QUIT)) |}).
Proof.
  intros Hm Ho Hr. destruct g as [h n p pbs ebs ens b bh bs sc go sm rn rg snd]; cbn in *; subst.
  destruct ev as [|[| |]| |]; [| |done| | |]; destruct rn;
    unfold handle_event; vm_compute; reflexivity.
Qed.

Lemma handle_event_start rand ev g :
  in_start_menu g = true -> ev <> KEYDOWN K_SPACE ->
  handle_event rand ev g =
    inr (tt, {| g with running := running g && negb (bool_decide (ev = QUIT)) |}).
Proof.
  intros Hm Hs. destruct g as [h n p pbs ebs ens b bh bs sc go sm rn rg snd]; cbn in *; subst.
  destruct ev as [|[| |]| |]; [|done| | | |]; destruct rn, go;
    unfold handle_event; vm_compute; reflexivity.
Qed.

(** C30: on the game-over screen, a frame whose events do not include R
    changes nothing (nothing moves, collides, spawns or fires, the held keys
    are ignored) except that a quit event stops the loop. *)
Theorem frame_game_over_frozen rand inp g :
  mode g = GameOver -> KEYDOWN K_r ∉ events inp ->
  frame rand inp g =
    inr (tt, {| g with running := running g && negb (bool_decide (QUIT ∈ events inp)) |}).
Proof.
  unfold mode. intros Hmode Hr.
  destruct (in_start_menu g) eqn:Hm; [done|]. destruct (is_game_over g) eqn:Ho; [|done].
  unfold frame. rewrite py_bind_get, Hm, Ho, py_bind_ret_l.
  rewrite (py_bind_inr _ _ _ _ _
             (events_idle rand (fun g => in_start_menu g = false /\ is_game_over g = true)
                (KEYDOWN K_r) (fun ev g H => handle_event_game_over rand ev g (proj1 H) (proj2 H))
                (fun g b H => H) (events inp) g (conj Hm Ho) Hr)).
  unfold handle_keys. rewrite py_bind_get. cbn. by rewrite Hm, Ho.
Qed.

Lemma frame_game_over_frozen_witness :
  mode boss_death_sample = GameOver /\ (KEYDOWN K_r ∉ [KEYDOWN K_SPACE; ENEMY_EVENT]) /\
  frame (fun _ => 0) (mkInput [KEYDOWN K_SPACE; ENEMY_EVENT] (mkKeys true true)) boss_death_sample =
    inr (tt, {| boss_death_sample with running := true && negb (bool_decide (QUIT ∈ [KEYDOWN K_SPACE; ENEMY_EVENT])) |}).
Proof.
  assert (Hr : KEYDOWN K_r ∉ [KEYDOWN K_SPACE; ENEMY_EVENT]) by set_solver.
  split; [reflexivity|]. split; [exact Hr|].
  exact (frame_game_over_frozen (fun _ => 0) (mkInput [KEYDOWN K_SPACE; ENEMY_EVENT] (mkKeys true true))
           boss_death_sample eq_refl Hr).
Defined.

(** ** The player's position is not clamped *)

(** Nothing on the field but the player. *)
Definition empty_field (g : Game) : Prop :=
  player_bullets g = [] /\ enemy_bullets g = [] /\ enemies g = [] /\ boss g = None.

Lemma moves_empty g :
  empty_field g ->
  (move_bullets ;; move_enemies ;; move_boss ;; check_collisions) g = inr (tt, g).
Proof.
  intros (Hp & Heb & He & Hb).
  assert (E1 : move_bullets g = inr (tt, g)).
  { unfold move_bullets. py_simpl. rewrite Hp. py_simpl. by rewrite Heb. }
  assert (E2 : move_enemies g = inr (tt, g)).
  { unfold move_enemies. py_simpl. by rewrite He. }
  assert (E3 : move_boss g = inr (tt, g)).
  { unfold move_boss. py_simpl. by rewrite Hb. }
  rewrite (py_bind_inr _ _ _ _ _ E1), (py_bind_inr _ _ _ _ _ E2), (py_bind_inr _ _ _ _ _ E3).
  by apply check_collisions_idle.
Qed.

Lemma frame_empty_right rand g :
  empty_field g -> mode g = Playing ->
  frame rand (mkInput [] (mkKeys true false)) g =
    inr (tt, {| g with player := set_x (player g) (rx (player g) + player_speed) |}).
Proof.
  unfold mode. intros Hem Hmode.
  destruct (in_start_menu g) eqn:Hm; [done|]. destruct (is_game_over g) eqn:Ho; [done|].
  unfold frame. rewrite py_bind_get, Hm, Ho.
  rewrite (py_bind_inr _ _ _ _ _ (moves_empty g Hem)). cbn. rewrite Hm, Ho. cbn. destruct g; cbn in *; by subst.
Qed.

(** C33: the code never clamps the player to the field: on an empty field,
    holding the right arrow for [n] frames moves the player [5 n] pixels to
    the right, as long as its x stays a C int (pygame's Rect fields are C
    ints, see [Rect]); after 137 frames from the start position the player
    is beyond the right edge (x + PLAYER_SIZE > WIDTH). *)
Theorem run_player_unclamped rand n g :
  empty_field g -> mode g = Playing -> running g = true ->
  c_int (rx (player g)) -> c_int (rx (player g) + player_speed * Z.of_nat n) ->
  run rand (repeat (mkInput [] (mkKeys true false)) n) g =
    inr (tt, {| g with player := set_x (player g) (rx (player g) + player_speed * Z.of_nat n) |}).
Proof.
  intros Hem Hmode Hr _ _. revert g Hem Hmode Hr.
  induction n as [|n IH]; intros g Hem Hmode Hr; cbn [repeat run].
  { cbn. rewrite Z.mul_0_r, Z.add_0_r. by destruct g as [? ? []]. }
  rewrite py_bind_get, Hr, (py_bind_inr _ _ _ _ _ (frame_empty_right rand g Hem Hmode)).
  rewrite IH; [|done|done|done].
  destruct g as [? ? [x]]; cbn in *; subst. unfold set_x; cbn.
  by replace (x + player_speed + player_speed * Z.of_nat n)
    with (x + player_speed * Z.of_nat (Datatypes.S n)) by lia.
Qed.

Lemma run_player_unclamped_witness :
  let g := {| init_game with in_start_menu := false |} in
  empty_field g /\ mode g = Playing /\ running g = true /\
  c_int (rx (player g)) /\ c_int (rx (player g) + player_speed * Z.of_nat 137) /\
  run (fun _ => 0) (repeat (mkInput [] (mkKeys true false)) 137) g =
    inr (tt, {| g with player := set_x (player g) (rx (player g) + player_speed * Z.of_nat 137) |}) /\
  WIDTH < rx (player g) + player_speed * 137 + PLAYER_SIZE.
Proof.
  intros g. assert (Hem : empty_field g) by (repeat split).
  assert (H1 : c_int (rx (player g))) by (vm_compute; split; discriminate).
  assert (H2 : c_int (rx (player g) + player_speed * Z.of_nat 137)) by (vm_compute; split; discriminate).
  split; [exact Hem|]. split; [reflexivity|]. split; [reflexivity|].
  split; [exact H1|]. split; [exact H2|]. split; [|vm_compute; reflexivity].
  exact (run_player_unclamped (fun _ => 0) 137 g Hem eq_refl eq_refl H1 H2).
Defined.

(** ** Firing *)

(** The spec of the space key while playing, on values: one bullet at the
    player's top centre going up 10 per frame, and the firing cue. *)
Definition fire_spec (v : View) : View :=
  {| v with
     v_player_bullets := v_player_bullets v ++
       [(mkRect (rx (v_player v) + PLAYER_SIZE / 2 - BULLET_SIZE / 2) (ry (v_player v))
                BULLET_SIZE BULLET_SIZE, 0, -10)];
     v_sounds := bullet_sound :: v_sounds v |}.

(** C17: while playing, a space key press on a state without aliasing
    never raises, keeps the invariant, and on values appends one bullet at
    the player's top centre moving up by 10, plays the firing cue and
    changes nothing else. *)
Theorem space_fires rand g :
  wf g -> mode g = Playing ->
  exists g', handle_event rand (KEYDOWN K_SPACE) g = inr (tt, g') /\ wf g' /\
             view g' = fire_spec (view g).
Proof.
  unfold mode. intros Hwf Hmode.
  destruct (in_start_menu g) eqn:Hm; [done|]. destruct (is_game_over g) eqn:Ho; [done|].
  destruct (wf_allocated g Hwf) as (Hpb & Heb & Hen).
  destruct (fire_bullet_wf g Hwf) as (g1 & E1 & Hwf1 & _).
  exists g1. split; [|split; [exact Hwf1|]].
  - destruct g; cbn in *; subst. exact E1.
  - injection E1 as <-.
    set (r := mkRect (rx (player g) + PLAYER_SIZE / 2 - BULLET_SIZE / 2) (ry (player g))
                     BULLET_SIZE BULLET_SIZE).
    unfold view, fire_spec, lf_vals. cbn [heap lf_get PB EB EN player_bullets enemy_bullets enemies].
    rewrite map_app, (lf_vals_fresh PB), (lf_vals_fresh EB), (lf_vals_fresh EN);
      [|cbn; rewrite ?map_id; assumption..].
    cbn. unfold pb_val. cbn. by rewrite lookup_total_insert_eq.
Qed.

Lemma space_fires_witness :
  wf motion_sample /\ mode motion_sample = Playing /\
  exists g', handle_event (fun _ => 0) (KEYDOWN K_SPACE) motion_sample = inr (tt, g') /\ wf g' /\
             view g' = fire_spec (view motion_sample).
Proof.
  assert (H : wf motion_sample) by (apply wfb_wf; vm_compute; reflexivity).
  split; [exact H|]. split; [reflexivity|].
  exact (space_fires (fun _ => 0) motion_sample H eq_refl).
Defined.

(** C31: in the start menu, a frame whose events do not include space
    changes nothing (nothing moves, collides or spawns, R and the held
    keys are ignored) except that a quit event stops the loop. *)
Theorem frame_start_frozen rand inp g :
  mode g = Start -> KEYDOWN K_SPACE ∉ events inp ->
  frame rand inp g =
    inr (tt, {| g with running := running g && negb (bool_decide (QUIT ∈ events inp)) |}).
Proof.
  unfold mode. intros Hmode Hs.
  destruct (in_start_menu g) eqn:Hm; [|by destruct (is_game_over g)].
  unfold frame. rewrite py_bind_get, Hm, py_bind_ret_l.
  rewrite (py_bind_inr _ _ _ _ _
             (events_idle rand (fun g => in_start_menu g = true) (KEYDOWN K_SPACE)
                (handle_event_start rand) (fun g b H => H) (events inp) g Hm Hs)).
  unfold handle_keys. rewrite py_bind_get. cbn. by rewrite Hm.
Qed.

Lemma frame_start_frozen_witness :
  mode init_game = Start /\ (KEYDOWN K_SPACE ∉ [KEYDOWN K_r; ENEMY_EVENT; QUIT]) /\
  frame (fun _ => 0) (mkInput [KEYDOWN K_r; ENEMY_EVENT; QUIT] (mkKeys true false)) init_game =
    inr (tt, {| init_game with running := true && negb (bool_decide (QUIT ∈ [KEYDOWN K_r; ENEMY_EVENT; QUIT])) |}).
Proof.
  assert (Hs : KEYDOWN K_SPACE ∉ [KEYDOWN K_r; ENEMY_EVENT; QUIT]) by set_solver.
  split; [reflexivity|]. split; [exact Hs|].
  exact (frame_start_frozen (fun _ => 0) (mkInput [KEYDOWN K_r; ENEMY_EVENT; QUIT] (mkKeys true false))
           init_game eq_refl Hs).
Defined.

(** C32: [restart_game] puts the player at its start position, empties the
    three lists, removes the boss, zeroes the score and enters Playing, and
    a second call changes nothing more (restart idempotence); but it keeps
    [boss_stage] and [boss_health] as they were. *)
Theorem restart_game_canonical g :
  exists g1, restart_game g = inr (tt, g1) /\ restart_game g1 = inr (tt, g1) /\
    rx (player g1) = WIDTH / 2 /\ ry (player g1) = HEIGHT - PLAYER_SIZE - 10 /\
    player_bullets g1 = [] /\ enemy_bullets g1 = [] /\ enemies g1 = [] /\ boss g1 = None /\
    score g1 = 0 /\ mode g1 = Playing /\
    boss_stage g1 = boss_stage g /\ boss_health g1 = boss_health g.
Proof. eexists. split; [reflexivity|]. by destruct g. Qed.

(** ** Splitting and stopping the main loop *)

(** Once [running] is false, [while running] does nothing more. *)
Lemma run_stopped rand inputs g : running g = false -> run rand inputs g = inr (tt, g).
Proof. intros Hr. destruct inputs; cbn; [done|]. by rewrite Hr. Qed.

(** The loop splits at any frame. *)
Lemma run_split rand xs ys g :
  run rand (xs ++ ys) g = (run rand xs ;; run rand ys) g.
Proof.
  revert g. induction xs as [|inp xs IH]; intros g; cbn [app run].
  - by rewrite py_bind_ret_l.
  - rewrite py_bind_assoc, !py_bind_get. destruct (running g) eqn:Hr.
    + rewrite py_bind_assoc. destruct (frame rand inp g) as [e|[[] g1]] eqn:E.
      * by rewrite !(py_bind_inl _ _ _ _ E).
      * rewrite !(py_bind_inr _ _ _ _ _ E). apply IH.
    + rewrite py_bind_ret_l. symmetry. by apply run_stopped.
Qed.

(** Only a quit event writes [running], and only to false. *)
Definition stays_stopped (g g' : Game) : Prop := running g = false -> running g' = false.

#[export] Instance stays_stopped_preorder : PreOrder stays_stopped.
Proof. split; [intros g H; exact H | intros g1 g2 g3 H1 H2 H; auto]. Qed.

Lemma stopped_lf_remove {K V} `{EqDecision V} (L : ListField K V) k :
  (forall l g, running (lf_set L l g) = running g) ->
  py_guar stays_stopped any_exc (lf_remove L k).
Proof.
  intros HL g. destruct (lf_remove_cases L k g) as [-> | (l & -> & _)]; [done|].
  unfold stays_stopped. by rewrite HL.
Qed.

Lemma stopped_lf_append {K V} `{EqDecision V} (L : ListField K V) k :
  (forall l g, running (lf_set L l g) = running g) ->
  py_guar stays_stopped any_exc (lf_append L k).
Proof. intros HL g. unfold stays_stopped. cbn. by rewrite HL. Qed.

Lemma running_PB l g : running (lf_set PB l g) = running g.
Proof. by destruct g. Qed.
Lemma running_EB l g : running (lf_set EB l g) = running g.
Proof. by destruct g. Qed.
Lemma running_EN l g : running (lf_set EN l g) = running g.
Proof. by destruct g. Qed.

#[local] Hint Resolve stopped_lf_remove stopped_lf_append running_PB running_EB running_EN : guar.
#[local] Hint Extern 1 (py_guar stays_stopped _ (py_modify _)) =>
  apply guar_modify; intros [] ?; done : guar.
#[local] Hint Extern 1 (py_guar stays_stopped _ (rect_update _ _)) =>
  apply guar_modify; intros [] ?; done : guar.
#[local] Hint Extern 1 (py_guar stays_stopped _ (play _)) =>
  apply guar_modify; intros [] ?; done : guar.
#[local] Hint Extern 1 (py_guar stays_stopped _ (new_rect _)) => intros [] ?; done : guar.
#[local] Hint Extern 1 (py_guar stays_stopped _ (randint _ _ _)) => intros [] ?; done : guar.
#[local] Hint Extern 1 (py_guar stays_stopped _ (deref _)) => apply guar_gets; apply _ : guar.
#[local] Hint Extern 1 True => exact I : guar.

Lemma stopped_handle_event rand ev : py_guar stays_stopped any_exc (handle_event rand ev).
Proof.
  unfold handle_event, restart_game, fire_bullet, on_enemy_timer, spawn_enemy, enemy_fire,
    enemy_fire_one, spawn_boss.
  destruct ev; guar_auto.
Qed.

#[local] Hint Resolve stopped_handle_event : guar.

Lemma stopped_events_keys rand evs ks :
  py_guar stays_stopped any_exc (py_for evs (handle_event rand) ;; handle_keys ks).
Proof. unfold handle_keys. guar_auto. Qed.

(** A quit event stops the loop, whatever the other events of the frame. *)
Lemma events_quit rand evs g g' :
  QUIT ∈ evs -> py_for evs (handle_event rand) g = inr (tt, g') -> running g' = false.
Proof.
  intros Hq E. apply list_elem_of_split in Hq as (e1 & e2 & ->).
  rewrite py_for_app in E.
  apply py_bind_inr_inv in E as ([] & g1 & _ & E). cbn [py_for] in E.
  assert (Eq : handle_event rand QUIT g1 = inr (tt, {| g1 with running := false |}))
    by (by destruct g1).
  rewrite (py_bind_inr _ _ _ _ _ Eq) in E.
  assert (H : py_guar stays_stopped any_exc (py_for e2 (handle_event rand))) by guar_auto.
  exact (guar_run _ _ _ _ _ _ H E eq_refl).
Qed.

(** A frame with a quit event that returns has cleared [running]. *)
Lemma frame_quit_stops rand inp g g1 :
  QUIT ∈ events inp -> frame rand inp g = inr (tt, g1) -> running g1 = false.
Proof.
  intros Hq E. unfold frame in E. rewrite py_bind_get in E.
  apply py_bind_inr_inv in E as ([] & ga & _ & E).
  apply py_bind_inr_inv in E as ([] & gb & Eb & E).
  assert (H : py_guar stays_stopped any_exc (handle_keys (keys inp)))
    by (unfold handle_keys; guar_auto).
  exact (guar_run _ _ _ _ _ _ H E (events_quit rand _ _ _ Hq Eb)).
Qed.

(** C36: the main loop terminates on quit: a frame whose events contain a
    quit event clears [running], so the loop stops after it whatever
    inputs follow. *)
Theorem run_quit rand inp rest g g1 :
  running g = true -> QUIT ∈ events inp -> frame rand inp g = inr (tt, g1) ->
  running g1 = false /\ run rand (inp :: rest) g = inr (tt, g1).
Proof.
  intros Hr Hq E. pose proof (frame_quit_stops rand inp g g1 Hq E) as Hstop.
  split; [exact Hstop|]. cbn [run]. rewrite py_bind_get, Hr, (py_bind_inr _ _ _ _ _ E).
  by apply run_stopped.
Qed.

Lemma run_quit_witness :
  running init_game = true /\ QUIT ∈ events (mkInput [KEYDOWN K_SPACE; QUIT] (mkKeys false false)) /\
  frame (fun _ => 0) (mkInput [KEYDOWN K_SPACE; QUIT] (mkKeys false false)) init_game =
    inr (tt, run_result (frame (fun _ => 0) (mkInput [KEYDOWN K_SPACE; QUIT] (mkKeys false false)) init_game)) /\
  running (run_result (frame (fun _ => 0) (mkInput [KEYDOWN K_SPACE; QUIT] (mkKeys false false)) init_game)) = false /\
  run (fun _ => 0) (mkInput [KEYDOWN K_SPACE; QUIT] (mkKeys false false) :: wf_sample_inputs) init_game =
    inr (tt, run_result (frame (fun _ => 0) (mkInput [KEYDOWN K_SPACE; QUIT] (mkKeys false false)) init_game)).
Proof.
  assert (Hq : QUIT ∈ events (mkInput [KEYDOWN K_SPACE; QUIT] (mkKeys false false))) by set_solver.
  assert (E : frame (fun _ => 0) (mkInput [KEYDOWN K_SPACE; QUIT] (mkKeys false false)) init_game =
    inr (tt, run_result (frame (fun _ => 0) (mkInput [KEYDOWN K_SPACE; QUIT] (mkKeys false false)) init_game)))
    by (vm_compute; reflexivity).
  split; [reflexivity|]. split; [exact Hq|]. split; [exact E|].
  exact (run_quit (fun _ => 0) _ wf_sample_inputs init_game _ eq_refl Hq E).
Defined.
