(* ===== verification/Frame.v ===== *)
(** One frame of the main loop as a whole, against a specification on
    values.

    A frame (game.py lines 202-247) composes the components: when playing,
    [move_bullets], [move_enemies], [move_boss] and [check_collisions]
    (itself [check_player_bullets] then [check_player_hit]); then the
    events (here none, or one spawn-timer tick); then the held keys, whose
    guard is read after the collisions.
    [frame_spec] is the same composition on the value view: the motion
    specifications of [Motion], the collision rule of [BulletPass] and the
    player-hit rule of [Collision], and [keys_spec].  The composition holds
    for frames without events, on a state without aliasing, in the case
    where the code's collision pass meets the spec's rule; [cleanb] tests
    that case on the moved values.

    Theorems: [frame_refines] (a frame computes [frame_spec]);
    [run_refines_spec] (a run of such frames computes [run_spec], the
    spec's frames one after the other, as long as each frame is clean: a
    simulation whose invariant is [wf]); [keys_ignored_on_hit] (the held
    keys do not move the player in the frame in which it is hit, because
    [handle_keys] runs after [check_collisions]); [frame_spawn_refines]
    (a frame with a spawn-timer tick adds the [Spawner]'s rule between
    the collisions and the keys, and spawns nothing in the frame the
    player is hit). *)
From S2P Require Import Prelude Rect Game Motion Collision BulletPass Spawner Loop.

(** ** The specification on values *)

(** [move_boss] (lines 111-115) on values. *)
Definition move_boss_spec (v : View) : View :=
  if boss_truthy (v_boss v) then
    let v1 := {| v with v_boss := option_map (fun r => set_y r (ry r + 1)) (v_boss v) |} in
    if boss_below (v_boss v1)
    then {| v1 with v_boss := None; v_boss_health := 20; v_boss_stage := false |}
    else v1
  else v.

(** [check_player_hit] (lines 144-158) on values. *)
Definition player_hit_spec (v : View) : View :=
  {| v with v_is_game_over := v_is_game_over v || player_hit v;
            v_sounds := repeat game_over_sound (player_hits v) ++ v_sounds v |}.

(** [handle_keys] (lines 242-247) on values. *)
Definition keys_spec (ks : Keys) (v : View) : View :=
  if negb (v_in_start_menu v) && negb (v_is_game_over v) then
    let p1 := if key_right ks then set_x (v_player v) (rx (v_player v) + player_speed)
              else v_player v in
    let p2 := if key_left ks then set_x p1 (rx p1 - player_speed) else p1 in
    {| v with v_player := p2 |}
  else v.

(** The systems' moves of a frame. *)
Definition moved (v : View) : View := move_boss_spec (move_enemies_spec (move_bullets_spec v)).

(** A frame without events. *)
Definition frame_spec (ks : Keys) (v : View) : View :=
  if v_in_start_menu v || v_is_game_over v then v
  else keys_spec ks (player_hit_spec (bullet_pass_spec (moved v))).

(** The case in which the collision pass meets the spec's rule: pairwise
    different values, no bullet over two enemies, no enemy under two
    bullets, no bullet over the boss. *)
Definition cleanb (v : View) : bool :=
  bool_decide (NoDup (v_player_bullets v)) && bool_decide (NoDup (v_enemies v)) &&
  forallb (fun bv => Nat.leb (length (List.filter (colliderect bv.1.1) (v_enemies v))) 1)
          (v_player_bullets v) &&
  forallb (fun ev => Nat.leb (length (List.filter (fun bv => colliderect bv.1.1 ev)
                                                  (v_player_bullets v))) 1)
          (v_enemies v) &&
  forallb (fun bv => negb (boss_collides (v_boss v) bv.1.1)) (v_player_bullets v).

Definition playing (v : View) : bool := negb (v_in_start_menu v) && negb (v_is_game_over v).

(** Frames one after the other, while [running] is set. *)
Fixpoint run_spec (kss : list Keys) (v : View) : View :=
  match kss with
  | [] => v
  | ks :: rest => if v_running v then run_spec rest (frame_spec ks v) else v
  end.

(** Every frame the spec's run plays is clean. *)
Fixpoint clean_along (kss : list Keys) (v : View) : bool :=
  match kss with
  | [] => true
  | ks :: rest =>
      if v_running v
      then (negb (playing v) || cleanb (moved v)) && clean_along rest (frame_spec ks v)
      else true
  end.

(** A timer tick handled after the collisions (lines 236-238): no spawn
    once the game is over. *)
Definition spawn_if (x : Z) (v : View) : View :=
  if v_is_game_over v then v else spawn_spec x v.

(** The inputs of frames without events. *)
Definition quiet (kss : list Keys) : list Input := map (mkInput []) kss.

(** ** Each step on values *)

Lemma move_boss_view g :
  wf g -> exists g', move_boss g = inr (tt, g') /\ wf g' /\ view g' = move_boss_spec (view g).
Proof.
  intros Hwf. destruct g as [h n p pbs ebs ens [r|] bh bs sc go sm rn k snd];
    unfold move_boss, move_boss_spec, reset_boss, py_when; cbn;
    [destruct (rect_truthy r); cbn; [destruct (HEIGHT <? ry r + 1); cbn|]|];
    eexists; (split; [reflexivity|]); (split; [exact Hwf|reflexivity]).
Qed.

Lemma handle_keys_view ks g :
  exists g', handle_keys ks g = inr (tt, g') /\ view g' = keys_spec ks (view g).
Proof.
  unfold handle_keys, keys_spec, py_when. rewrite py_bind_get. cbn [view v_in_start_menu v_is_game_over].
  destruct (in_start_menu g) eqn:Hs, (is_game_over g) eqn:Ho; cbn; [eauto..|].
  destruct (key_right ks), (key_left ks); cbn; eexists; (split; [reflexivity|]);
    destruct g; cbn in Hs, Ho; by subst.
Qed.

Lemma view_player_hit g :
  view {| g with is_game_over := is_game_over g || player_hit (view g);
                 sounds := repeat game_over_sound (player_hits (view g)) ++ sounds g |} =
  player_hit_spec (view g).
Proof. by destruct g. Qed.

(** [cleanb] gives the hypotheses of the collision rule. *)
Lemma cleanb_sound g :
  cleanb (view g) = true ->
  NoDup (v_player_bullets (view g)) /\ NoDup (v_enemies (view g)) /\
  (forall bv, bv ∈ v_player_bullets (view g) ->
     (length (List.filter (colliderect bv.1.1) (v_enemies (view g))) <= 1)%nat) /\
  (forall ev, ev ∈ v_enemies (view g) ->
     (length (List.filter (fun bv => colliderect bv.1.1 ev) (v_player_bullets (view g))) <= 1)%nat) /\
  (forall bv, bv ∈ v_player_bullets (view g) -> boss_collides (boss g) bv.1.1 = false).
Proof.
  unfold cleanb. rewrite !andb_true_iff, !forallb_forall, !bool_decide_eq_true.
  intros ((((H1 & H2) & H3) & H4) & H5). split_and!; [done|done|..];
    intros x Hx%list_elem_of_In.
  - by apply Nat.leb_le, H3.
  - by apply Nat.leb_le, H4.
  - by apply negb_true_iff, H5.
Qed.

(** ** A frame *)

(** The systems of a playing frame, then the collision pass. *)
Lemma systems_correct g :
  wf g -> cleanb (moved (view g)) = true ->
  exists g', (move_bullets ;; move_enemies ;; move_boss ;; check_collisions) g = inr (tt, g') /\
             wf g' /\ view g' = player_hit_spec (bullet_pass_spec (moved (view g))).
Proof.
  intros Hwf Hc.
  destruct (move_bullets_correct g Hwf) as (g1 & E1 & W1 & V1).
  destruct (move_enemies_correct g1 W1) as (g2 & E2 & W2 & V2).
  destruct (move_boss_view g2 W2) as (g3 & E3 & W3 & V3).
  assert (Hc3 : cleanb (view g3) = true) by (by rewrite V3, V2, V1).
  destruct (cleanb_sound g3 Hc3) as (H1 & H2 & H3 & H4 & H5).
  destruct (check_player_bullets_correct g3 H1 H2 H3 H4 H5) as (g4 & E4 & _ & V4).
  assert (E5 : check_collisions g3 = inr (tt, {| g4 with
             is_game_over := is_game_over g4 || player_hit (view g4);
             sounds := repeat game_over_sound (player_hits (view g4)) ++ sounds g4 |}))
    by (unfold check_collisions; rewrite (py_bind_inr _ _ _ _ _ E4); apply check_player_hit_eq).
  eexists. split_and!.
  - by rewrite (py_bind_inr _ _ _ _ _ E1), (py_bind_inr _ _ _ _ _ E2), (py_bind_inr _ _ _ _ _ E3).
  - exact (guar_run _ _ _ _ _ _ wf_check_collisions E5 W3).
  - rewrite view_player_hit, V4, V3, V2, V1. reflexivity.
Qed.

Lemma frame_correct rand ks g :
  wf g -> (playing (view g) = true -> cleanb (moved (view g)) = true) ->
  exists g', frame rand (mkInput [] ks) g = inr (tt, g') /\ view g' = frame_spec ks (view g).
Proof.
  intros Hwf Hc. unfold frame, frame_spec, playing in *. rewrite py_bind_get.
  cbn [events keys py_for view v_in_start_menu v_is_game_over] in *.
  destruct (in_start_menu g) eqn:Hs, (is_game_over g) eqn:Ho; cbn [orb negb andb] in *;
    try (rewrite py_bind_ret_l; destruct (handle_keys_view ks g) as (g' & E & V);
         exists g'; split; [exact E|]; rewrite V; unfold keys_spec; cbn; by rewrite Hs, Ho).
  destruct (systems_correct g Hwf (Hc eq_refl)) as (g1 & E1 & _ & V1).
  rewrite (py_bind_inr _ _ _ _ _ E1), py_bind_ret_l.
  destruct (handle_keys_view ks g1) as (g' & E & V). exists g'. split; [exact E|].
  by rewrite V, V1.
Qed.

(** The moves and the collision pass leave the player where it is. *)
Lemma moved_player v : v_player (moved v) = v_player v.
Proof.
  unfold moved, move_boss_spec. destruct (boss_truthy _); [|done].
  by destruct (boss_below _).
Qed.

(** The moves leave the modes and the score, and do not start a boss stage. *)
Lemma moved_fields v :
  v_in_start_menu (moved v) = v_in_start_menu v /\ v_is_game_over (moved v) = v_is_game_over v /\
  v_score (moved v) = v_score v /\ (v_boss_stage v = false -> v_boss_stage (moved v) = false).
Proof.
  unfold moved, move_boss_spec. destruct (boss_truthy _); [|done].
  by destruct (boss_below _).
Qed.

(** A spawn event: the timer handler, unless a mode screen is shown. *)
Lemma handle_event_enemy rand g :
  handle_event rand ENEMY_EVENT g =
    if negb (in_start_menu g) && negb (is_game_over g) then on_enemy_timer rand g else inr (tt, g).
Proof.
  unfold handle_event, py_when.
  rewrite (bool_decide_false (ENEMY_EVENT = QUIT)), (bool_decide_true (ENEMY_EVENT = ENEMY_EVENT)) by done.
  cbn. by destruct (in_start_menu g), (is_game_over g).
Qed.

(** Once the game is over the held keys do nothing. *)
Lemma keys_spec_over ks v : v_is_game_over v = true -> keys_spec ks v = v.
Proof. intros Ho. unfold keys_spec. by rewrite Ho, andb_false_r. Qed.

(** ** A run of frames *)

Lemma run_spec_correct rand kss g :
  wf g -> clean_along kss (view g) = true ->
  exists g', run rand (quiet kss) g = inr (tt, g') /\ view g' = run_spec kss (view g).
Proof.
  revert g. induction kss as [|ks rest IH]; intros g Hwf Hc; [by exists g|].
  cbn [quiet map run run_spec clean_along] in *. rewrite py_bind_get.
  change (v_running (view g)) with (running g) in *.
  destruct (running g); [|by exists g].
  apply andb_true_iff in Hc as [Hp Hrest].
  destruct (frame_correct rand ks g Hwf) as (g1 & E1 & V1).
  { intros Hpl. by rewrite Hpl in Hp. }
  assert (W1 : wf g1) by exact (guar_run _ _ _ _ _ _ (wf_frame rand (mkInput [] ks)) E1 Hwf).
  rewrite <- V1 in Hrest. destruct (IH g1 W1 Hrest) as (g2 & E2 & V2).
  exists g2. split; [by rewrite (py_bind_inr _ _ _ _ _ E1)|]. by rewrite V2, V1.
Qed.

(** ** The theorems *)

(** C9: a frame without events is the composition of the components'
    specifications: on a state without aliasing, in the start menu or on
    the game-over screen it changes nothing, and while playing, if the
    moved values are in the case where the collision pass meets the
    spec's rule, it returns, and on values it moves bullets, enemies and
    boss, applies the collision rule and the player-hit rule, and then the
    held keys, read after the collisions. *)
Theorem frame_refines rand ks g :
  wf g -> (playing (view g) = true -> cleanb (moved (view g)) = true) ->
  exists g', frame rand (mkInput [] ks) g = inr (tt, g') /\ view g' = frame_spec ks (view g).
Proof. exact (frame_correct rand ks g). Qed.

(** C10: a run of frames without events simulates the specification's run:
    from a state without aliasing, as long as every frame the
    specification plays is clean, the main loop returns, and its final
    values are those of [run_spec]. *)
Theorem run_refines_spec rand kss g :
  wf g -> clean_along kss (view g) = true ->
  exists g', run rand (quiet kss) g = inr (tt, g') /\ view g' = run_spec kss (view g).
Proof. exact (run_spec_correct rand kss g). Qed.

(** C11: ordering: the held keys do not move the player in the frame in
    which it is hit.  [handle_keys] runs after [check_collisions] and reads
    [is_game_over] then, so the frame that ends the game ignores them. *)
Theorem keys_ignored_on_hit rand ks g :
  wf g -> playing (view g) = true -> cleanb (moved (view g)) = true ->
  player_hit (bullet_pass_spec (moved (view g))) = true ->
  exists g', frame rand (mkInput [] ks) g = inr (tt, g') /\
             is_game_over g' = true /\ player g' = player g.
Proof.
  intros Hwf Hpl Hc Hhit. destruct (frame_correct rand ks g Hwf (fun _ => Hc)) as (g' & E & V).
  exists g'. split; [exact E|].
  assert (Hs : frame_spec ks (view g) = player_hit_spec (bullet_pass_spec (moved (view g)))).
  { unfold frame_spec, playing in *. apply andb_true_iff in Hpl as [H1 H2].
    apply negb_true_iff in H1, H2. rewrite H1, H2. cbn [orb]. apply keys_spec_over.
    cbn [player_hit_spec v_is_game_over]. by rewrite Hhit, orb_true_r. }
  rewrite Hs in V. split.
  - apply (f_equal v_is_game_over) in V. cbn [player_hit_spec v_is_game_over view] in V.
    by rewrite Hhit, orb_true_r in V.
  - apply (f_equal v_player) in V. cbn [player_hit_spec bullet_pass_spec v_player view] in V.
    by rewrite moved_player in V.
Qed.

(** C12: a frame with a spawn-timer tick composes the components in the
    code's order: on a state without aliasing, while playing, outside the
    boss stage, in the case the collision rule covers and with the score
    after the collisions below 500, the frame returns; on values it moves,
    applies the collision and player-hit rules, then spawns one enemy at
    the top at an [x] in range and makes every enemy fire (unless the
    player was just hit), and then applies the held keys. *)
Theorem frame_spawn_refines rand ks g :
  wf g -> playing (view g) = true -> cleanb (moved (view g)) = true -> boss_stage g = false ->
  v_score (bullet_pass_spec (moved (view g))) < 500 ->
  exists g' x, frame rand (mkInput [ENEMY_EVENT] ks) g = inr (tt, g') /\
    0 <= x <= WIDTH - ENEMY_SIZE /\
    view g' = keys_spec ks (spawn_if x (player_hit_spec (bullet_pass_spec (moved (view g))))).
Proof.
  intros Hwf Hpl Hc Hbs Hsc. unfold playing in Hpl. apply andb_true_iff in Hpl as [Hs Ho].
  apply negb_true_iff in Hs, Ho. cbn [view v_in_start_menu v_is_game_over] in Hs, Ho.
  destruct (systems_correct g Hwf Hc) as (g1 & E1 & W1 & V1).
  destruct (moved_fields (view g)) as (Hms & _ & Hmsc & Hmbs).
  assert (Hs1 : in_start_menu g1 = false).
  { apply (f_equal v_in_start_menu) in V1. cbn [view player_hit_spec bullet_pass_spec v_in_start_menu] in V1.
    by rewrite V1, Hms. }
  unfold frame. rewrite py_bind_get. cbn [events keys]. rewrite Hs, Ho, (py_bind_inr _ _ _ _ _ E1).
  cbn [py_for]. rewrite py_bind_assoc.
  pose proof (handle_event_enemy rand g1) as Eh. rewrite Hs1 in Eh. cbn [negb andb] in Eh.
  destruct (is_game_over g1) eqn:Ho1.
  - rewrite (py_bind_inr _ _ _ _ _ Eh), py_bind_ret_l.
    destruct (handle_keys_view ks g1) as (g' & E & V). exists g', 0. split; [exact E|].
    split; [unfold WIDTH, ENEMY_SIZE; lia|]. rewrite V, V1. unfold spawn_if.
    apply (f_equal v_is_game_over) in V1. rewrite <- V1. cbn [view v_is_game_over]. by rewrite Ho1.
  - assert (Hbs1 : boss_stage g1 = false).
    { apply (f_equal v_boss_stage) in V1. cbn [view player_hit_spec bullet_pass_spec v_boss_stage] in V1.
      by rewrite V1, Hmbs. }
    assert (Hsc1 : score g1 < 500).
    { apply (f_equal v_score) in V1. cbn [view player_hit_spec v_score] in V1. by rewrite V1. }
    destruct (on_enemy_timer_spawn_correct rand g1 W1 Hbs1 Hsc1) as (g2 & x & E2 & Hx & V2).
    rewrite (py_bind_inr _ _ _ _ _ (eq_trans Eh E2)), py_bind_ret_l.
    destruct (handle_keys_view ks g2) as (g' & E & V). exists g', x. split; [exact E|].
    split; [exact Hx|]. rewrite V, V2, <- V1. unfold spawn_if.
    cbn [view v_is_game_over]. by rewrite Ho1.
Qed.

(** A playing state: one enemy falling onto the player. *)
Definition hit_sample : Game := {|
  heap := {[ 1%positive := mkRect 690 700 ENEMY_SIZE ENEMY_SIZE ]}; next_obj := 2%positive;
  player := start_player; player_bullets := []; enemy_bullets := []; enemies := [1%positive];
  boss := None; boss_health := 20; boss_stage := false; score := 0;
  is_game_over := false; in_start_menu := false; running := true; rng_n := 0; sounds := [] |}.

Lemma frame_refines_witness :
  wf hit_sample /\ (playing (view hit_sample) = true -> cleanb (moved (view hit_sample)) = true) /\
  exists g', frame (fun _ => 0) (mkInput [] (mkKeys true false)) hit_sample = inr (tt, g') /\
             view g' = frame_spec (mkKeys true false) (view hit_sample).
Proof.
  assert (Hwf : wf hit_sample) by (apply wfb_wf; vm_compute; reflexivity).
  assert (Hc : playing (view hit_sample) = true -> cleanb (moved (view hit_sample)) = true)
    by (intros _; vm_compute; reflexivity).
  split; [exact Hwf|]. split; [exact Hc|].
  exact (frame_refines (fun _ => 0) (mkKeys true false) hit_sample Hwf Hc).
Defined.

Lemma run_refines_spec_witness :
  wf hit_sample /\
  clean_along [mkKeys true false; mkKeys false true; mkKeys false false] (view hit_sample) = true /\
  exists g', run (fun _ => 0) (quiet [mkKeys true false; mkKeys false true; mkKeys false false])
               hit_sample = inr (tt, g') /\
             view g' = run_spec [mkKeys true false; mkKeys false true; mkKeys false false]
                                (view hit_sample).
Proof.
  assert (Hwf : wf hit_sample) by (apply wfb_wf; vm_compute; reflexivity).
  assert (Hc : clean_along [mkKeys true false; mkKeys false true; mkKeys false false]
                           (view hit_sample) = true) by (vm_compute; reflexivity).
  split; [exact Hwf|]. split; [exact Hc|].
  exact (run_refines_spec (fun _ => 0) _ hit_sample Hwf Hc).
Defined.

Lemma keys_ignored_on_hit_witness :
  wf hit_sample /\ playing (view hit_sample) = true /\ cleanb (moved (view hit_sample)) = true /\
  player_hit (bullet_pass_spec (moved (view hit_sample))) = true /\
  exists g', frame (fun _ => 0) (mkInput [] (mkKeys true false)) hit_sample = inr (tt, g') /\
             is_game_over g' = true /\ player g' = player hit_sample.
Proof.
  assert (Hwf : wf hit_sample) by (apply wfb_wf; vm_compute; reflexivity).
  assert (Hp : playing (view hit_sample) = true) by reflexivity.
  assert (Hc : cleanb (moved (view hit_sample)) = true) by (vm_compute; reflexivity).
  assert (Hh : player_hit (bullet_pass_spec (moved (view hit_sample))) = true)
    by (vm_compute; reflexivity).
  split; [exact Hwf|]. split; [exact Hp|]. split; [exact Hc|]. split; [exact Hh|].
  exact (keys_ignored_on_hit (fun _ => 0) (mkKeys true false) hit_sample Hwf Hp Hc Hh).
Defined.

Lemma frame_spawn_refines_witness :
  let g := {| init_game with in_start_menu := false |} in
  wf g /\ playing (view g) = true /\ cleanb (moved (view g)) = true /\ boss_stage g = false /\
  v_score (bullet_pass_spec (moved (view g))) < 500 /\
  exists g' x, frame (fun _ => 7) (mkInput [ENEMY_EVENT] (mkKeys false true)) g = inr (tt, g') /\
    0 <= x <= WIDTH - ENEMY_SIZE /\
    view g' = keys_spec (mkKeys false true) (spawn_if x (player_hit_spec (bullet_pass_spec (moved (view g))))).
Proof.
  intros g.
  assert (Hwf : wf g) by (apply wfb_wf; vm_compute; reflexivity).
  assert (Hp : playing (view g) = true) by reflexivity.
  assert (Hc : cleanb (moved (view g)) = true) by (vm_compute; reflexivity).
  assert (Hb : boss_stage g = false) by reflexivity.
  assert (Hs : v_score (bullet_pass_spec (moved (view g))) < 500) by (vm_compute; reflexivity).
  split_and!; [exact Hwf|exact Hp|exact Hc|exact Hb|exact Hs|].
  exact (frame_spawn_refines (fun _ => 7) (mkKeys false true) g Hwf Hp Hc Hb Hs).
Defined.
