(* ===== verification/Startup.v ===== *)
(** Start-up: the module-level code of game.py that runs before the main
    loop (lines 6-69).

    The script initialises pygame (line 7), opens the window (lines 25-26),
    starts the spawn timer (line 43), loads the font (line 60) and then
    loads four sounds from a hard-coded directory (lines 63-69).  Only then
    do the globals hold their initial values ([init_game]) and the main
    loop start.

    The platform is the record [Setup]: the files that exist, whether a
    video and an audio device are present, and what the start-up has done
    (display and mixer initialised, window, caption, timers, font, sounds
    loaded).  [startup] threads it through the state-and-exception monad of
    [Prelude], one definition per call of the code, in the code's order.
    pygame's behaviour on a missing device or file is taken from pygame 2:
    [pygame.init()] initialises each module whose device is present,
    [set_mode] without a display raises [pygame.error], and
    [mixer.Sound(path)] raises [pygame.error] when the mixer is not
    initialised and [FileNotFoundError] when the file does not exist.
    [os.path.join] joins with the separator [sep] of the platform (a
    variable), as [posixpath] and [ntpath] do for a relative second part.
    [pygame.time.Clock()] (line 29) changes nothing the model observes;
    the clock is modelled in [Timing].

    Theorems: [startup_refines] (the start-up computes its reference
    [startup_spec]: the first failure in the code's order, or the initial
    state and the window, timer, font and sounds set up); and
    [program_without_sound_dir] (on a machine without the developer's
    directory the program raises before its first frame, whatever the
    input: an unguarded load is fatal, against the spec's requirement that
    a failed load be non-fatal); [program_starts] (otherwise the program
    is the main loop from the initial globals); [script_quit_ends] (a
    session with a quit event is over after it: [sys.exit()] or a
    crash). *)
From Stdlib Require Import Ascii.
From S2P Require Import Prelude Game Loop.

(** ** The platform *)

Record Setup := mkSetup {
  su_files : gset string;          (** the files that exist *)
  su_video : bool;                 (** a video device *)
  su_audio : bool;                 (** an audio device *)
  su_display : bool;               (** [pygame.display] initialised *)
  su_mixer : bool;                 (** [pygame.mixer] initialised *)
  su_window : option (Z * Z);      (** the window of [set_mode] *)
  su_caption : string;
  su_timers : list (Event * Z);    (** timers set: event and period in ms *)
  su_font : option Z;              (** the size of the font loaded *)
  su_loaded : list (Sound * string)  (** sounds loaded, with their file *)
}.

Abbreviation SetupM := (St Setup).

(** A machine as the script finds it: nothing initialised yet. *)
Definition fresh_setup (files : gset string) (video audio : bool) : Setup := {|
  su_files := files; su_video := video; su_audio := audio;
  su_display := false; su_mixer := false; su_window := None; su_caption := "";
  su_timers := []; su_font := None; su_loaded := [] |}.

(** ** Constants (lines 15, 41, 63) *)

Definition FPS : Z := 60.
Definition enemy_timer : Z := 1000.
Definition sound_dir : string := "C:\Users\omar\Downloads\python".

(** The sounds of lines 66-69, in the order they are loaded. *)
Definition sound_files : list (Sound * string) :=
  [(bullet_sound, "bullet.wav"); (game_over_sound, "game_over.wav");
   (enemy_hit_sound, "enemy_hit.wav"); (boss_intro_sound, "boss_intro.wav")].

Section Startup.
Variable sep : ascii.

(** [os.path.join(a, b)] for a relative [b]. *)
Definition path_join (a b : string) : string :=
  match String.get (String.length a - 1) a with
  | None => b
  | Some c => if Ascii.eqb c sep then a +:+ b else a +:+ String sep b
  end.

(** ** The calls of the start-up *)

(** [pygame.init()] (line 7). *)
Definition pygame_init : SetupM unit :=
  py_modify (fun s => {| s with su_display := su_video s; su_mixer := su_audio s |}).

(** [pygame.display.set_mode((w, h))] (line 25). *)
Definition set_mode (w h : Z) : SetupM unit :=
  s <- py_get ;;
  if su_display s then py_modify (fun s => {| s with su_window := Some (w, h) |})
  else py_raise (PygameError "No available video device").

(** [pygame.display.set_caption(c)] (line 26). *)
Definition set_caption (c : string) : SetupM unit :=
  py_modify (fun s => {| s with su_caption := c |}).

(** [pygame.time.set_timer(ev, ms)] (line 43): replaces the timer of [ev]. *)
Definition set_timer (ev : Event) (ms : Z) : SetupM unit :=
  py_modify (fun s => {| s with
    su_timers := List.filter (fun t => negb (bool_decide (t.1 = ev))) (su_timers s) ++ [(ev, ms)] |}).

(** [pygame.font.SysFont(None, size)] (line 60). *)
Definition sys_font (size : Z) : SetupM unit :=
  py_modify (fun s => {| s with su_font := Some size |}).

(** [pygame.mixer.Sound(path)]. *)
Definition mixer_sound (path : string) : SetupM unit :=
  s <- py_get ;;
  if negb (su_mixer s) then py_raise (PygameError "mixer not initialized")
  else if bool_decide (path ∈ su_files s) then py_ret tt
  else py_raise (FileNotFoundError path).

(** [snd = pygame.mixer.Sound(os.path.join(sound_dir, file))] (lines 66-69). *)
Definition load_sound (snd : Sound) (file : string) : SetupM unit :=
  let path := path_join sound_dir file in
  mixer_sound path ;;
  py_modify (fun s => {| s with su_loaded := su_loaded s ++ [(snd, path)] |}).

(** Lines 6-69, and the globals of lines 31-57. *)
Definition startup : SetupM Game :=
  pygame_init ;;
  set_mode WIDTH HEIGHT ;;
  set_caption "2D Game" ;;
  set_timer ENEMY_EVENT enemy_timer ;;
  sys_font 36 ;;
  load_sound bullet_sound "bullet.wav" ;;
  load_sound game_over_sound "game_over.wav" ;;
  load_sound enemy_hit_sound "enemy_hit.wav" ;;
  load_sound boss_intro_sound "boss_intro.wav" ;;
  py_ret init_game.

(** The whole script: the start-up, then the main loop from the state it
    leaves. *)
Definition program (rand : nat -> Z) (inputs : list Input) (s : Setup) : PyExc + (unit * Game) :=
  match startup s with
  | inl e => inl e
  | inr (g, _) => run rand inputs g
  end.

(** How the process ends, if it has: [sys.exit()] after the loop exits with
    status 0, an uncaught exception ends it with a traceback, and a loop
    whose flag is still set is still running. *)
Inductive Outcome :=
| Exited (status : Z)
| Crashed (e : PyExc)
| Running (g : Game).

(** Lines 199-201 and 252-253: the main loop, then [pygame.quit()] and
    [sys.exit()] once [running] is false. *)
Definition script (rand : nat -> Z) (inputs : list Input) (s : Setup) : Outcome :=
  match program rand inputs s with
  | inl e => Crashed e
  | inr (_, g) => if running g then Running g else Exited 0
  end.

(** ** The reference: what the start-up promises *)

Definition sound_path (sf : Sound * string) : string := path_join sound_dir sf.2.

(** The first sound file, in the order of the code, that is missing. *)
Definition first_missing (files : gset string) : option string :=
  sound_path <$> List.find (fun sf => negb (bool_decide (sound_path sf ∈ files))) sound_files.

Definition startup_spec (s : Setup) : PyExc + (Game * Setup) :=
  if negb (su_video s) then inl (PygameError "No available video device")
  else if negb (su_audio s) then inl (PygameError "mixer not initialized")
  else match first_missing (su_files s) with
  | Some p => inl (FileNotFoundError p)
  | None => inr (init_game,
      {| s with su_display := true; su_mixer := true; su_window := Some (WIDTH, HEIGHT);
                su_caption := "2D Game"; su_timers := List.filter (fun t => negb (bool_decide (t.1 = ENEMY_EVENT))) (su_timers s) ++
                              [(ENEMY_EVENT, enemy_timer)];
                su_font := Some 36;
                su_loaded := su_loaded s ++ map (fun sf => (sf.1, sound_path sf)) sound_files |})
  end.

(** ** The start-up meets its reference *)

Lemma startup_eq s : startup s = startup_spec s.
Proof.
  unfold startup, startup_spec, first_missing, sound_path, load_sound, mixer_sound, pygame_init,
    set_mode, set_caption, set_timer, sys_font, py_bind, py_get, py_modify, py_ret, py_raise.
  destruct s as [files [] [] ? ? ? ? timers ? loaded]; cbn -[bool_decide path_join];
    try reflexivity.
  repeat (case_bool_decide; cbn -[bool_decide path_join]); try reflexivity.
  by rewrite <- !app_assoc.
Qed.
End Startup.

(** C15: the start-up computes its reference: without a video device it
    raises [pygame.error] at [set_mode]; without an audio device it
    raises [pygame.error] at the first sound; otherwise it raises
    [FileNotFoundError] for the first missing sound file in the order of
    lines 66-69; and when all are there it opens a 1366x768 window titled
    "2D Game", sets the 1000 ms spawn timer, loads the 36-point font and
    the four sounds, and leaves the globals in their initial state. *)
Theorem startup_refines sep s : startup sep s = startup_spec sep s.
Proof. exact (startup_eq sep s). Qed.

Lemma program_startup_error sep rand inputs s e :
  startup_spec sep s = inl e -> program sep rand inputs s = inl e.
Proof. unfold program. by rewrite startup_eq; intros ->. Qed.

(** C14: a missing sound file is fatal: on a machine with a video and an
    audio device where one of the four files under the hard-coded
    directory of line 63 is missing, the program raises
    [FileNotFoundError] for the first one missing before its first frame,
    whatever the input.  The spec requires a failed load to be non-fatal
    (the game goes on without sound). *)
Theorem program_missing_sound_fatal sep rand inputs s p :
  su_video s = true -> su_audio s = true -> first_missing sep (su_files s) = Some p ->
  program sep rand inputs s = inl (FileNotFoundError p).
Proof.
  intros Hv Ha Hm. apply program_startup_error. unfold startup_spec. by rewrite Hv, Ha, Hm.
Qed.

(** On a POSIX machine without the developer's directory. *)
Lemma program_missing_sound_fatal_witness :
  su_video (fresh_setup ∅ true true) = true /\ su_audio (fresh_setup ∅ true true) = true /\
  first_missing "/" (su_files (fresh_setup ∅ true true)) =
    Some "C:\Users\omar\Downloads\python/bullet.wav" /\
  program "/" (fun _ => 0) [] (fresh_setup ∅ true true) =
    inl (FileNotFoundError "C:\Users\omar\Downloads\python/bullet.wav").
Proof.
  assert (Hm : first_missing "/" (su_files (fresh_setup ∅ true true)) =
                 Some "C:\Users\omar\Downloads\python/bullet.wav") by (vm_compute; reflexivity).
  split; [reflexivity|]. split; [reflexivity|]. split; [exact Hm|].
  exact (program_missing_sound_fatal "/" (fun _ => 0) [] (fresh_setup ∅ true true) _ eq_refl eq_refl Hm).
Defined.

(** C26: with both devices and the four sound files present, the program is
    the main loop run from the initial globals: the start-up raises
    nothing and changes no global. *)
Theorem program_starts sep rand inputs s :
  su_video s = true -> su_audio s = true -> first_missing sep (su_files s) = None ->
  program sep rand inputs s = run rand inputs init_game.
Proof.
  intros Hv Ha Hm. unfold program. rewrite startup_eq. unfold startup_spec. by rewrite Hv, Ha, Hm.
Qed.

(** The developer's Windows machine. *)
Definition developer_files : gset string :=
  {[ "C:\Users\omar\Downloads\python\bullet.wav"; "C:\Users\omar\Downloads\python\game_over.wav";
     "C:\Users\omar\Downloads\python\enemy_hit.wav"; "C:\Users\omar\Downloads\python\boss_intro.wav" ]}.

Lemma program_starts_witness :
  su_video (fresh_setup developer_files true true) = true /\
  su_audio (fresh_setup developer_files true true) = true /\
  first_missing "\" (su_files (fresh_setup developer_files true true)) = None /\
  program "\" (fun _ => 0) [] (fresh_setup developer_files true true) = run (fun _ => 0) [] init_game.
Proof.
  assert (Hm : first_missing "\" (su_files (fresh_setup developer_files true true)) = None)
    by (vm_compute; reflexivity).
  split; [reflexivity|]. split; [reflexivity|]. split; [exact Hm|].
  exact (program_starts "\" (fun _ => 0) [] (fresh_setup developer_files true true) eq_refl eq_refl Hm).
Defined.

(** C37: a session with a quit event ends: if the inputs hold a frame whose
    events contain [QUIT], the script is not running after them; it has
    exited with status 0 or crashed, whatever came before and after. *)
Theorem script_quit_ends sep rand s xs inp ys :
  QUIT ∈ events inp ->
  script sep rand (xs ++ inp :: ys) s = Exited 0 \/ exists e, script sep rand (xs ++ inp :: ys) s = Crashed e.
Proof.
  intros Hq. unfold script, program.
  destruct (startup sep s) as [e|[g0 s0]]; [by right; exists e|].
  rewrite run_split. destruct (run rand xs g0) as [e|[[] g1]] eqn:E1;
    [rewrite (py_bind_inl _ _ _ _ E1); by right; exists e|rewrite (py_bind_inr _ _ _ _ _ E1)].
  destruct (running g1) eqn:Hr1; [|rewrite run_stopped, Hr1 by done; by left].
  cbn [run]. rewrite py_bind_get, Hr1.
  destruct (frame rand inp g1) as [e|[[] g2]] eqn:E2;
    [rewrite (py_bind_inl _ _ _ _ E2); by right; exists e|rewrite (py_bind_inr _ _ _ _ _ E2)].
  pose proof (frame_quit_stops rand inp g1 g2 Hq E2) as Hr2.
  rewrite run_stopped, Hr2 by done. by left.
Qed.

Lemma script_quit_ends_witness :
  QUIT ∈ events (mkInput [QUIT] (mkKeys false false)) /\
  (script "\" (fun _ => 0) ([] ++ mkInput [QUIT] (mkKeys false false) :: [])
     (fresh_setup developer_files true true) = Exited 0 \/
   exists e, script "\" (fun _ => 0) ([] ++ mkInput [QUIT] (mkKeys false false) :: [])
     (fresh_setup developer_files true true) = Crashed e).
Proof.
  assert (Hq : QUIT ∈ events (mkInput [QUIT] (mkKeys false false))) by (cbn; set_solver).
  split; [exact Hq|].
  exact (script_quit_ends "\" (fun _ => 0) (fresh_setup developer_files true true) [] _ [] Hq).
Defined.
