(* ===== verification/Timing.v ===== *)
(** Timing: the frame clock and the spawn timer (game.py lines 15, 29,
    41-43, 220 and 250).

    Each iteration of the main loop ends with [clock.tick(FPS)], which
    waits until [int(1000 / FPS)] = 16 ms have passed since the previous
    tick.  [pygame.time.set_timer(enemy_event, 1000)] makes SDL post
    [enemy_event] every 1000 ms from the start, and [pygame.event.get()]
    (line 220) returns the events posted since the previous call.  So the
    spawn events a frame handles are determined by the time of its
    [event.get] call.

    Model: the clock and the timer start at time 0 (lines 29 and 43 run
    within the same millisecond).  Frame [k] starts at [frame_start work k]
    and does [work k] ms of work before its [event.get], which runs at
    [get_time work k].  [work] is an oracle, like [rand]: the theorems
    hold for every amount of work.  The frame then ends at its tick:
    [tick_end].  The events of frame [k] are the user's events (an oracle)
    followed by one [ENEMY_EVENT] per multiple of 1000 ms in
    (previous [event.get], this [event.get]].  Where SDL places the timer
    events among the user's is not modelled; they are put last.

    Theorems: [timer_count] (the timer events delivered by the first n
    frames are exactly the whole seconds elapsed: none lost, none
    duplicated); [timer_rate] (at 60 frames per second the first n frames
    get between 16 (n - 1) / 1000 and 16 n / 1000 spawn events);
    [frame_start_steady] (with at most 16 ms of work per frame
    the loop runs at exactly 16 ms per frame); [timer_at_most_one]
    (at that rate no frame gets two spawn events);
    [timer_within_64_frames] (at that rate every 64 consecutive frames
    get at least one). *)
From S2P Require Import Prelude Game Loop Startup.

(** ** The clock and the timer *)

(** [clock.tick(FPS)] waits for [int((1.0 / FPS) * 1000)] ms. *)
Definition tick_ms : Z := 1000 / FPS.

(** [clock.tick(FPS)] at the end of a frame that started at [t] and worked
    [w] ms: it returns once [tick_ms] ms have passed since [t]. *)
Definition tick_end (t w : Z) : Z := t + Z.max w tick_ms.

Section Timing.
Variable work : nat -> Z.
Hypothesis work_nonneg : forall k, 0 <= work k.

Fixpoint frame_start (k : nat) : Z :=
  match k with
  | O => 0
  | S k' => tick_end (frame_start k') (work k')
  end.

(** The time of the [event.get()] of frame [k]. *)
Definition get_time (k : nat) : Z := frame_start k + work k.

(** The time of the previous [event.get()]: the timer's start for frame 0. *)
Definition prev_get (k : nat) : Z :=
  match k with O => 0 | S k' => get_time k' end.

(** The number of timer posts in (a, b]: one per multiple of the period. *)
Definition fired (a b : Z) : nat := Z.to_nat (b / enemy_timer - a / enemy_timer).

Definition timer_events (k : nat) : list Event := repeat ENEMY_EVENT (fired (prev_get k) (get_time k)).

(** The input of frame [k]: the user's events, then the timer's, and the
    held keys. *)
Definition timed_input (user : nat -> list Event) (held : nat -> Keys) (k : nat) : Input :=
  mkInput (user k ++ timer_events k) (held k).

Definition timed_inputs (user : nat -> list Event) (held : nat -> Keys) (n : nat) : list Input :=
  map (timed_input user held) (seq 0 n).

(** The spawn events handled by the first [n] frames. *)
Definition spawn_count (user : nat -> list Event) (held : nat -> Keys) (n : nat) : nat :=
  length (List.filter (fun ev => bool_decide (ev = ENEMY_EVENT))
                      (concat (map events (timed_inputs user held n)))).

(** ** Lemmas *)

Lemma get_time_mono k : get_time k <= get_time (S k).
Proof. unfold get_time. cbn [frame_start]. unfold tick_end. pose proof (work_nonneg (S k)). lia. Qed.

Lemma prev_get_le k : prev_get k <= get_time k.
Proof. destruct k as [|k]; cbn [prev_get]; [unfold get_time; cbn; apply work_nonneg|apply get_time_mono]. Qed.

Lemma fired_Z a b : a <= b -> Z.of_nat (fired a b) = b / enemy_timer - a / enemy_timer.
Proof.
  intros Hab. unfold fired. rewrite Z2Nat.id; [done|].
  assert (a / enemy_timer <= b / enemy_timer) by (apply Z.div_le_mono; [done|lia]). lia.
Qed.

(** The events of the frames before [n], in order. *)
Lemma timed_inputs_S user held n :
  timed_inputs user held (S n) = timed_inputs user held n ++ [timed_input user held n].
Proof. unfold timed_inputs. by rewrite seq_S, map_app. Qed.

Lemma filter_enemy_repeat n :
  List.filter (fun ev => bool_decide (ev = ENEMY_EVENT)) (repeat ENEMY_EVENT n) = repeat ENEMY_EVENT n.
Proof. induction n as [|n IH]; cbn; [done|]. by rewrite IH. Qed.

Lemma filter_enemy_none evs :
  ENEMY_EVENT ∉ evs -> List.filter (fun ev => bool_decide (ev = ENEMY_EVENT)) evs = [].
Proof.
  induction evs as [|ev evs IH]; intros Hn; cbn; [done|].
  apply not_elem_of_cons in Hn as [Hne Hn]. rewrite bool_decide_false by done. by apply IH.
Qed.

(** The spawn events of frame [n] are its timer events. *)
Lemma spawn_count_S user held n :
  (forall k, ENEMY_EVENT ∉ user k) ->
  spawn_count user held (S n) = (spawn_count user held n + fired (prev_get n) (get_time n))%nat.
Proof.
  intros Hu. unfold spawn_count. rewrite timed_inputs_S, map_app, concat_app, List.filter_app,
    length_app. cbn [map concat events timed_input].
  rewrite app_nil_r, List.filter_app, (filter_enemy_none (user n)) by apply Hu.
  unfold timer_events. rewrite filter_enemy_repeat. cbn [app]. by rewrite repeat_length.
Qed.

(** Two times less than a period apart are at most one post apart; two
    times a period apart or more are at least one post apart. *)
Lemma div_step_le p g : g < p + enemy_timer -> g / enemy_timer <= p / enemy_timer + 1.
Proof.
  intros H. rewrite <- (Z.div_add p 1 enemy_timer) by done.
  apply Z.div_le_mono; [done|lia].
Qed.

Lemma div_step_ge p g : p + enemy_timer <= g -> p / enemy_timer + 1 <= g / enemy_timer.
Proof.
  intros H. rewrite <- (Z.div_add p 1 enemy_timer) by done.
  apply Z.div_le_mono; [done|lia].
Qed.

(** ** At 60 frames per second *)

Lemma tick_ms_16 : tick_ms = 16.
Proof. reflexivity. Qed.

Section Steady.
Hypothesis work_steady : forall k, work k <= tick_ms.

Lemma frame_start_steady k : frame_start k = 16 * Z.of_nat k.
Proof.
  induction k as [|k IH]; [done|]. cbn [frame_start]. unfold tick_end. rewrite IH.
  pose proof (work_steady k). rewrite tick_ms_16 in *. lia.
Qed.

Lemma get_time_steady k : 16 * Z.of_nat k <= get_time k <= 16 * Z.of_nat k + 16.
Proof.
  unfold get_time. rewrite frame_start_steady. pose proof (work_steady k). pose proof (work_nonneg k).
  rewrite tick_ms_16 in *. lia.
Qed.

Lemma prev_get_steady k : prev_get k <= 16 * Z.of_nat k.
Proof. destruct k as [|k]; cbn [prev_get]; [done|]. pose proof (get_time_steady k). lia. Qed.

(** Frames without timer events leave the seconds elapsed at the last
    [event.get]. *)
Lemma no_fire_span k m :
  (forall j, (k <= j < k + m)%nat -> fired (prev_get j) (get_time j) = 0%nat) ->
  prev_get (k + m) / enemy_timer = prev_get k / enemy_timer.
Proof.
  induction m as [|m IH]; intros H0; [by rewrite Nat.add_0_r|].
  rewrite Nat.add_succ_r. cbn [prev_get].
  pose proof (fired_Z _ _ (prev_get_le (k + m))) as Hf. rewrite H0 in Hf by lia.
  rewrite <- IH by (intros j Hj; apply H0; lia). lia.
Qed.
End Steady.
End Timing.

(** The spawn timer is neither lost nor duplicated: when the user's events
    hold no spawn event, the frames before frame [n] receive exactly as
    many spawn events as whole seconds had passed at the [event.get] of
    frame [n - 1], for every amount of work per frame. *)
Lemma timer_count work user held n :
  (forall k, 0 <= work k) -> (forall k, ENEMY_EVENT ∉ user k) ->
  Z.of_nat (spawn_count work user held n) = prev_get work n / enemy_timer.
Proof.
  intros Hw Hu. induction n as [|n IH]; [done|].
  rewrite spawn_count_S, Nat2Z.inj_add, IH, fired_Z by auto using prev_get_le.
  cbn [prev_get]. lia.
Qed.

(** C27: at 60 frames per second (at most 16 ms of work per frame, the
    16 ms of [clock.tick(60)]) and with the 1000 ms timer of line 43, the
    frames before frame [n] receive between (16 (n - 1)) / 1000 and
    (16 n) / 1000 spawn events: one enemy wave about every 62.5 frames,
    since the [event.get] of frame [n - 1] runs between 16 (n - 1) and
    16 n ms after the start. *)
Theorem timer_rate work user held n :
  (forall k, 0 <= work k) -> (forall k, work k <= tick_ms) -> (forall k, ENEMY_EVENT ∉ user k) ->
  (16 * (Z.of_nat n - 1)) / 1000 <= Z.of_nat (spawn_count work user held n) <= (16 * Z.of_nat n) / 1000.
Proof.
  intros Hw Hs Hu. rewrite (timer_count work user held n Hw Hu). unfold enemy_timer.
  destruct n as [|k]; [split; compute; discriminate|]. cbn [prev_get]. rewrite Nat2Z.inj_succ.
  pose proof (get_time_steady work Hw Hs k) as Hg.
  split; apply Z.div_le_mono; lia.
Qed.

Lemma timer_rate_witness :
  (forall k, 0 <= (fun _ : nat => 3) k) /\ (forall k, (fun _ : nat => 3) k <= tick_ms) /\
  (forall k, ENEMY_EVENT ∉ (fun _ : nat => [KEYDOWN K_SPACE]) k) /\
  (16 * (Z.of_nat 200 - 1)) / 1000 <=
    Z.of_nat (spawn_count (fun _ => 3%Z) (fun _ => [KEYDOWN K_SPACE]) (fun _ => mkKeys true false) 200)
    <= (16 * Z.of_nat 200) / 1000.
Proof.
  assert (Hw : forall k, 0 <= (fun _ : nat => 3) k) by (intros k; cbn; lia).
  assert (Hs : forall k, (fun _ : nat => 3) k <= tick_ms) by (intros k; rewrite tick_ms_16; cbn; lia).
  assert (Hu : forall k, ENEMY_EVENT ∉ (fun _ : nat => [KEYDOWN K_SPACE]) k)
    by (intros k; cbn; set_solver).
  split; [exact Hw|]. split; [exact Hs|]. split; [exact Hu|].
  exact (timer_rate _ _ _ 200 Hw Hs Hu).
Defined.

(** C28: at 60 frames per second (at most 16 ms of work per frame) no
    frame receives two spawn events: the [event.get] calls of two
    consecutive frames are at most 32 ms apart. *)
Theorem timer_at_most_one work k :
  (forall k, 0 <= work k) -> (forall k, work k <= tick_ms) ->
  (length (timer_events work k) <= 1)%nat.
Proof.
  intros Hw Hs. unfold timer_events. rewrite repeat_length.
  assert (Hle : prev_get work k <= get_time work k) by (apply prev_get_le, Hw).
  assert (Hspan : get_time work k < prev_get work k + enemy_timer).
  { pose proof (get_time_steady work Hw Hs k) as Hg.
    destruct k as [|k]; cbn [prev_get]; [unfold enemy_timer; lia|].
    pose proof (get_time_steady work Hw Hs k). unfold enemy_timer. lia. }
  pose proof (fired_Z _ _ Hle) as Hf. pose proof (div_step_le _ _ Hspan). lia.
Qed.

Lemma timer_at_most_one_witness :
  (forall k, 0 <= (fun _ : nat => 8) k) /\ (forall k, (fun _ : nat => 8) k <= tick_ms) /\
  (length (timer_events (fun _ => 8%Z) 62) <= 1)%nat.
Proof.
  assert (Hw : forall k, 0 <= (fun _ : nat => 8) k) by (intros k; cbn; lia).
  assert (Hs : forall k, (fun _ : nat => 8) k <= tick_ms) by (intros k; rewrite tick_ms_16; cbn; lia).
  split; [exact Hw|]. split; [exact Hs|]. exact (timer_at_most_one _ 62 Hw Hs).
Defined.

(** C29: at 60 frames per second every 64 consecutive frames receive a
    spawn event: 64 frames last 1024 ms, more than the timer's period. *)
Theorem timer_within_64_frames work user held k :
  (forall k, 0 <= work k) -> (forall k, work k <= tick_ms) ->
  exists j, (k <= j < k + 64)%nat /\ ENEMY_EVENT ∈ events (timed_input work user held j).
Proof.
  intros Hw Hs.
  destruct (List.find (fun j => negb (Nat.eqb (fired (prev_get work j) (get_time work j)) 0))
              (seq k 64)) as [j|] eqn:Ef.
  - apply find_some in Ef as [Hj Hf]. apply in_seq in Hj.
    exists j. split; [lia|]. cbn. apply elem_of_app. right. unfold timer_events.
    destruct (fired _ _); [done|]. apply elem_of_cons. by left.
  - exfalso. pose proof (find_none _ _ Ef) as Hn.
    assert (Hz : prev_get work (k + 64) / enemy_timer = prev_get work k / enemy_timer).
    { apply no_fire_span; [exact Hw|]. intros j Hj.
      specialize (Hn j ltac:(apply in_seq; lia)). cbn in Hn.
      by apply negb_false_iff, Nat.eqb_eq in Hn. }
    replace (k + 64)%nat with (S (k + 63)) in Hz by lia. cbn [prev_get] in Hz.
    pose proof (get_time_steady work Hw Hs (k + 63)). pose proof (prev_get_steady work Hw Hs k).
    assert (Hge : prev_get work k + enemy_timer <= get_time work (k + 63)) by (unfold enemy_timer; lia).
    pose proof (div_step_ge _ _ Hge). lia.
Qed.

Lemma timer_within_64_frames_witness :
  (forall k, 0 <= (fun _ : nat => 16) k) /\ (forall k, (fun _ : nat => 16) k <= tick_ms) /\
  exists j, (100 <= j < 100 + 64)%nat /\
    ENEMY_EVENT ∈ events (timed_input (fun _ => 16%Z) (fun _ => []) (fun _ => mkKeys false false) j).
Proof.
  assert (Hw : forall k, 0 <= (fun _ : nat => 16) k) by (intros k; cbn; lia).
  assert (Hs : forall k, (fun _ : nat => 16) k <= tick_ms) by (intros k; rewrite tick_ms_16; cbn; lia).
  split; [exact Hw|]. split; [exact Hs|].
  exact (timer_within_64_frames _ _ _ 100 Hw Hs).
Defined.
