(* ===== verification/Invariants.v ===== *)
(** Invariants of whole runs of the main loop.

    [session_inv]: the boss's health is always [BOSS_MAX_HEALTH] and the
    score a non-negative multiple of 10.  Both follow from the collision
    code: the only statement that lowers [boss_health] (line 138) is
    followed by the undefined [boss_hit_sound] (line 139), so a state in
    which the health is lower is never the state of a run that goes on; and
    the only other change of the score is [+= 10] per enemy hit and the
    reset to 0 of [restart_game].  The proof is a guarantee ([py_guar]) of
    every operation for the relation "keeps [session_inv]".

    [run_no_enemy_after_500]: past 500 points, in the game, the enemy
    list only loses entries in every run without an R key press: the
    timer's test [score < 500] (line 236) stays false, since the score only
    grows until a restart, and a restart needs the menu, which only R on
    the game-over screen reaches. *)
From S2P Require Import Prelude Rect Game Motion Collision Spawner Loop.

Definition session_inv (g : Game) : Prop :=
  boss_health g = BOSS_MAX_HEALTH /\ 0 <= score g /\ score g mod 10 = 0.

Definition inv_rel (g g' : Game) : Prop := session_inv g -> session_inv g'.

#[export] Instance inv_rel_preorder : PreOrder inv_rel.
Proof. split; [intros g H; exact H | intros g1 g2 g3 H1 H2 H; auto]. Qed.

(** The lists' setters leave the two globals alone. *)
Definition keeps_session {K V} `{EqDecision V} (L : ListField K V) : Prop :=
  forall l g, boss_health (lf_set L l g) = boss_health g /\ score (lf_set L l g) = score g.

Lemma keeps_PB : keeps_session PB.
Proof. intros l []. done. Qed.
Lemma keeps_EB : keeps_session EB.
Proof. intros l []. done. Qed.
Lemma keeps_EN : keeps_session EN.
Proof. intros l []. done. Qed.

Lemma inv_lf_remove {K V} `{EqDecision V} (L : ListField K V) k :
  keeps_session L -> py_guar inv_rel any_exc (lf_remove L k).
Proof.
  intros HL g. destruct (lf_remove_cases L k g) as [-> | (l & -> & _)]; [done|].
  destruct (HL l g) as [Hh Hs]. unfold inv_rel, session_inv. by rewrite Hh, Hs.
Qed.

Lemma inv_lf_append {K V} `{EqDecision V} (L : ListField K V) k :
  keeps_session L -> py_guar inv_rel any_exc (lf_append L k).
Proof.
  intros HL g. destruct (HL (lf_get L g ++ [k]) g) as [Hh Hs].
  unfold inv_rel, session_inv. cbn. by rewrite Hh, Hs.
Qed.

Lemma mod10_add10 s : s mod 10 = 0 -> (s + 10) mod 10 = 0.
Proof. intros H. rewrite <- (Z.mul_1_l 10) at 1. by rewrite Z.mod_add. Qed.

Local Ltac inv_same :=
  intros [] (Hh & Hs & Hm); unfold session_inv, BOSS_MAX_HEALTH in *; cbn in *;
  split_and!; first [assumption | reflexivity | lia | by apply mod10_add10].

#[local] Hint Resolve inv_lf_remove inv_lf_append keeps_PB keeps_EB keeps_EN : guar.
#[local] Hint Extern 1 (py_guar inv_rel _ (py_modify _)) => apply guar_modify; inv_same : guar.
#[local] Hint Extern 1 (py_guar inv_rel _ (rect_update _ _)) => apply guar_modify; inv_same : guar.
#[local] Hint Extern 1 (py_guar inv_rel _ (play _)) => apply guar_modify; inv_same : guar.
#[local] Hint Extern 1 (py_guar inv_rel _ (new_rect _)) => intros ? H; exact H : guar.
#[local] Hint Extern 1 (py_guar inv_rel _ (randint _ _ _)) => intros ? H; exact H : guar.
#[local] Hint Extern 1 (py_guar inv_rel _ (deref _)) => apply guar_gets; apply _ : guar.
#[local] Hint Extern 1 True => exact I : guar.

Lemma inv_handle_event rand ev : py_guar inv_rel any_exc (handle_event rand ev).
Proof.
  unfold handle_event, restart_game, fire_bullet, on_enemy_timer, spawn_enemy, enemy_fire,
    enemy_fire_one, spawn_boss.
  destruct ev; guar_auto.
Qed.

#[local] Hint Resolve inv_handle_event : guar.

Lemma inv_frame rand inp : py_guar inv_rel any_exc (frame rand inp).
Proof.
  unfold frame, handle_keys, move_bullets, move_player_bullet, move_enemy_bullet, move_enemies,
    move_enemy, move_boss, reset_boss, check_collisions, check_player_bullets, check_player_hit,
    check_bullet, bullet_hits_enemy, bullet_hits_boss, game_over.
  guar_auto. all: destruct x as [[o dx] dy]; guar_auto.
Qed.

Lemma inv_run rand inputs : py_guar inv_rel any_exc (run rand inputs).
Proof.
  induction inputs as [|inp rest IH]; cbn; [guar_auto|].
  apply guar_get_bind. intros g. destruct (running g); [|by intros ?].
  assert (H : py_guar inv_rel any_exc (frame rand inp ;; run rand rest))
    by (guar_bind_tac; [apply inv_frame|intros _; exact IH]).
  exact (H g).
Qed.

(** C7: in every run of the main loop that does not end in an exception,
    the boss's health stays at its maximum 20 and the score is a
    non-negative multiple of 10: a boss is never damaged, and the boss-kill
    bonus is never paid, in a game that goes on. *)
Theorem run_session_inv rand inputs g g' :
  session_inv g -> run rand inputs g = inr (tt, g') -> session_inv g'.
Proof. intros Hi E. exact (guar_run inv_rel any_exc _ _ _ _ (inv_run rand inputs) E Hi). Qed.

Lemma run_session_inv_witness :
  session_inv init_game /\
  run (fun _ => 5) wf_sample_inputs init_game =
    inr (tt, run_result (run (fun _ => 5) wf_sample_inputs init_game)) /\
  session_inv (run_result (run (fun _ => 5) wf_sample_inputs init_game)).
Proof.
  assert (H0 : session_inv init_game) by (unfold session_inv; cbn; split_and!; [reflexivity|lia|reflexivity]).
  assert (E : run (fun _ => 5) wf_sample_inputs init_game =
                inr (tt, run_result (run (fun _ => 5) wf_sample_inputs init_game)))
    by (vm_compute; reflexivity).
  split; [exact H0|]. split; [exact E|].
  exact (run_session_inv (fun _ => 5) wf_sample_inputs _ _ H0 E).
Defined.

(** ** No regular enemy after 500 points *)

(** In the game, with at least 500 points. *)
Definition past_500 (g : Game) : Prop := in_start_menu g = false /\ 500 <= score g.

(** From a state past 500 points: still past 500, and the enemy list only
    loses entries. *)
Definition no_spawn_rel (g g' : Game) : Prop :=
  past_500 g -> past_500 g' /\ enemies g' `sublist_of` enemies g.

#[export] Instance no_spawn_rel_preorder : PreOrder no_spawn_rel.
Proof.
  split; [intros g H; split; [exact H|reflexivity]|].
  intros g1 g2 g3 H1 H2 H. destruct (H1 H) as [H' S1]. destruct (H2 H') as [H'' S2].
  split; [exact H''|by etrans].
Qed.

(** The lists other than [enemies] do not matter. *)
Lemma ns_set_PB l g : no_spawn_rel g (lf_set PB l g).
Proof. intros H. destruct g. by split. Qed.
Lemma ns_set_EB l g : no_spawn_rel g (lf_set EB l g).
Proof. intros H. destruct g. by split. Qed.

Lemma ns_lf_remove_EN o : py_guar no_spawn_rel any_exc (lf_remove EN o).
Proof.
  intros g. unfold lf_remove. destruct (py_remove _ _) eqn:E; [|done].
  apply py_remove_sublist in E. intros H. destruct g. by split.
Qed.

Lemma ns_lf_remove {K V} `{EqDecision V} (L : ListField K V) k :
  (forall l g, no_spawn_rel g (lf_set L l g)) -> py_guar no_spawn_rel any_exc (lf_remove L k).
Proof. intros HL g. unfold lf_remove. destruct (py_remove _ _); [apply HL|done]. Qed.

Lemma ns_lf_append {K V} `{EqDecision V} (L : ListField K V) k :
  (forall l g, no_spawn_rel g (lf_set L l g)) -> py_guar no_spawn_rel any_exc (lf_append L k).
Proof. intros HL g. exact (HL (lf_get L g ++ [k]) g). Qed.

Local Ltac ns_fields :=
  intros [? ?]; split; [split|]; simpl in *; [assumption|lia|reflexivity].
Local Ltac ns_same := intros []; ns_fields.

#[local] Hint Resolve ns_set_PB ns_set_EB ns_lf_remove_EN : guar.
#[local] Hint Extern 2 (py_guar no_spawn_rel _ (lf_remove _ _)) => apply ns_lf_remove; solve [eauto with guar] : guar.
#[local] Hint Extern 2 (py_guar no_spawn_rel _ (lf_append _ _)) => apply ns_lf_append; solve [eauto with guar] : guar.
#[local] Hint Extern 1 (py_guar no_spawn_rel _ (py_modify _)) => apply guar_modify; ns_same : guar.
#[local] Hint Extern 1 (py_guar no_spawn_rel _ (rect_update _ _)) => apply guar_modify; ns_same : guar.
#[local] Hint Extern 1 (py_guar no_spawn_rel _ (play _)) => apply guar_modify; ns_same : guar.
#[local] Hint Extern 1 (py_guar no_spawn_rel _ (new_rect _)) => intros []; ns_fields : guar.
#[local] Hint Extern 1 (py_guar no_spawn_rel _ (randint _ _ _)) => intros []; ns_fields : guar.
#[local] Hint Extern 1 (py_guar no_spawn_rel _ (deref _)) => apply guar_gets; apply _ : guar.
#[local] Hint Extern 1 True => exact I : guar.

(** Past 500 points a timer tick spawns no enemy (the test [score < 500] of
    line 236), only perhaps a boss. *)
Lemma ns_timer rand : py_guar no_spawn_rel any_exc (on_enemy_timer rand).
Proof.
  unfold on_enemy_timer. apply guar_get_bind. intros g.
  destruct (negb (boss_stage g) && (score g <? 500)) eqn:Hc.
  - match goal with |- match ?t with _ => _ end => destruct t as [e|[[] g']] end; [done|].
    intros [_ Hs]. apply andb_true_iff in Hc as [_ Hc%Z.ltb_lt]. lia.
  - cbn [py_when]. rewrite py_bind_ret_l.
    assert (H : py_guar no_spawn_rel any_exc
      (g' <- py_get ;; py_when ((500 <=? score g') && negb (boss_truthy (boss g'))) (spawn_boss rand)))
      by (unfold spawn_boss; guar_auto).
    exact (H g).
Qed.

#[local] Hint Resolve ns_timer : guar.

(** Every event but R: R on the game-over screen is the only way back to
    the menu, and so to a restart. *)
Lemma ns_handle_event rand ev : ev <> KEYDOWN K_r -> py_guar no_spawn_rel any_exc (handle_event rand ev).
Proof.
  intros Hr. unfold handle_event.
  guar_bind_tac; [guar_auto|intros _]. guar_bind_tac; [|intros _; guar_auto].
  destruct ev as [|k| |]; try (apply guar_ret, _).
  apply guar_get_bind. intros g. destruct (in_start_menu g) eqn:Hm.
  - match goal with |- match ?t with _ => _ end => destruct t as [e|[[] g']] end; [done|].
    intros [Hm' _]. congruence.
  - rewrite (bool_decide_false (k = K_r)) by congruence. cbn [andb py_when].
    assert (H : py_guar no_spawn_rel any_exc
      ((if bool_decide (k = K_SPACE) then py_when (negb (is_game_over g)) fire_bullet else py_ret tt) ;;
       g' <- py_get ;; py_ret tt))
      by (unfold fire_bullet; guar_auto).
    exact (H g).
Qed.

Lemma ns_frame rand inp :
  KEYDOWN K_r ∉ events inp -> py_guar no_spawn_rel any_exc (frame rand inp).
Proof.
  intros Hr. unfold frame.
  guar_bind_tac; [guar_auto|intros g]. guar_bind_tac.
  - unfold move_bullets, move_player_bullet, move_enemy_bullet, move_enemies,
      move_enemy, move_boss, reset_boss, check_collisions, check_player_bullets, check_player_hit,
      check_bullet, bullet_hits_enemy, bullet_hits_boss, game_over.
    guar_auto. all: destruct x as [[o dx] dy]; guar_auto.
  - intros _. guar_bind_tac; [|intros _; unfold handle_keys; guar_auto].
    apply guar_for_Forall; [apply _|]. rewrite Forall_forall. intros ev Hev. apply ns_handle_event. by intros ->.
Qed.

Lemma ns_run rand inputs :
  Forall (fun inp => KEYDOWN K_r ∉ events inp) inputs -> py_guar no_spawn_rel any_exc (run rand inputs).
Proof.
  induction 1 as [|inp rest Hr _ IH]; cbn; [guar_auto|].
  apply guar_get_bind. intros g. destruct (running g); [|by intros ?; split].
  assert (H : py_guar no_spawn_rel any_exc (frame rand inp ;; run rand rest))
    by (guar_bind_tac; [by apply ns_frame|intros _; exact IH]).
  exact (H g).
Qed.

(** C22: once the score has reached 500 the code never spawns a regular
    enemy again ([score < 500] at line 236 is never true again): in every
    run from a game past 500 points in which R is never pressed (R on the
    game-over screen is the only way back to the menu, and so to a
    restart), the enemy list only loses entries, whatever the timer ticks
    and the other inputs. *)
Theorem run_no_enemy_after_500 rand inputs g g' :
  in_start_menu g = false -> 500 <= score g ->
  Forall (fun inp => KEYDOWN K_r ∉ events inp) inputs ->
  run rand inputs g = inr (tt, g') -> enemies g' `sublist_of` enemies g.
Proof.
  intros Hm Hs Hr E. exact (proj2 (guar_run _ _ _ _ _ _ (ns_run rand inputs Hr) E (conj Hm Hs))).
Qed.

(** 500 points, one enemy on the field, no boss yet. *)
Definition past_500_sample : Game := {|
  heap := {[1%positive := mkRect 100 100 ENEMY_SIZE ENEMY_SIZE]}; next_obj := 2%positive;
  player := start_player; player_bullets := []; enemy_bullets := []; enemies := [1%positive];
  boss := None; boss_health := 20; boss_stage := false;
  score := 500; is_game_over := false; in_start_menu := false; running := true;
  rng_n := 0; sounds := [] |}.

(** Three frames, each with a timer tick and a space press. *)
Definition ticks_no_r : list Input :=
  repeat (mkInput [ENEMY_EVENT; KEYDOWN K_SPACE] (mkKeys false true)) 3.

Lemma run_no_enemy_after_500_witness :
  in_start_menu past_500_sample = false /\ 500 <= score past_500_sample /\
  Forall (fun inp => KEYDOWN K_r ∉ events inp) ticks_no_r /\
  run (fun _ => 7) ticks_no_r past_500_sample =
    inr (tt, run_result (run (fun _ => 7) ticks_no_r past_500_sample)) /\
  enemies (run_result (run (fun _ => 7) ticks_no_r past_500_sample)) `sublist_of` enemies past_500_sample.
Proof.
  assert (Hs : 500 <= score past_500_sample) by (cbn; lia).
  assert (Hr : Forall (fun inp => KEYDOWN K_r ∉ events inp) ticks_no_r)
    by (cbn; repeat constructor; set_solver).
  assert (E : run (fun _ => 7) ticks_no_r past_500_sample =
                inr (tt, run_result (run (fun _ => 7) ticks_no_r past_500_sample)))
    by (vm_compute; reflexivity).
  split; [reflexivity|]. split; [exact Hs|]. split; [exact Hr|]. split; [exact E|].
  exact (run_no_enemy_after_500 (fun _ => 7) ticks_no_r past_500_sample _ eq_refl Hs Hr E).
Defined.
