(* ===== verification/Shapes.v ===== *)
(** The shape invariant of the game's Rects.

    Every [pygame.Rect] of game.py is created with the size of its kind
    (the player [PLAYER_SIZE], line 31; a bullet [BULLET_SIZE], lines 166
    and 229; an enemy [ENEMY_SIZE], line 161; the boss [BOSS_SIZE], line
    171), and the code only ever assigns [x] and [y].  [shapes] states that
    every live Rect has the size of its kind, and that every list entry is
    an allocated object below [next_obj] (without this an allocation could
    overwrite a live entry).  [shapes] needs no absence of aliasing: an
    update that keeps the size keeps it for every list that shares the
    object.  The proof is a guarantee ([py_guar]) of every operation for the
    relation "keeps [shapes]". *)
From S2P Require Import Prelude Rect Game Motion Collision Spawner Loop.

Definition sized (s : Z) (r : Rect) : Prop := rw r = s /\ rh r = s.

(** A list entry: allocated, and a Rect of size [s] in the heap. *)
Definition obj_sized (h : gmap Obj Rect) (n : Obj) (s : Z) (o : Obj) : Prop :=
  (o < n)%positive /\ exists r, h !! o = Some r /\ sized s r.

Definition shapes (g : Game) : Prop :=
  sized PLAYER_SIZE (player g) /\
  Forall (obj_sized (heap g) (next_obj g) BULLET_SIZE) (map pb_rect (player_bullets g)) /\
  Forall (obj_sized (heap g) (next_obj g) BULLET_SIZE) (enemy_bullets g) /\
  Forall (obj_sized (heap g) (next_obj g) ENEMY_SIZE) (enemies g) /\
  (forall b, boss g = Some b -> sized BOSS_SIZE b).

(** [shapes] as a test, for concrete states. *)
Definition sizedb (s : Z) (r : Rect) : bool := (rw r =? s) && (rh r =? s).

Definition obj_sizedb (h : gmap Obj Rect) (n : Obj) (s : Z) (o : Obj) : bool :=
  Pos.ltb o n && default false (sizedb s <$> h !! o).

Definition shapesb (g : Game) : bool :=
  sizedb PLAYER_SIZE (player g) &&
  forallb (obj_sizedb (heap g) (next_obj g) BULLET_SIZE) (map pb_rect (player_bullets g)) &&
  forallb (obj_sizedb (heap g) (next_obj g) BULLET_SIZE) (enemy_bullets g) &&
  forallb (obj_sizedb (heap g) (next_obj g) ENEMY_SIZE) (enemies g) &&
  default true (sizedb BOSS_SIZE <$> boss g).

Definition shp_rel (g g' : Game) : Prop := shapes g -> shapes g'.

#[export] Instance shp_rel_preorder : PreOrder shp_rel.
Proof. split; [intros g H; exact H | intros g1 g2 g3 H1 H2 H; auto]. Qed.

(** ** Lemmas *)

Lemma sizedb_sized s r : sizedb s r = true <-> sized s r.
Proof. unfold sizedb, sized. by rewrite andb_true_iff, !Z.eqb_eq. Qed.

Lemma forallb_Forall {A} (P : A -> Prop) (p : A -> bool) xs :
  (forall x, p x = true -> P x) -> forallb p xs = true -> Forall P xs.
Proof.
  intros Hp. rewrite forallb_forall. intros H. apply Forall_forall.
  intros x Hx. apply Hp, H. by apply list_elem_of_In.
Qed.

Lemma shapesb_shapes g : shapesb g = true -> shapes g.
Proof.
  assert (Ho : forall s o, obj_sizedb (heap g) (next_obj g) s o = true -> obj_sized (heap g) (next_obj g) s o).
  { unfold obj_sizedb, obj_sized. intros s o. rewrite andb_true_iff, Pos.ltb_lt.
    intros [Hlt Hs]. split; [done|]. destruct (heap g !! o) as [r|]; [|done].
    exists r. split; [done|]. by apply sizedb_sized. }
  unfold shapesb. rewrite !andb_true_iff. intros ((((Hp & Hpb) & Heb) & Hen) & Hb).
  split_and!; [by apply sizedb_sized| (eapply forallb_Forall; [apply Ho|done])..|].
  intros b E. rewrite E in Hb. by apply sizedb_sized.
Qed.

(** A change of the heap that keeps every allocated object's size and does
    not lower the allocation counter keeps each entry's size. *)
Definition sizes_kept (g g' : Game) : Prop :=
  (next_obj g <= next_obj g')%positive /\
  forall o r, (o < next_obj g)%positive -> heap g !! o = Some r ->
    exists r', heap g' !! o = Some r' /\ rw r' = rw r /\ rh r' = rh r.

Lemma obj_sized_kept g g' s o :
  sizes_kept g g' -> obj_sized (heap g) (next_obj g) s o -> obj_sized (heap g') (next_obj g') s o.
Proof.
  intros [Hn Hk] (Hlt & r & Hr & Hw & Hh). split; [lia|].
  destruct (Hk o r Hlt Hr) as (r' & ? & Hw' & Hh'). exists r'. unfold sized. by rewrite Hw', Hh'.
Qed.

Lemma Forall_sized_kept g g' s os :
  sizes_kept g g' -> Forall (obj_sized (heap g) (next_obj g) s) os ->
  Forall (obj_sized (heap g') (next_obj g') s) os.
Proof. intros Hk Hos. eapply Forall_impl; [exact Hos|]. intros o. by apply obj_sized_kept. Qed.

(** An in-place update of one object that keeps its width and height. *)
Lemma sizes_kept_update g o f :
  (forall r, rw (f r) = rw r /\ rh (f r) = rh r) ->
  sizes_kept g (set_heap (<[o := f (heap g !!! o)]> (heap g)) g).
Proof.
  intros Hf. split; [by destruct g|]. intros o' r _ Hr. rewrite heap_set_heap.
  destruct (decide (o = o')) as [<-|Hne].
  - rewrite lookup_insert_eq. eexists. split; [done|].
    rewrite (lookup_total_correct _ _ _ Hr). apply Hf.
  - rewrite lookup_insert_ne by done. by exists r.
Qed.

(** An allocation: the new object sits at [next_obj], above every entry. *)
Lemma sizes_kept_alloc g r :
  sizes_kept g {| g with heap := <[next_obj g := r]> (heap g); next_obj := Pos.succ (next_obj g) |}.
Proof.
  split; cbn; [lia|]. intros o r' Hlt Hr. rewrite lookup_insert_ne by lia. by exists r'.
Qed.

Lemma obj_sized_new h n r s : sized s r -> obj_sized (<[n := r]> h) (Pos.succ n) s n.
Proof. intros Hr. split; cbn; [lia|]. exists r. by rewrite lookup_insert_eq. Qed.

(** A step that keeps every size, the player, the boss and the lists. *)
Lemma shapes_kept g g' :
  sizes_kept g g' -> player g' = player g -> boss g' = boss g ->
  player_bullets g' = player_bullets g -> enemy_bullets g' = enemy_bullets g ->
  enemies g' = enemies g -> shp_rel g g'.
Proof.
  intros Hk H1 H2 H3 H4 H5. unfold shp_rel, shapes. rewrite H1, H2, H3, H4, H5.
  intros (Hp & Hpb & Heb & Hen & Hb).
  split_and!; try done; by eapply Forall_sized_kept.
Qed.

(** ** Every operation keeps [shapes] *)

Lemma shp_rect_update o f :
  (forall r, rw (f r) = rw r /\ rh (f r) = rh r) -> py_guar shp_rel any_exc (rect_update o f).
Proof.
  intros Hf g. apply shapes_kept; [by apply sizes_kept_update|by destruct g..].
Qed.

(** Removing an entry: the other lists and the heap stay, the list shrinks. *)
Lemma shp_lf_remove_PB b : py_guar shp_rel any_exc (lf_remove PB b).
Proof.
  intros g. unfold lf_remove. destruct (py_remove _ _) eqn:E; [|done].
  intros (Hp & Hpb & Heb & Hen & Hb). split_and!; try done.
  eapply Forall_sublist_of; [|exact Hpb]. apply map_sublist. by eapply py_remove_sublist.
Qed.

Lemma shp_lf_remove_EB o : py_guar shp_rel any_exc (lf_remove EB o).
Proof.
  intros g. unfold lf_remove. destruct (py_remove _ _) eqn:E; [|done].
  intros (Hp & Hpb & Heb & Hen & Hb). split_and!; try done.
  eapply Forall_sublist_of; [|exact Heb]. by eapply py_remove_sublist.
Qed.

Lemma shp_lf_remove_EN o : py_guar shp_rel any_exc (lf_remove EN o).
Proof.
  intros g. unfold lf_remove. destruct (py_remove _ _) eqn:E; [|done].
  intros (Hp & Hpb & Heb & Hen & Hb). split_and!; try done.
  eapply Forall_sublist_of; [|exact Hen]. by eapply py_remove_sublist.
Qed.

(** [pygame.Rect(...)]: a fresh object above every entry. *)
Lemma shapes_alloc g r :
  shapes g ->
  shapes {| g with heap := <[next_obj g := r]> (heap g); next_obj := Pos.succ (next_obj g) |}.
Proof. apply shapes_kept; [apply sizes_kept_alloc|done..]. Qed.

(** ... appended to a list: the new entry has the size it was created with. *)
Lemma shp_alloc_PB r dx dy (k : PyM unit) :
  sized BULLET_SIZE r -> py_guar shp_rel any_exc k ->
  py_guar shp_rel any_exc (o <- new_rect r ;; lf_append PB (o, dx, dy) ;; k).
Proof.
  intros Hr Hk g. cbn. specialize (Hk (lf_set PB (player_bullets g ++ [(next_obj g, dx, dy)])
                 {| g with heap := <[next_obj g := r]> (heap g); next_obj := Pos.succ (next_obj g) |})).
  destruct (k _) as [e|[[] g']]; [done|]. intros Hs. apply Hk.
  destruct (shapes_alloc g r Hs) as (Hp & Hpb & Heb & Hen & Hb).
  split_and!; try done. cbn. rewrite map_app. apply Forall_app. split; [done|].
  apply Forall_singleton. by apply obj_sized_new.
Qed.

Lemma shp_alloc_EB r :
  sized BULLET_SIZE r -> py_guar shp_rel any_exc (o <- new_rect r ;; lf_append EB o).
Proof.
  intros Hr g Hs. destruct (shapes_alloc g r Hs) as (Hp & Hpb & Heb & Hen & Hb).
  split_and!; try done. cbn. apply Forall_app. split; [done|].
  apply Forall_singleton. by apply obj_sized_new.
Qed.

Lemma shp_alloc_EN r :
  sized ENEMY_SIZE r -> py_guar shp_rel any_exc (o <- new_rect r ;; lf_append EN o).
Proof.
  intros Hr g Hs. destruct (shapes_alloc g r Hs) as (Hp & Hpb & Heb & Hen & Hb).
  split_and!; try done. cbn. apply Forall_app. split; [done|].
  apply Forall_singleton. by apply obj_sized_new.
Qed.

Local Ltac shp_boss :=
  intros ?b ?Hb; repeat match goal with H : option_map _ ?o = Some _ |- _ =>
    destruct o eqn:?; cbn in H; [|discriminate] end;
  simplify_eq; cbn; first [split; reflexivity | eauto].

Local Ltac shp_same :=
  intros [] ((Hpw & Hph) & Hpb & Heb & Hen & Hb); unfold shapes, sized in *; cbn in *;
  split_and!; first [assumption | shp_boss | constructor].

#[local] Hint Resolve shp_lf_remove_PB shp_lf_remove_EB shp_lf_remove_EN : guar.
#[local] Hint Extern 1 (py_guar shp_rel _ (o <- new_rect _ ;; lf_append PB _ ;; _)) =>
  apply shp_alloc_PB; [split; reflexivity|] : guar.
#[local] Hint Extern 1 (py_guar shp_rel _ (o <- new_rect _ ;; lf_append EB _)) =>
  apply shp_alloc_EB; split; reflexivity : guar.
#[local] Hint Extern 1 (py_guar shp_rel _ (o <- new_rect _ ;; lf_append EN _)) =>
  apply shp_alloc_EN; split; reflexivity : guar.
#[local] Hint Extern 1 (py_guar shp_rel _ (rect_update _ _)) =>
  apply shp_rect_update; intros; split; reflexivity : guar.
#[local] Hint Extern 1 (py_guar shp_rel _ (py_modify _)) => apply guar_modify; shp_same : guar.
#[local] Hint Extern 1 (py_guar shp_rel _ (play _)) => apply guar_modify; shp_same : guar.
#[local] Hint Extern 1 (py_guar shp_rel _ (randint _ _ _)) => intros ? H; exact H : guar.
#[local] Hint Extern 1 (py_guar shp_rel _ (deref _)) => apply guar_gets; apply _ : guar.
#[local] Hint Extern 1 True => exact I : guar.

Lemma shp_handle_event rand ev : py_guar shp_rel any_exc (handle_event rand ev).
Proof.
  unfold handle_event, restart_game, fire_bullet, on_enemy_timer, spawn_enemy, enemy_fire,
    enemy_fire_one, spawn_boss.
  destruct ev; guar_auto.
Qed.

#[local] Hint Resolve shp_handle_event : guar.

Lemma shp_frame rand inp : py_guar shp_rel any_exc (frame rand inp).
Proof.
  unfold frame, handle_keys, move_bullets, move_player_bullet, move_enemy_bullet, move_enemies,
    move_enemy, move_boss, reset_boss, check_collisions, check_player_bullets, check_player_hit,
    check_bullet, bullet_hits_enemy, bullet_hits_boss, game_over.
  guar_auto. all: destruct x as [[o dx] dy]; guar_auto.
Qed.

Lemma shp_run rand inputs : py_guar shp_rel any_exc (run rand inputs).
Proof.
  induction inputs as [|inp rest IH]; cbn; [guar_auto|].
  apply guar_get_bind. intros g. destruct (running g); [|by intros ?].
  assert (H : py_guar shp_rel any_exc (frame rand inp ;; run rand rest))
    by (guar_bind_tac; [apply shp_frame|intros _; exact IH]).
  exact (H g).
Qed.

(** C20: every run of the main loop keeps the shapes: from a state where the
    player is 50x50, every bullet 5x5, every enemy 30x30, the boss (if any)
    100x100, and every list entry an allocated object, every run that
    returns ends in such a state.  The code only ever assigns [x] and [y],
    and every Rect it appends is fresh and created with its kind's size. *)
Theorem run_preserves_shapes rand inputs g g' :
  shapes g -> run rand inputs g = inr (tt, g') -> shapes g'.
Proof. intros Hs E. exact (guar_run shp_rel any_exc _ _ _ _ (shp_run rand inputs) E Hs). Qed.

Lemma run_preserves_shapes_witness :
  shapes init_game /\
  run (fun _ => 5) wf_sample_inputs init_game =
    inr (tt, run_result (run (fun _ => 5) wf_sample_inputs init_game)) /\
  shapes (run_result (run (fun _ => 5) wf_sample_inputs init_game)).
Proof.
  assert (H0 : shapes init_game) by (apply shapesb_shapes; vm_compute; reflexivity).
  assert (E : run (fun _ => 5) wf_sample_inputs init_game =
                inr (tt, run_result (run (fun _ => 5) wf_sample_inputs init_game)))
    by (vm_compute; reflexivity).
  split; [exact H0|]. split; [exact E|].
  exact (run_preserves_shapes (fun _ => 5) wf_sample_inputs _ _ H0 E).
Defined.
