(* ===== verification/Bounds.v ===== *)
(** Bounds on the enemies' positions.

    An enemy is created at the top of the field, at an [x] drawn from
    [random.randint(0, WIDTH - ENEMY_SIZE)] (line 161).  Its [x] is never
    assigned again.  [move_enemies] moves it down 2 pixels and removes it
    once it is below [HEIGHT] (lines 105-109).  So at every frame boundary
    every enemy lies in [0, WIDTH - ENEMY_SIZE] x [0, HEIGHT], unlike the
    player, whose [x] is never clamped ([Loop.run_player_unclamped]).

    [enemies_in] states this of the values of the enemy list, together
    with the allocation of its entries (so that an allocation never
    overwrites an enemy).  The moves of the frame are covered by the
    refinement lemmas of [Motion], which need the no-aliasing invariant
    [wf]: only then does moving a bullet leave every enemy where it was.
    Every other phase of the frame assigns no coordinate of a list object,
    and is covered by a guarantee ([py_guar]).

    The boss is a global, not a list entry.  It appears at [y = -100] at
    an [x] drawn in [0, WIDTH - BOSS_SIZE] (lines 169-174), moves down one
    pixel per frame and is removed, with its stage, once below [HEIGHT]
    (lines 111-121): [run_boss_in_field] keeps it in
    [0, WIDTH - BOSS_SIZE] x [-100, HEIGHT]. *)
From S2P Require Import Prelude Rect Game Motion Collision Spawner Loop.

Definition in_field (r : Rect) : Prop :=
  0 <= rx r <= WIDTH - ENEMY_SIZE /\ 0 <= ry r <= HEIGHT.

Definition enemies_in (g : Game) : Prop :=
  Forall in_field (lf_vals EN g) /\ Forall (fun o => (o < next_obj g)%positive) (enemies g).

Definition en_rel (g g' : Game) : Prop := enemies_in g -> enemies_in g'.

#[export] Instance en_rel_preorder : PreOrder en_rel.
Proof. split; [intros g H; exact H | intros g1 g2 g3 H1 H2 H; auto]. Qed.

(** ** The phases without moves *)

(** A fresh object leaves every enemy's value and allocation. *)
Lemma enemies_in_alloc g r :
  enemies_in g ->
  enemies_in {| g with heap := <[next_obj g := r]> (heap g); next_obj := Pos.succ (next_obj g) |}.
Proof.
  intros [Hv Ha]. split.
  - unfold lf_vals in *. cbn [heap enemies next_obj].
    rewrite (lf_vals_fresh EN); [exact Hv|by rewrite map_id].
  - eapply Forall_impl; [exact Ha|]. cbn. lia.
Qed.

Lemma en_lf_remove_EN o : py_guar en_rel any_exc (lf_remove EN o).
Proof.
  intros g. unfold lf_remove. destruct (py_remove _ _) eqn:E; [|done].
  apply py_remove_sublist in E. intros [Hv Ha]. split; cbn.
  - eapply Forall_sublist_of; [|exact Hv]. by apply map_sublist.
  - by eapply Forall_sublist_of.
Qed.

Lemma en_lf_remove_PB b : py_guar en_rel any_exc (lf_remove PB b).
Proof. intros g. destruct (lf_remove_cases PB b g) as [-> | (l & -> & _)]; [done|].
  destruct g; intros H; exact H.
Qed.

Lemma en_lf_remove_EB o : py_guar en_rel any_exc (lf_remove EB o).
Proof. intros g. destruct (lf_remove_cases EB o g) as [-> | (l & -> & _)]; [done|].
  destruct g; intros H; exact H.
Qed.

Lemma en_alloc_PB r dx dy (k : PyM unit) :
  py_guar en_rel any_exc k ->
  py_guar en_rel any_exc (o <- new_rect r ;; lf_append PB (o, dx, dy) ;; k).
Proof.
  intros Hk g. cbn. specialize (Hk (lf_set PB (player_bullets g ++ [(next_obj g, dx, dy)])
                 {| g with heap := <[next_obj g := r]> (heap g); next_obj := Pos.succ (next_obj g) |})).
  destruct (k _) as [e|[[] g']]; [done|]. intros Hen. apply Hk. by apply enemies_in_alloc.
Qed.

Lemma en_alloc_EB r : py_guar en_rel any_exc (o <- new_rect r ;; lf_append EB o).
Proof. intros g Hen. by apply enemies_in_alloc. Qed.

(** [spawn_enemy]: the new enemy is at the top, at an [x] in range. *)
Lemma en_spawn_enemy rand : py_guar en_rel any_exc (spawn_enemy rand).
Proof.
  intros g. unfold spawn_enemy.
  destruct (randint rand 0 (WIDTH - ENEMY_SIZE) g) as [e|[x g1]] eqn:Er; [done|].
  assert (Hx : 0 <= x <= WIDTH - ENEMY_SIZE)
    by (eapply randint_range; [|exact Er]; unfold WIDTH, ENEMY_SIZE; lia).
  rewrite (py_bind_inr _ _ _ _ _ Er). injection Er as _ <-.
  intros Hen. destruct (enemies_in_alloc _ (mkRect x 0 ENEMY_SIZE ENEMY_SIZE) Hen) as [Hv Ha].
  cbn in *. split.
  - unfold lf_vals in *. cbn in *. rewrite map_app. apply Forall_app. split; [exact Hv|].
    apply Forall_singleton. rewrite lookup_total_insert_eq. unfold in_field, HEIGHT; cbn. lia.
  - apply Forall_app. split; [exact Ha|]. apply Forall_singleton. cbn. lia.
Qed.

Local Ltac en_same :=
  intros [] [Hv Ha]; unfold enemies_in, lf_vals in *; cbn in *;
  split; first [exact Hv | exact Ha | constructor].

#[local] Hint Resolve en_lf_remove_EN en_lf_remove_PB en_lf_remove_EB : guar.
#[local] Hint Resolve en_alloc_PB en_alloc_EB en_spawn_enemy : guar.
#[local] Hint Extern 1 (py_guar en_rel _ (py_modify _)) => apply guar_modify; en_same : guar.
#[local] Hint Extern 1 (py_guar en_rel _ (play _)) => apply guar_modify; en_same : guar.
#[local] Hint Extern 1 (py_guar en_rel _ (randint _ _ _)) => intros ? H; exact H : guar.
#[local] Hint Extern 1 (py_guar en_rel _ (deref _)) => apply guar_gets; apply _ : guar.
#[local] Hint Extern 1 True => exact I : guar.

Lemma en_handle_event rand ev : py_guar en_rel any_exc (handle_event rand ev).
Proof.
  unfold handle_event, restart_game, fire_bullet, on_enemy_timer, enemy_fire, enemy_fire_one,
    spawn_boss.
  destruct ev; guar_auto.
Qed.

#[local] Hint Resolve en_handle_event : guar.

(** The boss's move and the collision pass. *)
Lemma en_boss_collisions : py_guar en_rel any_exc (move_boss ;; check_collisions).
Proof.
  unfold move_boss, reset_boss, check_collisions, check_player_bullets, check_player_hit,
    check_bullet, bullet_hits_enemy, bullet_hits_boss, game_over.
  guar_auto.
Qed.

(** The events of a frame and the held keys. *)
Lemma en_events_keys rand inp :
  py_guar en_rel any_exc (py_for (events inp) (handle_event rand) ;; handle_keys (keys inp)).
Proof. unfold handle_keys. guar_auto. Qed.

(** ** The moves *)

Lemma in_field_fall r : in_field r -> below_field (fall 2 r) = false -> in_field (fall 2 r).
Proof. unfold in_field, below_field, fall. cbn. intros Hr Hb. apply Z.ltb_ge in Hb. lia. Qed.

(** Moving the bullets leaves the enemies; moving the enemies keeps those
    that stay above the bottom edge, each inside the field. *)
Lemma en_moves g :
  wf g -> enemies_in g ->
  exists g1 g2, move_bullets g = inr (tt, g1) /\ move_enemies g1 = inr (tt, g2) /\
                wf g2 /\ enemies_in g2.
Proof.
  intros Hwf [Hv _]. destruct (move_bullets_correct g Hwf) as (g1 & E1 & Hwf1 & V1).
  destruct (move_enemies_correct g1 Hwf1) as (g2 & E2 & Hwf2 & V2).
  exists g1, g2. split_and!; [done..|]. split; [|apply wf_allocated, Hwf2].
  apply (f_equal v_enemies) in V1, V2.
  cbn [view v_enemies move_enemies_spec move_bullets_spec] in V1, V2. rewrite V2, V1.
  apply Forall_forall. intros r' Hr'. apply list_elem_of_In, filter_In in Hr' as [Hin Hb].
  apply in_map_iff in Hin as (r & <- & Hr). apply in_field_fall; [|by destruct (below_field _)].
  eapply Forall_forall in Hv; [exact Hv|by apply list_elem_of_In].
Qed.

(** ** Frames and runs *)

Lemma en_frame rand inp g g' :
  wf g -> enemies_in g -> frame rand inp g = inr (tt, g') -> enemies_in g'.
Proof.
  intros Hwf Hen E. unfold frame in E. rewrite py_bind_get in E.
  pose proof (en_events_keys rand inp) as Hk.
  destruct (in_start_menu g), (is_game_over g); try exact (guar_run _ _ _ _ _ _ Hk E Hen).
  destruct (en_moves g Hwf Hen) as (g1 & g2 & E1 & E2 & _ & Hen2).
  rewrite py_bind_assoc, (py_bind_inr _ _ _ _ _ E1), py_bind_assoc, (py_bind_inr _ _ _ _ _ E2) in E.
  assert (H : py_guar en_rel any_exc
            ((move_boss ;; check_collisions) ;; py_for (events inp) (handle_event rand) ;;
             handle_keys (keys inp)))
    by (guar_bind_tac; [apply en_boss_collisions|intros _; exact Hk]).
  exact (guar_run _ _ _ _ _ _ H E Hen2).
Qed.

Lemma en_run rand inputs g g' :
  wf g -> enemies_in g -> run rand inputs g = inr (tt, g') -> enemies_in g'.
Proof.
  revert g. induction inputs as [|inp rest IH]; intros g Hwf Hen E; cbn [run] in E.
  { by injection E as <-. }
  rewrite py_bind_get in E. destruct (running g); [|by injection E as <-].
  apply py_bind_inr_inv in E as ([] & g1 & Ef & E).
  apply (IH g1); [exact (guar_run _ _ _ _ _ _ (wf_frame rand inp) Ef Hwf)|by eapply en_frame|done].
Qed.

(** C34: the enemies stay inside the field: from a state without aliasing
    in which every enemy lies in [0, WIDTH - ENEMY_SIZE] x [0, HEIGHT] (as
    in the initial state, which has none), every run that returns ends
    with every enemy in that box.  New enemies appear at the top at an
    [x] drawn in range, enemies only move down, and [move_enemies] removes
    them once they pass the bottom edge. *)
Theorem run_enemies_in_field rand inputs g g' :
  wf g -> enemies_in g -> run rand inputs g = inr (tt, g') ->
  Forall in_field (lf_vals EN g').
Proof. intros Hwf Hen E. exact (proj1 (en_run rand inputs g g' Hwf Hen E)). Qed.

Lemma run_enemies_in_field_witness :
  wf init_game /\ enemies_in init_game /\
  run (fun _ => 5) wf_sample_inputs init_game =
    inr (tt, run_result (run (fun _ => 5) wf_sample_inputs init_game)) /\
  Forall in_field (lf_vals EN (run_result (run (fun _ => 5) wf_sample_inputs init_game))).
Proof.
  assert (Hwf : wf init_game) by (apply wfb_wf; vm_compute; reflexivity).
  assert (Hen : enemies_in init_game) by (split; constructor).
  assert (E : run (fun _ => 5) wf_sample_inputs init_game =
                inr (tt, run_result (run (fun _ => 5) wf_sample_inputs init_game)))
    by (vm_compute; reflexivity).
  split; [exact Hwf|]. split; [exact Hen|]. split; [exact E|].
  exact (run_enemies_in_field (fun _ => 5) wf_sample_inputs _ _ Hwf Hen E).
Defined.

(** ** The boss *)

(** The box of the boss: it appears at [y = -100] (line 172), at an [x]
    drawn in [0, WIDTH - BOSS_SIZE] (line 170), and leaves once below the
    bottom edge. *)
Definition boss_in (b : option Rect) : Prop :=
  match b with
  | Some r => 0 <= rx r <= WIDTH - BOSS_SIZE /\ -100 <= ry r <= HEIGHT
  | None => True
  end.

Definition boss_rel (g g' : Game) : Prop := boss_in (boss g) -> boss_in (boss g').

#[export] Instance boss_rel_preorder : PreOrder boss_rel.
Proof. split; [intros g H; exact H | intros g1 g2 g3 H1 H2 H; auto]. Qed.

Lemma boss_lf_remove {K V} `{EqDecision V} (L : ListField K V) k :
  (forall l g, boss (lf_set L l g) = boss g) -> py_guar boss_rel any_exc (lf_remove L k).
Proof.
  intros HL g. unfold lf_remove. destruct (py_remove _ _); [|done]. unfold boss_rel. by rewrite HL.
Qed.

Lemma boss_lf_append {K V} `{EqDecision V} (L : ListField K V) k :
  (forall l g, boss (lf_set L l g) = boss g) -> py_guar boss_rel any_exc (lf_append L k).
Proof. intros HL g. unfold boss_rel. cbn. by rewrite HL. Qed.

Lemma boss_PB l g : boss (lf_set PB l g) = boss g.
Proof. by destruct g. Qed.
Lemma boss_EB l g : boss (lf_set EB l g) = boss g.
Proof. by destruct g. Qed.
Lemma boss_EN l g : boss (lf_set EN l g) = boss g.
Proof. by destruct g. Qed.

(** [move_boss] (lines 111-115): one pixel down, and removed once below
    the bottom edge. *)
Lemma boss_move_boss : py_guar boss_rel any_exc move_boss.
Proof.
  intros [h n p pbs ebs ens [r|] bh bs sc go sm rn k snd]; unfold move_boss, reset_boss, py_when;
    cbn; [|done].
  destruct (rect_truthy r); cbn; [|done].
  destruct (HEIGHT <? ry r + 1) eqn:Hb; cbn; [done|].
  apply Z.ltb_ge in Hb. intros (Hx & Hy1 & Hy2). simpl. unfold HEIGHT in *. lia.
Qed.

(** [spawn_boss] (lines 169-174): at the top, at an [x] in range. *)
Lemma boss_spawn_boss rand : py_guar boss_rel any_exc (spawn_boss rand).
Proof.
  intros g. unfold spawn_boss.
  destruct (randint rand 0 (WIDTH - BOSS_SIZE) g) as [e|[x g1]] eqn:Er; [done|].
  assert (Hx : 0 <= x <= WIDTH - BOSS_SIZE)
    by (eapply randint_range; [|exact Er]; unfold WIDTH, BOSS_SIZE; lia).
  rewrite (py_bind_inr _ _ _ _ _ Er). intros _. cbn. unfold HEIGHT. lia.
Qed.

Local Ltac boss_same := intros [] H; exact H.

#[local] Hint Resolve boss_lf_remove boss_lf_append boss_PB boss_EB boss_EN : guar.
#[local] Hint Resolve boss_move_boss boss_spawn_boss : guar.
#[local] Hint Extern 1 (py_guar boss_rel _ (py_modify _)) =>
  apply guar_modify; first [boss_same | intros ? ?; exact I] : guar.
#[local] Hint Extern 1 (py_guar boss_rel _ (rect_update _ _)) => apply guar_modify; boss_same : guar.
#[local] Hint Extern 1 (py_guar boss_rel _ (play _)) => apply guar_modify; boss_same : guar.
#[local] Hint Extern 1 (py_guar boss_rel _ (new_rect _)) => intros ? H; exact H : guar.
#[local] Hint Extern 1 (py_guar boss_rel _ (randint _ _ _)) => intros ? H; exact H : guar.
#[local] Hint Extern 1 (py_guar boss_rel _ (deref _)) => apply guar_gets; apply _ : guar.

Lemma boss_handle_event rand ev : py_guar boss_rel any_exc (handle_event rand ev).
Proof.
  unfold handle_event, restart_game, fire_bullet, on_enemy_timer, spawn_enemy, enemy_fire,
    enemy_fire_one.
  destruct ev; guar_auto.
Qed.

#[local] Hint Resolve boss_handle_event : guar.

Lemma boss_frame rand inp : py_guar boss_rel any_exc (frame rand inp).
Proof.
  unfold frame, handle_keys, move_bullets, move_player_bullet, move_enemy_bullet, move_enemies,
    move_enemy, check_collisions, check_player_bullets, check_player_hit,
    check_bullet, bullet_hits_enemy, bullet_hits_boss, game_over.
  guar_auto. all: destruct x as [[o dx] dy]; guar_auto.
Qed.

Lemma boss_run rand inputs : py_guar boss_rel any_exc (run rand inputs).
Proof.
  induction inputs as [|inp rest IH]; cbn; [guar_auto|].
  apply guar_get_bind. intros g. destruct (running g); [|by intros ?].
  assert (H : py_guar boss_rel any_exc (frame rand inp ;; run rand rest))
    by (guar_bind_tac; [apply boss_frame|intros _; exact IH]).
  exact (H g).
Qed.

(** C35: the boss stays inside its box: from a state whose boss, if any,
    lies in [0, WIDTH - BOSS_SIZE] x [-100, HEIGHT] (as in the initial
    state, which has none), every run that returns ends with the boss, if
    any, in that box.  It appears at [y = -100] at an [x] drawn in range,
    only moves down, one pixel per frame, and [move_boss] removes it once
    it passes the bottom edge. *)
Theorem run_boss_in_field rand inputs g g' :
  boss_in (boss g) -> run rand inputs g = inr (tt, g') -> boss_in (boss g').
Proof. intros Hb E. exact (guar_run _ _ _ _ _ _ (boss_run rand inputs) E Hb). Qed.

(** A tick at 500 points brings the boss, which then descends. *)
Definition boss_inputs : list Input :=
  mkInput [ENEMY_EVENT] (mkKeys false false) :: repeat (mkInput [] (mkKeys false true)) 5.

Lemma run_boss_in_field_witness :
  let g := {| init_game with in_start_menu := false; score := 500 |} in
  boss_in (boss g) /\
  run (fun _ => 9) boss_inputs g = inr (tt, run_result (run (fun _ => 9) boss_inputs g)) /\
  boss (run_result (run (fun _ => 9) boss_inputs g)) <> None /\
  boss_in (boss (run_result (run (fun _ => 9) boss_inputs g))).
Proof.
  intros g. assert (Hb : boss_in (boss g)) by exact I.
  assert (E : run (fun _ => 9) boss_inputs g = inr (tt, run_result (run (fun _ => 9) boss_inputs g)))
    by (vm_compute; reflexivity).
  split; [exact Hb|]. split; [exact E|]. split; [vm_compute; discriminate|].
  exact (run_boss_in_field (fun _ => 9) boss_inputs g _ Hb E).
Defined.
