(* ===== verification/Render.v ===== *)
(** Rendering: the draw functions of game.py (lines 71-91, 176-186) and the
    drawing part of one iteration of the main loop (lines 202-213).

    The draw functions only read the globals and issue calls to pygame:
    [pygame.draw.rect], [screen.fill] and [screen.blit] of a text rendered
    in [font].  They are modelled as functions from the state to the list
    of calls, in the order the code issues them ([Draw]).  A colour is the
    RGB triple of lines 17-22.  [pygame.display.flip()] shows the list.

    The width of the boss's health bar is the Python float
    [boss.width * (boss_health / 20)] (line 89).  It is modelled as the
    exact rational ([Q]).  Floating-point rounding is not modelled; with
    the health at 20 the float is exact.  The score is formatted by
    f"Score: {score}", Python's decimal [str] of an int.  It is modelled by
    stdpp's [pretty] on [Z], which prints the same digits with a leading
    '-' for negatives.

    Theorems: [run_screens_bar_full]: in every frame shown during a run
    that does not crash, the boss's health bar is drawn at full width.
    This is a consequence of the [NameError] of a boss hit.  The lemma
    [run_screens_run] shows that the loop that also records the screens
    computes what [run] computes. *)
From Stdlib Require Import QArith.
From stdpp Require Import pretty.
From S2P Require Import Prelude Rect Game Motion Collision Spawner Loop Invariants.

(** ** The calls *)

(** An RGB colour, lines 17-22. *)
Definition Color : Type := Z * Z * Z.
Definition WHITE : Color := (255, 255, 255).
Definition GREEN : Color := (0, 255, 0).
Definition RED : Color := (255, 0, 0).
Definition YELLOW : Color := (255, 255, 0).
Definition PURPLE : Color := (128, 0, 128).

Inductive Draw :=
| Fill (c : Color)                            (** [screen.fill(c)] *)
| DrawRect (c : Color) (r : Rect)             (** [pygame.draw.rect(screen, c, r)] *)
| DrawBar (c : Color) (x y : Z) (w : Q) (h : Z)
                                              (** [pygame.draw.rect(screen, c, (x, y, w, h))] *)
| Blit (text : string) (c : Color) (x y : Z). (** [screen.blit(font.render(text, True, c), (x, y))] *)

(** ** The draw functions *)

(** Line 72. *)
Definition draw_player (g : Game) : list Draw := [DrawRect GREEN (player g)].

(** Lines 74-78. *)
Definition draw_bullets (g : Game) : list Draw :=
  map (fun b => DrawRect YELLOW (heap g !!! pb_rect b)) (player_bullets g) ++
  map (fun o => DrawRect RED (heap g !!! o)) (enemy_bullets g).

(** Lines 80-82. *)
Definition draw_enemies (g : Game) : list Draw :=
  map (fun o => DrawRect RED (heap g !!! o)) (enemies g).

(** [boss.width * (boss_health / 20)], line 89. *)
Definition health_bar_width (b : Rect) (health : Z) : Q :=
  inject_Z (rw b) * (inject_Z health / inject_Z 20).

(** Lines 84-90. *)
Definition draw_boss (g : Game) : list Draw :=
  match boss g with
  | Some b =>
      if rect_truthy b then
        [DrawRect PURPLE b;
         DrawBar RED (rx b) (ry b - 10) (health_bar_width b (boss_health g)) 5]
      else []
  | None => []
  end.

(** Lines 176-178. *)
Definition draw_score (g : Game) : list Draw :=
  [Blit ("Score: " +:+ pretty (score g)) WHITE 10 10].

(** Lines 180-182. *)
Definition game_over_screen : list Draw :=
  [Blit "Game Over! Press R to restart." WHITE (WIDTH / 2 - 150) (HEIGHT / 2)].

(** Lines 184-186. *)
Definition start_menu : list Draw :=
  [Blit "Press SPACE to start the game." WHITE (WIDTH / 2 - 200) (HEIGHT / 2)].

(** Lines 202-213: what one iteration draws, from the state at its start. *)
Definition render (g : Game) : list Draw :=
  Fill (0, 0, 0) ::
  (if in_start_menu g then start_menu
   else if is_game_over g then game_over_screen
   else draw_player g ++ draw_bullets g ++ draw_enemies g ++ draw_boss g ++ draw_score g).

(** Lines 201-250: one iteration, drawing included; it returns the screen
    that [pygame.display.flip()] shows. *)
Definition iteration (rand : nat -> Z) (inp : Input) : PyM (list Draw) :=
  screen <- py_gets render ;;
  frame rand inp ;;
  py_ret screen.

(** Line 201: [while running], recording the screens shown. *)
Fixpoint run_screens (rand : nat -> Z) (inputs : list Input) : PyM (list (list Draw)) :=
  match inputs with
  | [] => py_ret []
  | inp :: rest =>
      g <- py_get ;;
      if running g then
        screen <- iteration rand inp ;;
        screens <- run_screens rand rest ;;
        py_ret (screen :: screens)
      else py_ret []
  end.

(** ** Theorems *)

(** Forgetting the screens, one iteration is one frame. *)
Lemma iteration_frame rand inp g :
  match iteration rand inp g with
  | inl e => frame rand inp g = inl e
  | inr (s, g') => s = render g /\ frame rand inp g = inr (tt, g')
  end.
Proof.
  unfold iteration. rewrite py_bind_gets. cbv beta.
  destruct (frame rand inp g) as [e|[[] g']] eqn:E.
  - by rewrite (py_bind_inl _ _ _ _ E).
  - by rewrite (py_bind_inr _ _ _ _ _ E).
Qed.

(** The loop that also records the screens computes what [run] computes:
    the same exception, or the same final state, with one screen per frame
    run. *)
Lemma run_screens_run rand inputs g :
  match run_screens rand inputs g with
  | inl e => run rand inputs g = inl e
  | inr (scrs, g') => run rand inputs g = inr (tt, g') /\ (length scrs <= length inputs)%nat
  end.
Proof.
  revert g. induction inputs as [|inp rest IH]; intros g; cbn [run_screens run].
  { cbn. split; [done|lia]. }
  rewrite !py_bind_get. destruct (running g); [|cbn; split; [done|lia]].
  pose proof (iteration_frame rand inp g) as Hit. unfold py_bind at 1 3.
  destruct (iteration rand inp g) as [e|[s g1]]; [by rewrite Hit|].
  destruct Hit as [_ Hf]. specialize (IH g1). unfold py_bind. rewrite Hf.
  destruct (run_screens rand rest g1) as [e|[scrs g']]; [done|].
  destruct IH as [E Hl]. cbn. rewrite E. split; [done|lia].
Qed.

(** A bar on the screen is the boss's health bar. *)
Lemma bar_in_render g c x y w h :
  DrawBar c x y w h ∈ render g ->
  exists b, boss g = Some b /\ DrawRect PURPLE b ∈ render g /\
            w = health_bar_width b (boss_health g).
Proof.
  unfold render. intros Hin. apply elem_of_cons in Hin as [Hin|Hin]; [done|].
  destruct (in_start_menu g), (is_game_over g);
    try (unfold start_menu, game_over_screen in Hin; set_solver).
  unfold draw_player, draw_bullets, draw_enemies, draw_score in Hin.
  rewrite !elem_of_app in Hin.
  destruct Hin as [Hin|[[Hin|Hin]|[Hin|[Hin|Hin]]]];
    try (apply list_elem_of_In, in_map_iff in Hin as (? & ? & _); discriminate);
    try (apply elem_of_cons in Hin as [Hin|Hin]; [discriminate|set_solver]).
  unfold draw_boss in Hin. destruct (boss g) as [b|] eqn:Hb; [|set_solver].
  destruct (rect_truthy b) eqn:Ht; [|set_solver].
  apply elem_of_cons in Hin as [Hin|Hin]; [discriminate|].
  apply list_elem_of_singleton in Hin. injection Hin as -> -> -> -> ->.
  exists b. split; [done|]. split; [|done].
  rewrite !elem_of_cons, !elem_of_app. right. right. right. right. left.
  unfold draw_boss. rewrite Hb, Ht. by left.
Qed.

(** Every health bar of a screen is as wide as the boss drawn on it. *)
Definition bar_full (s : list Draw) : Prop :=
  forall c x y w h, DrawBar c x y w h ∈ s -> exists b, DrawRect PURPLE b ∈ s /\ (w == inject_Z (rw b))%Q.

Lemma render_bar_full g : session_inv g -> bar_full (render g).
Proof.
  intros (Hh & _ & _) c x y w h Hin. destruct (bar_in_render g c x y w h Hin) as (b & _ & Hb & ->).
  exists b. split; [done|]. unfold health_bar_width. rewrite Hh. unfold BOSS_MAX_HEALTH. field.
Qed.

(** C38: in a run from a state where the boss's health is full (as in the
    initial state), every screen shown draws the boss's health bar at the
    full width of the boss: the bar never shrinks, because a boss hit
    raises [NameError] before the game can go on. *)
Theorem run_screens_bar_full rand inputs g scrs g' :
  session_inv g -> run_screens rand inputs g = inr (scrs, g') -> Forall bar_full scrs.
Proof.
  revert g scrs g'. induction inputs as [|inp rest IH]; intros g scrs g' Hi E;
    cbn [run_screens] in E.
  { injection E as <- _. constructor. }
  rewrite py_bind_get in E. destruct (running g); [|injection E as <- _; constructor].
  pose proof (iteration_frame rand inp g) as Hit.
  apply py_bind_inr_inv in E as (s & g1 & Ei & E). rewrite Ei in Hit. destruct Hit as [-> Hf].
  apply py_bind_inr_inv in E as (scrs' & g2 & Er & E). injection E as <- _.
  constructor; [by apply render_bar_full|].
  apply (IH g1 scrs' g2); [|done]. exact (guar_run _ _ _ _ _ _ (inv_frame rand inp) Hf Hi).
Qed.

(** A boss on the field, health full. *)
Definition boss_field_sample : Game := {|
  heap := ∅; next_obj := 1%positive; player := start_player;
  player_bullets := []; enemy_bullets := []; enemies := [];
  boss := Some (mkRect 500 100 BOSS_SIZE BOSS_SIZE); boss_health := 20; boss_stage := true;
  score := 500; is_game_over := false; in_start_menu := false; running := true;
  rng_n := 0; sounds := [] |}.

Definition screens_result (r : PyExc + (list (list Draw) * Game)) : list (list Draw) :=
  match r with inr (s, _) => s | inl _ => [] end.

Lemma run_screens_bar_full_witness :
  session_inv boss_field_sample /\
  run_screens (fun _ => 0) (repeat (mkInput [] (mkKeys true false)) 2) boss_field_sample =
    inr (screens_result (run_screens (fun _ => 0) (repeat (mkInput [] (mkKeys true false)) 2)
                           boss_field_sample),
         run_result (run (fun _ => 0) (repeat (mkInput [] (mkKeys true false)) 2) boss_field_sample)) /\
  Forall bar_full (screens_result (run_screens (fun _ => 0) (repeat (mkInput [] (mkKeys true false)) 2)
                                     boss_field_sample)).
Proof.
  assert (Hi : session_inv boss_field_sample)
    by (unfold session_inv; cbn; split_and!; [reflexivity|lia|reflexivity]).
  assert (E : run_screens (fun _ => 0) (repeat (mkInput [] (mkKeys true false)) 2) boss_field_sample =
    inr (screens_result (run_screens (fun _ => 0) (repeat (mkInput [] (mkKeys true false)) 2)
                           boss_field_sample),
         run_result (run (fun _ => 0) (repeat (mkInput [] (mkKeys true false)) 2) boss_field_sample)))
    by (vm_compute; reflexivity).
  split; [exact Hi|]. split; [exact E|].
  exact (run_screens_bar_full _ _ _ _ _ Hi E).
Defined.
